(** * Scoreboard: the game-state reducer, the persisted-payload codec and the
      storage-event handler of the scoreboard application.

    The TypeScript sources embedded here, by the module they belong to:
    - [types.ts]: [TeamState], [ScoreboardState], [PlayerState],
      [PersistedPayload];
    - [constants.ts]: the storage keys, the default rosters, [defaultState],
      [defaultPayload];
    - [storage.ts]: [normalizePlayers], [isState], [parsePayload],
      [loadLatestPayload], [savePayload];
    - [useScoreboardStore.ts]: [ScoreboardAction], [reducer] and its helpers,
      and the storage-event handler of [useScoreboardStore].

    Conventions.
    - A JavaScript [number] is a [Z]: the numbers of the game are integer
      counts of points, seconds and fouls (no NaN, no fractions).
    - [Date.now()] is an input: a function that reads the clock takes the
      reading as its first argument [now].
    - An optional field [f?: T] and a nullable value [T | null] are
      [option T].
    - A record lives in a module of its own, so that its fields keep the names
      of the source ([Team.name], [Player.name]).  Object spread
      [{ ...o, f: v }] is the setter [set_f v o]; in a chain
      [o |> set_f v |> set_g w] the values [v] and [w] are computed from the
      object before the update, as in an object literal. *)

From Stdlib Require Import ZArith List String Ascii Bool Lia DecimalString.
Import ListNotations.

Open Scope string_scope.
Open Scope Z_scope.

(** Left-to-right application, to write a chain of field updates in the order
    of the object literal it embeds. *)
Notation "x |> f" := (f x) (at level 48, left associativity, only parsing).

(** ** JavaScript primitives used by the sources *)
Module JS.

(** [String(n)] and the interpolation of an integer in a template literal. *)
Definition String_ (n : Z) : string := NilZero.string_of_int (Z.to_int n).

(** [s.padStart(2, "0")]. *)
Definition padStart2 (s : string) : string :=
  match s with
  | EmptyString => "00"
  | String c EmptyString => String "0" (String c EmptyString)
  | _ => s
  end.

(** [c.toUpperCase()] on one character; only the letters a-z change (the
    other characters that Unicode upper-cases are left as they are). *)
Definition upper_ascii (c : ascii) : ascii :=
  let n := nat_of_ascii c in
  if ((97 <=? n)%nat && (n <=? 122)%nat)%bool then ascii_of_nat (n - 32) else c.

(** [s.toUpperCase()]. *)
Fixpoint toUpperCase (s : string) : string :=
  match s with
  | EmptyString => EmptyString
  | String c r => String (upper_ascii c) (toUpperCase r)
  end.

(** Truthiness of a string: [!!s]. *)
Definition truthy (s : string) : bool := negb (String.eqb s "").

(** [a || b] on strings. *)
Definition or_else (a b : string) : string := if truthy a then a else b.

(** [a ?? b]. *)
Definition nullish {X : Type} (a : option X) (b : X) : X :=
  match a with Some x => x | None => b end.

(** [l.slice(0, n)]. *)
Definition slice0 {X : Type} (n : nat) (l : list X) : list X := firstn n l.

(** [l.includes(key)] on an array of strings. *)
Definition includes (key : string) (l : list string) : bool :=
  existsb (String.eqb key) l.

(** [l.map((x, idx) => f(x, idx))], the index starting at [i]. *)
Fixpoint mapi_from {X Y : Type} (f : X -> Z -> Y) (i : Z) (l : list X) : list Y :=
  match l with
  | [] => []
  | x :: r => f x i :: mapi_from f (i + 1) r
  end.

(** [l.map((x, idx) => f(x, idx))] *)
Definition mapi {X Y : Type} (f : X -> Z -> Y) (l : list X) : list Y :=
  mapi_from f 0 l.

End JS.

(** ** The data model ([types.ts]) *)

(** ["A" | "B"] *)
Module TeamId.
Inductive t : Type := A | B.
End TeamId.
Abbreviation TeamId := TeamId.t.
Abbreviation A := TeamId.A.
Abbreviation B := TeamId.B.

(** ["NBA" | "FIBA"] *)
Inductive TimingMode : Type := NBA | FIBA.

(** ["timeout" | "halftime"]; [overlayMode] is [null] or one of these. *)
Inductive OverlayMode : Type := timeout | halftime.

(** ["rebounds" | "fastBreakPoints"] *)
Inductive Metric : Type := rebounds | fastBreakPoints.

(** The [stat] of [INC_PLAYER_STAT]: ["reb" | "ast" | "stl" | "blk" | "fls"]. *)
Module Stat.
Inductive t : Type := reb | ast | stl | blk | fls.
End Stat.

(** [x === y] on team ids. *)
Definition TeamId_eqb (x y : TeamId) : bool :=
  match x, y with A, A | B, B => true | _, _ => false end.

(** The team id as a string, as a template literal interpolates it. *)
Definition TeamId_str (team : TeamId) : string :=
  match team with A => "A" | B => "B" end.

(** [team === "A" ? "B" : "A"] *)
Definition other (team : TeamId) : TeamId :=
  match team with A => B | B => A end.

(** [TeamState] *)
Module Team.
Record t : Type := mk {
  name : string;
  score : Z;
  fouls : Z;
  timeouts : Z;
  fastBreakPoints : Z;
  color : string;
  logoUrl : string
}.

Definition set_name (v : string) (s : t) : t :=
  mk v (score s) (fouls s) (timeouts s) (fastBreakPoints s) (color s)
     (logoUrl s).
Definition set_score (v : Z) (s : t) : t :=
  mk (name s) v (fouls s) (timeouts s) (fastBreakPoints s) (color s)
     (logoUrl s).
Definition set_fouls (v : Z) (s : t) : t :=
  mk (name s) (score s) v (timeouts s) (fastBreakPoints s) (color s)
     (logoUrl s).
Definition set_timeouts (v : Z) (s : t) : t :=
  mk (name s) (score s) (fouls s) v (fastBreakPoints s) (color s)
     (logoUrl s).
Definition set_fastBreakPoints (v : Z) (s : t) : t :=
  mk (name s) (score s) (fouls s) (timeouts s) v (color s) (logoUrl s).
Definition set_color (v : string) (s : t) : t :=
  mk (name s) (score s) (fouls s) (timeouts s) (fastBreakPoints s) v
     (logoUrl s).
Definition set_logoUrl (v : string) (s : t) : t :=
  mk (name s) (score s) (fouls s) (timeouts s) (fastBreakPoints s)
     (color s) v.
End Team.

(** [PlayerState]; [imageUrl] is optional. *)
Module Player.
Record t : Type := mk {
  id : string;
  number : Z;
  name : string;
  imageUrl : option string;
  pts : Z;
  reb : Z;
  ast : Z;
  stl : Z;
  blk : Z;
  tpm : Z;
  fls : Z;
  secondsPlayed : Z;
  onCourt : bool;
  fouledOut : bool
}.

Definition set_number (v : Z) (s : t) : t :=
  mk (id s) v (name s) (imageUrl s) (pts s) (reb s) (ast s) (stl s) (blk s)
     (tpm s) (fls s) (secondsPlayed s) (onCourt s) (fouledOut s).
Definition set_name (v : string) (s : t) : t :=
  mk (id s) (number s) v (imageUrl s) (pts s) (reb s) (ast s) (stl s)
     (blk s) (tpm s) (fls s) (secondsPlayed s) (onCourt s) (fouledOut s).
Definition set_pts (v : Z) (s : t) : t :=
  mk (id s) (number s) (name s) (imageUrl s) v (reb s) (ast s) (stl s)
     (blk s) (tpm s) (fls s) (secondsPlayed s) (onCourt s) (fouledOut s).
Definition set_reb (v : Z) (s : t) : t :=
  mk (id s) (number s) (name s) (imageUrl s) (pts s) v (ast s) (stl s)
     (blk s) (tpm s) (fls s) (secondsPlayed s) (onCourt s) (fouledOut s).
Definition set_ast (v : Z) (s : t) : t :=
  mk (id s) (number s) (name s) (imageUrl s) (pts s) (reb s) v (stl s)
     (blk s) (tpm s) (fls s) (secondsPlayed s) (onCourt s) (fouledOut s).
Definition set_stl (v : Z) (s : t) : t :=
  mk (id s) (number s) (name s) (imageUrl s) (pts s) (reb s) (ast s) v
     (blk s) (tpm s) (fls s) (secondsPlayed s) (onCourt s) (fouledOut s).
Definition set_blk (v : Z) (s : t) : t :=
  mk (id s) (number s) (name s) (imageUrl s) (pts s) (reb s) (ast s)
     (stl s) v (tpm s) (fls s) (secondsPlayed s) (onCourt s) (fouledOut s).
Definition set_tpm (v : Z) (s : t) : t :=
  mk (id s) (number s) (name s) (imageUrl s) (pts s) (reb s) (ast s)
     (stl s) (blk s) v (fls s) (secondsPlayed s) (onCourt s) (fouledOut s).
Definition set_fls (v : Z) (s : t) : t :=
  mk (id s) (number s) (name s) (imageUrl s) (pts s) (reb s) (ast s)
     (stl s) (blk s) (tpm s) v (secondsPlayed s) (onCourt s) (fouledOut s).
Definition set_secondsPlayed (v : Z) (s : t) : t :=
  mk (id s) (number s) (name s) (imageUrl s) (pts s) (reb s) (ast s)
     (stl s) (blk s) (tpm s) (fls s) v (onCourt s) (fouledOut s).
Definition set_onCourt (v : bool) (s : t) : t :=
  mk (id s) (number s) (name s) (imageUrl s) (pts s) (reb s) (ast s)
     (stl s) (blk s) (tpm s) (fls s) (secondsPlayed s) v (fouledOut s).
Definition set_fouledOut (v : bool) (s : t) : t :=
  mk (id s) (number s) (name s) (imageUrl s) (pts s) (reb s) (ast s)
     (stl s) (blk s) (tpm s) (fls s) (secondsPlayed s) (onCourt s) v.
End Player.

(** The object under [tvStarPlayer]; [reason] and [auto] are optional. *)
Module StarPlayer.
Record t : Type := mk {
  team : TeamId;
  playerId : string;
  remainingSeconds : Z;
  reason : option string;
  auto : option bool
}.

Definition set_remainingSeconds (v : Z) (s : t) : t :=
  mk (team s) (playerId s) v (reason s) (auto s).
End StarPlayer.

(** The object under [tvTeamComparison]. *)
Module TeamComparison.
Record t : Type := mk {
  metric : Metric;
  teamAValue : Z;
  teamBValue : Z;
  leadingTeam : option TeamId;
  remainingSeconds : Z
}.

Definition set_remainingSeconds (v : Z) (s : t) : t :=
  mk (metric s) (teamAValue s) (teamBValue s) (leadingTeam s) v.
End TeamComparison.

(** [ScoreboardState] *)
Module State.
Record t : Type := mk {
  teamA : Team.t;
  teamB : Team.t;
  possession : TeamId;
  quarter : Z;
  totalQuarters : Z;
  quarterLengthMinutes : Z;
  foulLimit : Z;
  gameClockSeconds : Z;
  shotClockDefault : Z;
  shotClockSeconds : Z;
  gameClockRunning : bool;
  shotClockRunning : bool;
  timingMode : TimingMode;
  shotViolation : bool;
  gameFinal : bool;
  overlayMode : option OverlayMode;
  overlayLabel : string;
  overlayRemainingSeconds : Z;
  overlayResumeGame : bool;
  tvAutoCooldownSeconds : Z;
  tvAutoSeen : list string;
  tvStarPlayer : option StarPlayer.t;
  tvTeamComparison : option TeamComparison.t
}.

Definition set_teamA (v : Team.t) (s : t) : t :=
  mk v (teamB s) (possession s) (quarter s) (totalQuarters s)
     (quarterLengthMinutes s) (foulLimit s) (gameClockSeconds s)
     (shotClockDefault s) (shotClockSeconds s) (gameClockRunning s)
     (shotClockRunning s) (timingMode s) (shotViolation s) (gameFinal s)
     (overlayMode s) (overlayLabel s) (overlayRemainingSeconds s)
     (overlayResumeGame s) (tvAutoCooldownSeconds s) (tvAutoSeen s)
     (tvStarPlayer s) (tvTeamComparison s).
Definition set_teamB (v : Team.t) (s : t) : t :=
  mk (teamA s) v (possession s) (quarter s) (totalQuarters s)
     (quarterLengthMinutes s) (foulLimit s) (gameClockSeconds s)
     (shotClockDefault s) (shotClockSeconds s) (gameClockRunning s)
     (shotClockRunning s) (timingMode s) (shotViolation s) (gameFinal s)
     (overlayMode s) (overlayLabel s) (overlayRemainingSeconds s)
     (overlayResumeGame s) (tvAutoCooldownSeconds s) (tvAutoSeen s)
     (tvStarPlayer s) (tvTeamComparison s).
Definition set_possession (v : TeamId) (s : t) : t :=
  mk (teamA s) (teamB s) v (quarter s) (totalQuarters s)
     (quarterLengthMinutes s) (foulLimit s) (gameClockSeconds s)
     (shotClockDefault s) (shotClockSeconds s) (gameClockRunning s)
     (shotClockRunning s) (timingMode s) (shotViolation s) (gameFinal s)
     (overlayMode s) (overlayLabel s) (overlayRemainingSeconds s)
     (overlayResumeGame s) (tvAutoCooldownSeconds s) (tvAutoSeen s)
     (tvStarPlayer s) (tvTeamComparison s).
Definition set_quarter (v : Z) (s : t) : t :=
  mk (teamA s) (teamB s) (possession s) v (totalQuarters s)
     (quarterLengthMinutes s) (foulLimit s) (gameClockSeconds s)
     (shotClockDefault s) (shotClockSeconds s) (gameClockRunning s)
     (shotClockRunning s) (timingMode s) (shotViolation s) (gameFinal s)
     (overlayMode s) (overlayLabel s) (overlayRemainingSeconds s)
     (overlayResumeGame s) (tvAutoCooldownSeconds s) (tvAutoSeen s)
     (tvStarPlayer s) (tvTeamComparison s).
Definition set_gameClockSeconds (v : Z) (s : t) : t :=
  mk (teamA s) (teamB s) (possession s) (quarter s) (totalQuarters s)
     (quarterLengthMinutes s) (foulLimit s) v (shotClockDefault s)
     (shotClockSeconds s) (gameClockRunning s) (shotClockRunning s)
     (timingMode s) (shotViolation s) (gameFinal s) (overlayMode s)
     (overlayLabel s) (overlayRemainingSeconds s) (overlayResumeGame s)
     (tvAutoCooldownSeconds s) (tvAutoSeen s) (tvStarPlayer s)
     (tvTeamComparison s).
Definition set_shotClockSeconds (v : Z) (s : t) : t :=
  mk (teamA s) (teamB s) (possession s) (quarter s) (totalQuarters s)
     (quarterLengthMinutes s) (foulLimit s) (gameClockSeconds s)
     (shotClockDefault s) v (gameClockRunning s) (shotClockRunning s)
     (timingMode s) (shotViolation s) (gameFinal s) (overlayMode s)
     (overlayLabel s) (overlayRemainingSeconds s) (overlayResumeGame s)
     (tvAutoCooldownSeconds s) (tvAutoSeen s) (tvStarPlayer s)
     (tvTeamComparison s).
Definition set_gameClockRunning (v : bool) (s : t) : t :=
  mk (teamA s) (teamB s) (possession s) (quarter s) (totalQuarters s)
     (quarterLengthMinutes s) (foulLimit s) (gameClockSeconds s)
     (shotClockDefault s) (shotClockSeconds s) v (shotClockRunning s)
     (timingMode s) (shotViolation s) (gameFinal s) (overlayMode s)
     (overlayLabel s) (overlayRemainingSeconds s) (overlayResumeGame s)
     (tvAutoCooldownSeconds s) (tvAutoSeen s) (tvStarPlayer s)
     (tvTeamComparison s).
Definition set_shotClockRunning (v : bool) (s : t) : t :=
  mk (teamA s) (teamB s) (possession s) (quarter s) (totalQuarters s)
     (quarterLengthMinutes s) (foulLimit s) (gameClockSeconds s)
     (shotClockDefault s) (shotClockSeconds s) (gameClockRunning s) v
     (timingMode s) (shotViolation s) (gameFinal s) (overlayMode s)
     (overlayLabel s) (overlayRemainingSeconds s) (overlayResumeGame s)
     (tvAutoCooldownSeconds s) (tvAutoSeen s) (tvStarPlayer s)
     (tvTeamComparison s).
Definition set_shotViolation (v : bool) (s : t) : t :=
  mk (teamA s) (teamB s) (possession s) (quarter s) (totalQuarters s)
     (quarterLengthMinutes s) (foulLimit s) (gameClockSeconds s)
     (shotClockDefault s) (shotClockSeconds s) (gameClockRunning s)
     (shotClockRunning s) (timingMode s) v (gameFinal s) (overlayMode s)
     (overlayLabel s) (overlayRemainingSeconds s) (overlayResumeGame s)
     (tvAutoCooldownSeconds s) (tvAutoSeen s) (tvStarPlayer s)
     (tvTeamComparison s).
Definition set_gameFinal (v : bool) (s : t) : t :=
  mk (teamA s) (teamB s) (possession s) (quarter s) (totalQuarters s)
     (quarterLengthMinutes s) (foulLimit s) (gameClockSeconds s)
     (shotClockDefault s) (shotClockSeconds s) (gameClockRunning s)
     (shotClockRunning s) (timingMode s) (shotViolation s) v
     (overlayMode s) (overlayLabel s) (overlayRemainingSeconds s)
     (overlayResumeGame s) (tvAutoCooldownSeconds s) (tvAutoSeen s)
     (tvStarPlayer s) (tvTeamComparison s).
Definition set_overlayMode (v : option OverlayMode) (s : t) : t :=
  mk (teamA s) (teamB s) (possession s) (quarter s) (totalQuarters s)
     (quarterLengthMinutes s) (foulLimit s) (gameClockSeconds s)
     (shotClockDefault s) (shotClockSeconds s) (gameClockRunning s)
     (shotClockRunning s) (timingMode s) (shotViolation s) (gameFinal s) v
     (overlayLabel s) (overlayRemainingSeconds s) (overlayResumeGame s)
     (tvAutoCooldownSeconds s) (tvAutoSeen s) (tvStarPlayer s)
     (tvTeamComparison s).
Definition set_overlayLabel (v : string) (s : t) : t :=
  mk (teamA s) (teamB s) (possession s) (quarter s) (totalQuarters s)
     (quarterLengthMinutes s) (foulLimit s) (gameClockSeconds s)
     (shotClockDefault s) (shotClockSeconds s) (gameClockRunning s)
     (shotClockRunning s) (timingMode s) (shotViolation s) (gameFinal s)
     (overlayMode s) v (overlayRemainingSeconds s) (overlayResumeGame s)
     (tvAutoCooldownSeconds s) (tvAutoSeen s) (tvStarPlayer s)
     (tvTeamComparison s).
Definition set_overlayRemainingSeconds (v : Z) (s : t) : t :=
  mk (teamA s) (teamB s) (possession s) (quarter s) (totalQuarters s)
     (quarterLengthMinutes s) (foulLimit s) (gameClockSeconds s)
     (shotClockDefault s) (shotClockSeconds s) (gameClockRunning s)
     (shotClockRunning s) (timingMode s) (shotViolation s) (gameFinal s)
     (overlayMode s) (overlayLabel s) v (overlayResumeGame s)
     (tvAutoCooldownSeconds s) (tvAutoSeen s) (tvStarPlayer s)
     (tvTeamComparison s).
Definition set_overlayResumeGame (v : bool) (s : t) : t :=
  mk (teamA s) (teamB s) (possession s) (quarter s) (totalQuarters s)
     (quarterLengthMinutes s) (foulLimit s) (gameClockSeconds s)
     (shotClockDefault s) (shotClockSeconds s) (gameClockRunning s)
     (shotClockRunning s) (timingMode s) (shotViolation s) (gameFinal s)
     (overlayMode s) (overlayLabel s) (overlayRemainingSeconds s) v
     (tvAutoCooldownSeconds s) (tvAutoSeen s) (tvStarPlayer s)
     (tvTeamComparison s).
Definition set_tvAutoCooldownSeconds (v : Z) (s : t) : t :=
  mk (teamA s) (teamB s) (possession s) (quarter s) (totalQuarters s)
     (quarterLengthMinutes s) (foulLimit s) (gameClockSeconds s)
     (shotClockDefault s) (shotClockSeconds s) (gameClockRunning s)
     (shotClockRunning s) (timingMode s) (shotViolation s) (gameFinal s)
     (overlayMode s) (overlayLabel s) (overlayRemainingSeconds s)
     (overlayResumeGame s) v (tvAutoSeen s) (tvStarPlayer s)
     (tvTeamComparison s).
Definition set_tvAutoSeen (v : list string) (s : t) : t :=
  mk (teamA s) (teamB s) (possession s) (quarter s) (totalQuarters s)
     (quarterLengthMinutes s) (foulLimit s) (gameClockSeconds s)
     (shotClockDefault s) (shotClockSeconds s) (gameClockRunning s)
     (shotClockRunning s) (timingMode s) (shotViolation s) (gameFinal s)
     (overlayMode s) (overlayLabel s) (overlayRemainingSeconds s)
     (overlayResumeGame s) (tvAutoCooldownSeconds s) v (tvStarPlayer s)
     (tvTeamComparison s).
Definition set_tvStarPlayer (v : option StarPlayer.t) (s : t) : t :=
  mk (teamA s) (teamB s) (possession s) (quarter s) (totalQuarters s)
     (quarterLengthMinutes s) (foulLimit s) (gameClockSeconds s)
     (shotClockDefault s) (shotClockSeconds s) (gameClockRunning s)
     (shotClockRunning s) (timingMode s) (shotViolation s) (gameFinal s)
     (overlayMode s) (overlayLabel s) (overlayRemainingSeconds s)
     (overlayResumeGame s) (tvAutoCooldownSeconds s) (tvAutoSeen s) v
     (tvTeamComparison s).
Definition set_tvTeamComparison (v : option TeamComparison.t) (s : t) : t :=
  mk (teamA s) (teamB s) (possession s) (quarter s) (totalQuarters s)
     (quarterLengthMinutes s) (foulLimit s) (gameClockSeconds s)
     (shotClockDefault s) (shotClockSeconds s) (gameClockRunning s)
     (shotClockRunning s) (timingMode s) (shotViolation s) (gameFinal s)
     (overlayMode s) (overlayLabel s) (overlayRemainingSeconds s)
     (overlayResumeGame s) (tvAutoCooldownSeconds s) (tvAutoSeen s)
     (tvStarPlayer s) v.
End State.

(** [players: { A: PlayerState[]; B: PlayerState[] }] *)
Module Players.
Record t : Type := mk {
  A : list Player.t;
  B : list Player.t
}.

(** [players[team]] *)
Definition get (team : TeamId) (ps : t) : list Player.t :=
  match team with TeamId.A => A ps | TeamId.B => B ps end.

(** [{ ...players, [team]: l }] *)
Definition set (team : TeamId) (l : list Player.t) (ps : t) : t :=
  match team with
  | TeamId.A => mk l (B ps)
  | TeamId.B => mk (A ps) l
  end.
End Players.

(** [PersistedPayload]: the snapshot, the unit of persistence and of
    synchronisation. *)
Module Payload.
Record t : Type := mk {
  state : State.t;
  players : Players.t;
  actionLog : list string;
  updatedAt : Z
}.

Definition set_state (v : State.t) (s : t) : t :=
  mk v (players s) (actionLog s) (updatedAt s).
Definition set_players (v : Players.t) (s : t) : t :=
  mk (state s) v (actionLog s) (updatedAt s).
Definition set_actionLog (v : list string) (s : t) : t :=
  mk (state s) (players s) v (updatedAt s).
Definition set_updatedAt (v : Z) (s : t) : t :=
  mk (state s) (players s) (actionLog s) v.
End Payload.

Definition PersistedPayload : Type := Payload.t.

(** ** Actions ([useScoreboardStore.ts]) *)

(** [LoadGameTeamInput]; a roster entry is [{ name; number; imageUrl? }]. *)
Module RosterEntry.
Record t : Type := mk {
  name : string;
  number : Z;
  imageUrl : option string
}.
End RosterEntry.

Module LoadGameTeamInput.
Record t : Type := mk {
  name : string;
  color : option string;
  logoUrl : option string;
  players : list RosterEntry.t
}.
End LoadGameTeamInput.

(** [LoadGameRulesInput]: every rule is optional. *)
Module LoadGameRulesInput.
Record t : Type := mk {
  quarterLengthMinutes : option Z;
  totalQuarters : option Z;
  shotClockDefault : option Z;
  foulLimit : option Z;
  timingMode : option TimingMode
}.
End LoadGameRulesInput.

(** [Partial<Pick<PlayerState, "name" | "number" | "onCourt">>] *)
Module PlayerUpdates.
Record t : Type := mk {
  name : option string;
  number : option Z;
  onCourt : option bool
}.
End PlayerUpdates.

(** [ScoreboardAction], one constructor per member of the tagged union, the
    fields in the order of the source. *)
Inductive ScoreboardAction : Type :=
| ADD_POINTS (team : TeamId) (points : Z) (playerId : option string)
| ADD_FAST_BREAK_POINTS (team : TeamId) (points : Z)
| SET_TEAM_NAME (team : TeamId) (name : string)
| SET_TEAM_COLOR (team : TeamId) (color : string)
| SET_TEAM_LOGO (team : TeamId) (logoUrl : string)
| LOAD_GAME (home away : LoadGameTeamInput.t) (rules : option LoadGameRulesInput.t)
| SET_POSSESSION (team : TeamId)
| START_GAME
| STOP_GAME
| FINISH_GAME
| START_SHOT
| STOP_SHOT
| RESET_QUARTER
| PREV_QUARTER
| NEXT_QUARTER
| RESET_SHOT (seconds : Z)
| INC_FOUL (team : TeamId)
| USE_TIMEOUT (team : TeamId)
| OPEN_TIMEOUT (team : TeamId) (seconds : Z)
| START_HALFTIME (minutes : Z)
| END_OVERLAY (manual : option bool)
| SHOW_TV_STAR_PLAYER (team : TeamId) (playerId : string)
| DISMISS_TV_STAR_PLAYER
| INC_PLAYER_STAT (team : TeamId) (playerId : string) (stat : Stat.t) (amount : option Z)
| SET_PLAYER_ON_COURT (team : TeamId) (playerId : string) (onCourt : bool)
| SUBSTITUTE_PLAYER (team : TeamId) (playerOutId playerInId : string)
| ADD_PLAYER (team : TeamId) (name : string) (number : Z) (onCourt : bool)
| UPDATE_PLAYER (team : TeamId) (playerId : string) (updates : PlayerUpdates.t)
| DELETE_PLAYER (team : TeamId) (playerId : string)
| ADD_LOG (text : string)
| TICK
| HYDRATE (payload : PersistedPayload).

(** ** Defaults ([constants.ts]) *)

Definition STORAGE_KEY_V5 : string := "basketball_scoreboard_state_v5b".
Definition STORAGE_KEY_V3 : string := "basketball_scoreboard_state_v3".

Definition DEFAULT_PLAYERS_A : list (Z * string) :=
  [ (1, "Player A1"); (3, "Player A2"); (5, "Player A3"); (7, "Player A4");
    (9, "Player A5"); (11, "Player A6"); (13, "Player A7") ].

Definition DEFAULT_PLAYERS_B : list (Z * string) :=
  [ (2, "Player B1"); (4, "Player B2"); (6, "Player B3"); (8, "Player B4");
    (10, "Player B5"); (12, "Player B6"); (14, "Player B7") ].

(** [createPlayerState(players, teamKey)]; the id is
    [`${teamKey}-${idx}-${Date.now()}`]. *)
Definition createPlayerState (now : Z) (players : list (Z * string))
    (teamKey : TeamId) : list Player.t :=
  JS.mapi (fun p idx =>
    Player.mk
      (TeamId_str teamKey ++ "-" ++ JS.String_ idx ++ "-" ++ JS.String_ now)
      (fst p) (snd p) None
      0 0 0 0 0 0 0 0
      (idx <? 5) false) players.

Definition defaultState : State.t :=
  State.mk
    (Team.mk "Home" 0 0 3 0 "#FFB347" "")
    (Team.mk "Away" 0 0 3 0 "#7EC4CF" "")
    A 1 4 10 5 (10 * 60) 24 24 false false NBA false false
    None "" 0 false 0 [] None None.

Definition defaultPayload (now : Z) : PersistedPayload :=
  Payload.mk defaultState
    (Players.mk (createPlayerState now DEFAULT_PLAYERS_A A)
                (createPlayerState now DEFAULT_PLAYERS_B B))
    [] now.

(** ** Helpers of the reducer ([useScoreboardStore.ts]) *)

(** [formatClock(totalSeconds)]: [Math.floor(totalSeconds / 60)], then
    [totalSeconds % 60] (the remainder takes the sign of the dividend) padded
    to two characters. *)
Definition formatClock (totalSeconds : Z) : string :=
  let m := totalSeconds / 60 in
  let s := Z.rem totalSeconds 60 in
  JS.String_ m ++ ":" ++ JS.padStart2 (JS.String_ s).

(** [state[teamStateKey(team)]] *)
Definition team_of (team : TeamId) (st : State.t) : Team.t :=
  match team with A => State.teamA st | B => State.teamB st end.

(** [{ ...state, [teamStateKey(team)]: v }] *)
Definition set_team_of (team : TeamId) (v : Team.t) (st : State.t) : State.t :=
  match team with A => State.set_teamA v st | B => State.set_teamB v st end.

(** [payload.players[team]] *)
Definition players_of (team : TeamId) (payload : PersistedPayload) : list Player.t :=
  Players.get team (Payload.players payload).

(** [{ ...payload, players: { ...payload.players, [team]: l } }] *)
Definition set_players_of (team : TeamId) (l : list Player.t)
    (payload : PersistedPayload) : PersistedPayload :=
  Payload.set_players (Players.set team l (Payload.players payload)) payload.

(** [list.find((p) => p.id === playerId)] *)
Definition find_player (playerId : string) (l : list Player.t) : option Player.t :=
  find (fun p => String.eqb (Player.id p) playerId) l.

(** [buildLivePlayers(team, players)]; an empty roster is replaced by five
    placeholder players. *)
Definition buildLivePlayers (now : Z) (team : TeamId)
    (players : list RosterEntry.t) : list Player.t :=
  let safe :=
    match players with
    | [] =>
        [ RosterEntry.mk ("Player " ++ TeamId_str team ++ "1") 1 None;
          RosterEntry.mk ("Player " ++ TeamId_str team ++ "2") 2 None;
          RosterEntry.mk ("Player " ++ TeamId_str team ++ "3") 3 None;
          RosterEntry.mk ("Player " ++ TeamId_str team ++ "4") 4 None;
          RosterEntry.mk ("Player " ++ TeamId_str team ++ "5") 5 None ]
    | _ => players
    end in
  JS.mapi (fun p idx =>
    Player.mk
      (TeamId_str team ++ "-" ++ JS.String_ now ++ "-" ++ JS.String_ idx)
      (RosterEntry.number p) (RosterEntry.name p)
      (Some (JS.nullish (RosterEntry.imageUrl p) ""))
      0 0 0 0 0 0 0 0
      (idx <? 5) false) safe.

(** The entry [withActionLog] makes of a text: [`${ts} ${text}`], the stamp
    [ts] being [`[Q${quarter} - ${formatClock(gameClockSeconds)}]`]. *)
Definition logEntry (payload : PersistedPayload) (text : string) : string :=
  let ts := "[Q" ++ JS.String_ (State.quarter (Payload.state payload)) ++ " - "
            ++ formatClock (State.gameClockSeconds (Payload.state payload)) ++ "]" in
  ts ++ " " ++ text.

(** [withActionLog(payload, text)]: the entry is put first and the log is cut
    to 250 entries. *)
Definition withActionLog (payload : PersistedPayload) (text : string)
    : PersistedPayload :=
  payload |> Payload.set_actionLog
    (JS.slice0 250 (logEntry payload text :: Payload.actionLog payload)).

(** [payload.players[team].reduce((sum, p) => sum + (p.fls || 0), 0)];
    [p.fls || 0] is [p.fls] on a number. *)
Definition sumFls (l : list Player.t) : Z :=
  fold_left (fun sum p => sum + Player.fls p) l 0.

(** [recalcTeamFouls(payload, team)] *)
Definition recalcTeamFouls (payload : PersistedPayload) (team : TeamId)
    : PersistedPayload :=
  let total := sumFls (players_of team payload) in
  payload |> Payload.set_state
    (Payload.state payload
       |> set_team_of team
            (team_of team (Payload.state payload) |> Team.set_fouls total)).

Definition HIGHLIGHT_COOLDOWN_SECONDS : Z := 22.
Definition PLAYER_HIGHLIGHT_SECONDS : Z := 10.
Definition TEAM_HIGHLIGHT_SECONDS : Z := 10.
Definition POINTS_MILESTONES : list Z := [10; 15; 20; 25; 30; 35; 40].
Definition REB_MILESTONES : list Z := [8; 10; 12; 15; 18; 20].
Definition STL_MILESTONES : list Z := [3; 4; 5; 6].
Definition BLK_MILESTONES : list Z := [3; 4; 5; 6].
Definition TPM_MILESTONES : list Z := [3; 4; 5; 6; 7; 8].

(** [highestMilestone(value, milestones)]: the last milestone reached, 0 when
    none is. *)
Definition highestMilestone (value : Z) (milestones : list Z) : Z :=
  fold_left (fun result m => if value >=? m then m else result) milestones 0.

(** [allPlayers(payload)] *)
Definition allPlayers (payload : PersistedPayload) : list Player.t :=
  (Players.A (Payload.players payload) ++ Players.B (Payload.players payload))%list.

(** [canAutoHighlight(payload)] *)
Definition canAutoHighlight (payload : PersistedPayload) : bool :=
  let state := Payload.state payload in
  match State.tvStarPlayer state, State.tvTeamComparison state with
  | None, None => State.tvAutoCooldownSeconds state <=? 0
  | _, _ => false
  end.

(** [markSeen(state, key)]: the key goes first, its earlier occurrence is
    dropped, and the list is cut to 400 keys. *)
Definition markSeen (state : State.t) (key : string) : State.t :=
  state |> State.set_tvAutoSeen
    (JS.slice0 400
       (key :: filter (fun item => negb (String.eqb item key)) (State.tvAutoSeen state))).

(** [team === "A" ? payload.state.teamA.name : payload.state.teamB.name] *)
Definition teamName_of (team : TeamId) (payload : PersistedPayload) : string :=
  Team.name (team_of team (Payload.state payload)).

(** [showAutoPlayerHighlight(payload, team, playerId, reason, key)].

    The source returns its argument [payload] itself when it does not fire and
    a freshly built object when it does, and its caller tells the two apart by
    reference ([next !== payload]).  Here [None] is "the argument, returned as
    it is" and [Some next] is the fresh object. *)
Definition showAutoPlayerHighlight (payload : PersistedPayload) (team : TeamId)
    (playerId reason key : string) : option PersistedPayload :=
  if negb (canAutoHighlight payload) then None
  else if JS.includes key (State.tvAutoSeen (Payload.state payload)) then None
  else
    match find_player playerId (players_of team payload) with
    | None => None
    | Some player =>
        let teamName := teamName_of team payload in
        Some (withActionLog
          (payload |> Payload.set_state
             (markSeen (Payload.state payload) key
                |> State.set_tvAutoCooldownSeconds HIGHLIGHT_COOLDOWN_SECONDS
                |> State.set_tvStarPlayer
                     (Some (StarPlayer.mk team playerId PLAYER_HIGHLIGHT_SECONDS
                              (Some reason) (Some true)))
                |> State.set_tvTeamComparison None))
          ("TV Auto Highlight: " ++ Player.name player ++ " #"
             ++ JS.String_ (Player.number player) ++ " (" ++ teamName ++ ") - "
             ++ reason))
    end.

(** [totalTeamRebounds(payload, team)] *)
Definition totalTeamRebounds (payload : PersistedPayload) (team : TeamId) : Z :=
  fold_left (fun sum p => sum + Player.reb p) (players_of team payload) 0.

(** The leader of a two-sided comparison:
    [a === b ? null : a > b ? "A" : "B"]. *)
Definition leader (a b : Z) : option TeamId :=
  if a =? b then None else if a >? b then Some A else Some B.

(** The object [maybeAutoTeamComparison] builds when one of its two triggers
    fires. *)
Definition teamComparisonShown (payload : PersistedPayload) (key : string)
    (metric : Metric) (valueA valueB : Z) (lead : TeamId) (text : string)
    : PersistedPayload :=
  withActionLog
    (payload |> Payload.set_state
       (markSeen (Payload.state payload) key
          |> State.set_tvAutoCooldownSeconds HIGHLIGHT_COOLDOWN_SECONDS
          |> State.set_tvStarPlayer None
          |> State.set_tvTeamComparison
               (Some (TeamComparison.mk metric valueA valueB (Some lead)
                        TEAM_HIGHLIGHT_SECONDS))))
    text.

(** The fast-break half of [maybeAutoTeamComparison]. *)
Definition fastBreakComparison (payload : PersistedPayload) : PersistedPayload :=
  let fbA := Team.fastBreakPoints (State.teamA (Payload.state payload)) in
  let fbB := Team.fastBreakPoints (State.teamB (Payload.state payload)) in
  let fbDiff := Z.abs (fbA - fbB) in
  match leader fbA fbB with
  | Some fbLeader =>
      if (fbDiff >=? 4) && (fbA + fbB >=? 8) then
        let bucket := (fbDiff / 2) * 2 in
        let key := "team:fastBreakPoints:" ++ TeamId_str fbLeader ++ ":"
                   ++ JS.String_ bucket in
        if negb (JS.includes key (State.tvAutoSeen (Payload.state payload))) then
          teamComparisonShown payload key fastBreakPoints fbA fbB fbLeader
            ("TV Auto Team Comparison: Fast break edge for "
               ++ teamName_of fbLeader payload)
        else payload
      else payload
  | None => payload
  end.

(** [maybeAutoTeamComparison(payload)]: the rebound trigger first, the
    fast-break trigger when the rebound one did not return. *)
Definition maybeAutoTeamComparison (payload : PersistedPayload) : PersistedPayload :=
  if negb (canAutoHighlight payload) then payload
  else
    let rebA := totalTeamRebounds payload A in
    let rebB := totalTeamRebounds payload B in
    let rebDiff := Z.abs (rebA - rebB) in
    match leader rebA rebB with
    | Some rebLeader =>
        if (rebDiff >=? 6) && (rebA + rebB >=? 18) then
          let bucket := (rebDiff / 3) * 3 in
          let key := "team:rebounds:" ++ TeamId_str rebLeader ++ ":"
                     ++ JS.String_ bucket in
          if negb (JS.includes key (State.tvAutoSeen (Payload.state payload))) then
            teamComparisonShown payload key rebounds rebA rebB rebLeader
              ("TV Auto Team Comparison: Rebounds edge for "
                 ++ teamName_of rebLeader payload)
          else fastBreakComparison payload
        else fastBreakComparison payload
    | None => fastBreakComparison payload
    end.

(** The five stats [maybeAutoPlayerHighlight] tracks, in the order of its five
    blocks, with the milestone list, the key tag and the reason text of each. *)
Module Tracked.
Inductive t : Type := pts | reb | stl | blk | tpm.

Definition value (k : t) (p : Player.t) : Z :=
  match k with
  | pts => Player.pts p
  | reb => Player.reb p
  | stl => Player.stl p
  | blk => Player.blk p
  | tpm => Player.tpm p
  end.

Definition milestones (k : t) : list Z :=
  match k with
  | pts => POINTS_MILESTONES
  | reb => REB_MILESTONES
  | stl => STL_MILESTONES
  | blk => BLK_MILESTONES
  | tpm => TPM_MILESTONES
  end.

Definition tag (k : t) : string :=
  match k with
  | pts => "pts" | reb => "reb" | stl => "stl" | blk => "blk" | tpm => "tpm"
  end.

Definition reason (k : t) (p : Player.t) : string :=
  match k with
  | pts => "High Scorer " ++ JS.String_ (Player.pts p) ++ " PTS"
  | reb => "Top Rebounder " ++ JS.String_ (Player.reb p) ++ " REB"
  | stl => "Steals Impact " ++ JS.String_ (Player.stl p) ++ " STL"
  | blk => "Rim Protection " ++ JS.String_ (Player.blk p) ++ " BLK"
  | tpm => "Deep Range " ++ JS.String_ (Player.tpm p) ++ " 3PM"
  end.
End Tracked.

(** [everyone.reduce((max, p) => Math.max(max, p.stat), 0)] *)
Definition maxStat (k : Tracked.t) (everyone : list Player.t) : Z :=
  fold_left (fun max p => Z.max max (Tracked.value k p)) everyone 0.

(** [`player:${team}:${player.id}:${tag}:${milestone}`] *)
Definition milestoneKey (team : TeamId) (player : Player.t) (k : Tracked.t)
    (milestone : Z) : string :=
  "player:" ++ TeamId_str team ++ ":" ++ Player.id player ++ ":" ++ Tracked.tag k
    ++ ":" ++ JS.String_ milestone.

(** One block of [maybeAutoPlayerHighlight]: the highlight of stat [k] when it
    fires ([next !== payload]), and [rest], the blocks that follow, when it
    does not. *)
Definition milestoneBlock (payload : PersistedPayload) (team : TeamId)
    (playerId : string) (player : Player.t) (k : Tracked.t)
    (rest : PersistedPayload) : PersistedPayload :=
  let milestone := highestMilestone (Tracked.value k player) (Tracked.milestones k) in
  if (milestone >? 0)
     && (Tracked.value k player =? maxStat k (allPlayers payload)) then
    match showAutoPlayerHighlight payload team playerId (Tracked.reason k player)
            (milestoneKey team player k milestone) with
    | Some next => next
    | None => rest
    end
  else rest.

(** [maybeAutoPlayerHighlight(payload, team, playerId)] *)
Definition maybeAutoPlayerHighlight (payload : PersistedPayload) (team : TeamId)
    (playerId : string) : PersistedPayload :=
  match find_player playerId (players_of team payload) with
  | None => payload
  | Some player =>
      milestoneBlock payload team playerId player Tracked.pts
     (milestoneBlock payload team playerId player Tracked.reb
     (milestoneBlock payload team playerId player Tracked.stl
     (milestoneBlock payload team playerId player Tracked.blk
     (milestoneBlock payload team playerId player Tracked.tpm
      payload))))
  end.

(** [setPossession(payload, team)] *)
Definition setPossession (payload : PersistedPayload) (team : TeamId)
    : PersistedPayload :=
  let state := Payload.state payload in
  let shouldRunShot := State.gameClockRunning state && negb (State.shotViolation state) in
  payload |> Payload.set_state
    (state
       |> State.set_possession team
       |> State.set_shotClockSeconds (State.shotClockDefault state)
       |> State.set_shotViolation false
       |> State.set_shotClockRunning shouldRunShot).

(** [resetQuarter(payload)] *)
Definition resetQuarter (payload : PersistedPayload) : PersistedPayload :=
  let state := Payload.state payload in
  payload |> Payload.set_state
    (state
       |> State.set_gameClockSeconds (State.quarterLengthMinutes state * 60)
       |> State.set_shotClockSeconds (State.shotClockDefault state)
       |> State.set_gameClockRunning false
       |> State.set_shotClockRunning false
       |> State.set_shotViolation false
       |> State.set_gameFinal false
       |> State.set_overlayMode None
       |> State.set_overlayLabel ""
       |> State.set_overlayRemainingSeconds 0
       |> State.set_overlayResumeGame false
       |> State.set_tvAutoCooldownSeconds 0
       |> State.set_tvAutoSeen (State.tvAutoSeen state)
       |> State.set_tvStarPlayer None
       |> State.set_tvTeamComparison None).

(** [beginOverlay(payload, mode, label, seconds)] *)
Definition beginOverlay (payload : PersistedPayload) (mode : OverlayMode)
    (label : string) (seconds : Z) : PersistedPayload :=
  let state := Payload.state payload in
  payload |> Payload.set_state
    (state
       |> State.set_gameClockRunning false
       |> State.set_shotClockRunning false
       |> State.set_overlayMode (Some mode)
       |> State.set_overlayLabel (JS.toUpperCase label)
       |> State.set_overlayRemainingSeconds (Z.max 0 seconds)
       |> State.set_overlayResumeGame (State.gameClockRunning state)).

(** [endOverlay(payload)] *)
Definition endOverlay (payload : PersistedPayload) : PersistedPayload :=
  match State.overlayMode (Payload.state payload) with
  | None => payload
  | Some mode =>
      let nextPayload :=
        payload |> Payload.set_state
          (Payload.state payload
             |> State.set_overlayMode None
             |> State.set_overlayLabel ""
             |> State.set_overlayRemainingSeconds 0
             |> State.set_overlayResumeGame false) in
      match mode with
      | halftime =>
          let nextPayload :=
            if (State.quarter (Payload.state nextPayload) =? 2)
               && (State.totalQuarters (Payload.state nextPayload) >=? 3)
            then
              nextPayload |> Payload.set_state
                (Payload.state nextPayload
                   |> State.set_quarter 3
                   |> State.set_gameClockSeconds
                        (State.quarterLengthMinutes (Payload.state nextPayload) * 60)
                   |> State.set_shotClockSeconds
                        (State.shotClockDefault (Payload.state nextPayload))
                   |> State.set_possession A
                   |> State.set_shotViolation false)
            else nextPayload in
          withActionLog nextPayload "Halftime ended."
      | timeout =>
          let resume := State.overlayResumeGame (Payload.state payload) in
          let nextPayload :=
            nextPayload |> Payload.set_state
              (Payload.state nextPayload
                 |> State.set_gameClockRunning resume
                 |> State.set_shotClockRunning resume) in
          withActionLog nextPayload "Timeout ended."
      end
  end.

(** ** The reducer ([useScoreboardStore.ts]) *)

(** [if (action.playerId)]: the id when it is present and not the empty
    string. *)
Definition givenId (playerId : option string) : option string :=
  match playerId with
  | Some id => if JS.truthy id then Some id else None
  | None => None
  end.

(** [p[stat]] *)
Definition get_stat (stat : Stat.t) (p : Player.t) : Z :=
  match stat with
  | Stat.reb => Player.reb p
  | Stat.ast => Player.ast p
  | Stat.stl => Player.stl p
  | Stat.blk => Player.blk p
  | Stat.fls => Player.fls p
  end.

(** [{ ...p, [stat]: v }] *)
Definition set_stat (stat : Stat.t) (v : Z) (p : Player.t) : Player.t :=
  match stat with
  | Stat.reb => Player.set_reb v p
  | Stat.ast => Player.set_ast v p
  | Stat.stl => Player.set_stl v p
  | Stat.blk => Player.set_blk v p
  | Stat.fls => Player.set_fls v p
  end.

(** [stat.toUpperCase()] *)
Definition Stat_upper (stat : Stat.t) : string :=
  match stat with
  | Stat.reb => "REB" | Stat.ast => "AST" | Stat.stl => "STL"
  | Stat.blk => "BLK" | Stat.fls => "FLS"
  end.

(** [stat === "fls"] *)
Definition is_fls (stat : Stat.t) : bool :=
  match stat with Stat.fls => true | _ => false end.

(** The callback "ADD_POINTS" maps over the team: the player with the given id
    gets the points, and one more three-pointer made when the points are 3. *)
Definition creditPoints (id : string) (points : Z) (p : Player.t) : Player.t :=
  if String.eqb (Player.id p) id
  then p |> Player.set_pts (Player.pts p + points)
         |> Player.set_tpm (Player.tpm p + (if points =? 3 then 1 else 0))
  else p.

(** The text "ADD_POINTS" logs for a made basket: it names the player when one
    is given and found, the team otherwise. *)
Definition scoringText (nextPayload : PersistedPayload) (team : TeamId)
    (points : Z) (playerId : option string) : string :=
  let teamName := Team.name (team_of team (Payload.state nextPayload)) in
  let player :=
    match givenId playerId with
    | Some id => find_player id (players_of team nextPayload)
    | None => None
    end in
  match player with
  | Some player =>
      Player.name player ++ " #" ++ JS.String_ (Player.number player)
        ++ " hits " ++ JS.String_ points ++ " for " ++ teamName
        ++ " (" ++ JS.String_ (Player.pts player) ++ " pts)"
  | None =>
      teamName ++ " scores " ++ JS.String_ points ++ " point"
        ++ (if points =? 1 then "" else "s") ++ "."
  end.

(** case "ADD_POINTS" *)
Definition reduce_ADD_POINTS (payload : PersistedPayload) (team : TeamId)
    (points : Z) (playerId : option string) : PersistedPayload :=
  if State.gameFinal (Payload.state payload) then payload
  else if points =? 0 then payload
  else
    let nextScore := Z.max 0 (Team.score (team_of team (Payload.state payload)) + points) in
    let nextPayload :=
      payload |> Payload.set_state
        (Payload.state payload
           |> set_team_of team
                (team_of team (Payload.state payload) |> Team.set_score nextScore)) in
    let nextPayload :=
      match givenId playerId with
      | Some id =>
          nextPayload |> set_players_of team
            (map (creditPoints id points) (players_of team nextPayload))
      | None => nextPayload
      end in
    let nextPayload :=
      if points >? 0 then
        let nextPayload :=
          withActionLog nextPayload (scoringText nextPayload team points playerId) in
        let nextPayload := setPossession nextPayload (other team) in
        match State.timingMode (Payload.state nextPayload) with
        | NBA =>
            if State.gameClockRunning (Payload.state nextPayload) then
              nextPayload |> Payload.set_state
                (Payload.state nextPayload
                   |> State.set_gameClockRunning false
                   |> State.set_shotClockRunning false)
            else nextPayload
        | FIBA => nextPayload
        end
      else nextPayload in
    let nextPayload :=
      match givenId playerId with
      | Some id => maybeAutoPlayerHighlight nextPayload team id
      | None => nextPayload
      end in
    maybeAutoTeamComparison nextPayload.

(** case "ADD_FAST_BREAK_POINTS" *)
Definition reduce_ADD_FAST_BREAK_POINTS (payload : PersistedPayload)
    (team : TeamId) (points : Z) : PersistedPayload :=
  if State.gameFinal (Payload.state payload) then payload
  else if points =? 0 then payload
  else
    let old := team_of team (Payload.state payload) in
    let teamName := Team.name old in
    let nextPayload :=
      payload |> Payload.set_state
        (Payload.state payload
           |> set_team_of team
                (old |> Team.set_score (Team.score old + points)
                     |> Team.set_fastBreakPoints (Team.fastBreakPoints old + points))) in
    let nextPayload :=
      withActionLog nextPayload (teamName ++ " fast break +" ++ JS.String_ points) in
    let nextPayload := setPossession nextPayload (other team) in
    maybeAutoTeamComparison nextPayload.

(** case "LOAD_GAME" *)
Definition reduce_LOAD_GAME (now : Z) (payload : PersistedPayload)
    (home away : LoadGameTeamInput.t) (rules : option LoadGameRulesInput.t)
    : PersistedPayload :=
  let state := Payload.state payload in
  let rule {X : Type} (f : LoadGameRulesInput.t -> option X) (dflt : X) : X :=
    match rules with Some r => JS.nullish (f r) dflt | None => dflt end in
  let nextQuarterLength :=
    rule LoadGameRulesInput.quarterLengthMinutes (State.quarterLengthMinutes state) in
  let nextTotalQuarters :=
    rule LoadGameRulesInput.totalQuarters (State.totalQuarters state) in
  let nextShotClockDefault :=
    rule LoadGameRulesInput.shotClockDefault (State.shotClockDefault state) in
  let nextFoulLimit := rule LoadGameRulesInput.foulLimit (State.foulLimit state) in
  let nextTimingMode := rule LoadGameRulesInput.timingMode (State.timingMode state) in
  let quarterSeconds := nextQuarterLength * 60 in
  Payload.mk
    (State.mk
       (Team.mk (LoadGameTeamInput.name home) 0 0 3 0
          (JS.nullish (LoadGameTeamInput.color home) (Team.color (State.teamA state)))
          (JS.nullish (LoadGameTeamInput.logoUrl home) ""))
       (Team.mk (LoadGameTeamInput.name away) 0 0 3 0
          (JS.nullish (LoadGameTeamInput.color away) (Team.color (State.teamB state)))
          (JS.nullish (LoadGameTeamInput.logoUrl away) ""))
       A 1 nextTotalQuarters nextQuarterLength nextFoulLimit quarterSeconds
       nextShotClockDefault nextShotClockDefault false false nextTimingMode
       false false None "" 0 false 0 [] None None)
    (Players.mk (buildLivePlayers now A (LoadGameTeamInput.players home))
                (buildLivePlayers now B (LoadGameTeamInput.players away)))
    [ "[Q1 - " ++ formatClock quarterSeconds ++ "] New game loaded: "
        ++ LoadGameTeamInput.name home ++ " vs " ++ LoadGameTeamInput.name away ]
    (Payload.updatedAt payload).

(** case "OPEN_TIMEOUT" *)
Definition reduce_OPEN_TIMEOUT (payload : PersistedPayload) (team : TeamId)
    (seconds : Z) : PersistedPayload :=
  let teamName := Team.name (team_of team (Payload.state payload)) in
  let label := teamName ++ " Timeout" in
  let nextPayload := beginOverlay payload timeout label seconds in
  let nextPayload :=
    nextPayload |> Payload.set_state
      (Payload.state nextPayload
         |> set_team_of team
              (team_of team (Payload.state nextPayload)
                 |> Team.set_timeouts
                      (Z.max 0 (Team.timeouts (team_of team (Payload.state nextPayload)) - 1)))) in
  withActionLog nextPayload
    (teamName ++ " takes a " ++ (if seconds =? 30 then "30-second" else "full")
       ++ " timeout").

(** case "START_HALFTIME"; [Math.floor] is the identity on an integer. *)
Definition reduce_START_HALFTIME (payload : PersistedPayload) (minutes : Z)
    : PersistedPayload :=
  let minutes := Z.max 1 minutes in
  let nextPayload :=
    withActionLog payload ("Halftime begins (" ++ JS.String_ minutes ++ " minutes)") in
  beginOverlay nextPayload halftime "Halftime" (minutes * 60).

(** case "SHOW_TV_STAR_PLAYER" *)
Definition reduce_SHOW_TV_STAR_PLAYER (payload : PersistedPayload)
    (team : TeamId) (playerId : string) : PersistedPayload :=
  match find_player playerId (players_of team payload) with
  | None => payload
  | Some player =>
      let teamName := teamName_of team payload in
      withActionLog
        (payload |> Payload.set_state
           (Payload.state payload
              |> State.set_tvStarPlayer
                   (Some (StarPlayer.mk team playerId 10 (Some "Star Player") (Some false)))
              |> State.set_tvTeamComparison None))
        ("TV Star Player: " ++ Player.name player ++ " #"
           ++ JS.String_ (Player.number player) ++ " (" ++ teamName ++ ")")
  end.

(** The callback that "INC_PLAYER_STAT" maps over the team: a player with
    another id, or fouled out, is returned as it is; otherwise the stat is
    raised (never below zero), and a foul that reaches the limit fouls the
    player out and takes them off the court. *)
Definition incPlayerStat (foulLimit : Z) (playerId : string) (stat : Stat.t)
    (amount : Z) (p : Player.t) : Player.t :=
  if negb (String.eqb (Player.id p) playerId) || Player.fouledOut p then p
  else
    let next := p |> set_stat stat (Z.max 0 (get_stat stat p + amount)) in
    if is_fls stat && (Player.fls next >=? foulLimit) then
      next |> Player.set_fouledOut true |> Player.set_onCourt false
    else next.

(** The variable [fouledOutPlayerName] after the same map: it starts as [""]
    and is assigned [`${next.name} #${next.number}`] at each player the
    callback fouls out, so it ends with the last of them. *)
Definition fouledOutName (foulLimit : Z) (playerId : string) (stat : Stat.t)
    (amount : Z) (l : list Player.t) : string :=
  fold_left (fun fouledOutPlayerName p =>
    if negb (String.eqb (Player.id p) playerId) || Player.fouledOut p
    then fouledOutPlayerName
    else
      let next := p |> set_stat stat (Z.max 0 (get_stat stat p + amount)) in
      if is_fls stat && (Player.fls next >=? foulLimit) then
        Player.name next ++ " #" ++ JS.String_ (Player.number next)
      else fouledOutPlayerName) l "".

(** case "INC_PLAYER_STAT" *)
Definition reduce_INC_PLAYER_STAT (payload : PersistedPayload) (team : TeamId)
    (playerId : string) (stat : Stat.t) (amount : option Z) : PersistedPayload :=
  let amount := JS.nullish amount 1 in
  let foulLimit := State.foulLimit (Payload.state payload) in
  let fouledOutPlayerName :=
    fouledOutName foulLimit playerId stat amount (players_of team payload) in
  let nextPayload :=
    payload |> set_players_of team
      (map (incPlayerStat foulLimit playerId stat amount) (players_of team payload)) in
  let nextPayload :=
    if is_fls stat then recalcTeamFouls nextPayload team else nextPayload in
  let nextPayload :=
    match find_player playerId (players_of team nextPayload) with
    | Some player =>
        if negb (is_fls stat) then
          withActionLog nextPayload
            (Player.name player ++ " #" ++ JS.String_ (Player.number player)
               ++ " +" ++ Stat_upper stat)
        else nextPayload
    | None => nextPayload
    end in
  let nextPayload :=
    if JS.truthy fouledOutPlayerName then
      withActionLog nextPayload (fouledOutPlayerName ++ " fouled out.")
    else nextPayload in
  let nextPayload := maybeAutoPlayerHighlight nextPayload team playerId in
  maybeAutoTeamComparison nextPayload.

(** [list.filter((p) => p.onCourt).length] *)
Definition onCourtCount (l : list Player.t) : Z :=
  Z.of_nat (List.length (filter Player.onCourt l)).

(** case "SET_PLAYER_ON_COURT" *)
Definition reduce_SET_PLAYER_ON_COURT (payload : PersistedPayload)
    (team : TeamId) (playerId : string) (onCourt : bool) : PersistedPayload :=
  let list := players_of team payload in
  match find_player playerId list with
  | None => payload
  | Some target =>
      if Player.fouledOut target then payload
      else if onCourt && negb (Player.onCourt target) && (onCourtCount list >=? 5)
      then payload
      else
        payload |> set_players_of team
          (map (fun p =>
                  if String.eqb (Player.id p) playerId
                  then p |> Player.set_onCourt onCourt else p) list)
  end.

(** case "SUBSTITUTE_PLAYER" *)
Definition reduce_SUBSTITUTE_PLAYER (payload : PersistedPayload)
    (team : TeamId) (playerOutId playerInId : string) : PersistedPayload :=
  let list := players_of team payload in
  match find_player playerOutId list, find_player playerInId list with
  | Some playerOut, Some playerIn =>
      if negb (Player.onCourt playerOut) || Player.onCourt playerIn
         || Player.fouledOut playerIn
      then payload
      else
        let nextPayload :=
          payload |> set_players_of team
            (map (fun p =>
                    if String.eqb (Player.id p) playerOutId
                    then p |> Player.set_onCourt false
                    else if String.eqb (Player.id p) playerInId
                    then p |> Player.set_onCourt true
                    else p) list) in
        withActionLog nextPayload
          (Player.name playerOut ++ " #" ++ JS.String_ (Player.number playerOut)
             ++ " subbed out for " ++ Player.name playerIn ++ " #"
             ++ JS.String_ (Player.number playerIn) ++ ".")
  | _, _ => payload
  end.

(** case "ADD_PLAYER"; the id is [`${action.team}-${Date.now()}`], and
    [Number.isFinite(action.number)] holds of every integer. *)
Definition reduce_ADD_PLAYER (now : Z) (payload : PersistedPayload)
    (team : TeamId) (name : string) (number : Z) (onCourt : bool)
    : PersistedPayload :=
  let addOnCourt := onCourt && (onCourtCount (players_of team payload) <? 5) in
  payload |> set_players_of team
    (players_of team payload
       ++ [ Player.mk (TeamId_str team ++ "-" ++ JS.String_ now) number name None
              0 0 0 0 0 0 0 0 addOnCourt false ])%list.

(** case "UPDATE_PLAYER"; the spread of [action.updates] is overwritten by the
    three explicit fields that follow it. *)
Definition reduce_UPDATE_PLAYER (payload : PersistedPayload) (team : TeamId)
    (playerId : string) (updates : PlayerUpdates.t) : PersistedPayload :=
  let list := players_of team payload in
  match find_player playerId list with
  | None => payload
  | Some target =>
      let wantsOnCourt :=
        match PlayerUpdates.onCourt updates with
        | Some true => negb (Player.onCourt target)
        | _ => false
        end in
      if wantsOnCourt && (onCourtCount list >=? 5) then payload
      else
        let nextPayload :=
          payload |> set_players_of team
            (map (fun p =>
                    if String.eqb (Player.id p) playerId
                    then p |> Player.set_name
                                (JS.nullish (PlayerUpdates.name updates) (Player.name p))
                           |> Player.set_number
                                (JS.nullish (PlayerUpdates.number updates) (Player.number p))
                           |> Player.set_onCourt
                                (JS.nullish (PlayerUpdates.onCourt updates) (Player.onCourt p))
                    else p) list) in
        recalcTeamFouls nextPayload team
  end.

(** case "DELETE_PLAYER" *)
Definition reduce_DELETE_PLAYER (payload : PersistedPayload) (team : TeamId)
    (playerId : string) : PersistedPayload :=
  let nextPayload :=
    payload |> set_players_of team
      (filter (fun p => negb (String.eqb (Player.id p) playerId))
              (players_of team payload)) in
  recalcTeamFouls nextPayload team.

(** The countdown of a highlight in "TICK": it disappears when at most one
    second is left. *)
Definition tickStarPlayer (h : option StarPlayer.t) : option StarPlayer.t :=
  match h with
  | Some h =>
      if StarPlayer.remainingSeconds h <=? 1 then None
      else Some (h |> StarPlayer.set_remainingSeconds (StarPlayer.remainingSeconds h - 1))
  | None => None
  end.

(** The same countdown for the team comparison. *)
Definition tickTeamComparison (h : option TeamComparison.t)
    : option TeamComparison.t :=
  match h with
  | Some h =>
      if TeamComparison.remainingSeconds h <=? 1 then None
      else Some (h |> TeamComparison.set_remainingSeconds
                        (TeamComparison.remainingSeconds h - 1))
  | None => None
  end.

(** [l.map((p) => (p.onCourt ? { ...p, secondsPlayed: p.secondsPlayed + 1 } : p))] *)
Definition tickSecondsPlayed (l : list Player.t) : list Player.t :=
  map (fun p =>
         if Player.onCourt p
         then p |> Player.set_secondsPlayed (Player.secondsPlayed p + 1)
         else p) l.

(** case "TICK" *)
Definition reduce_TICK (payload : PersistedPayload) : PersistedPayload :=
  let state := Payload.state payload in
  let nextAutoCooldownSeconds := Z.max 0 (State.tvAutoCooldownSeconds state - 1) in
  let nextTvStarPlayer := tickStarPlayer (State.tvStarPlayer state) in
  let nextTvTeamComparison := tickTeamComparison (State.tvTeamComparison state) in
  match State.overlayMode state with
  | Some _ =>
      let nextRemaining := Z.max 0 (State.overlayRemainingSeconds state - 1) in
      let nextPayload :=
        payload |> Payload.set_state
          (state
             |> State.set_overlayRemainingSeconds nextRemaining
             |> State.set_tvAutoCooldownSeconds nextAutoCooldownSeconds
             |> State.set_tvStarPlayer nextTvStarPlayer
             |> State.set_tvTeamComparison nextTvTeamComparison) in
      if nextRemaining <=? 0 then endOverlay nextPayload else nextPayload
  | None =>
      let gameNext :=
        if State.gameClockRunning state
        then Z.max 0 (State.gameClockSeconds state - 1)
        else State.gameClockSeconds state in
      let shotNext :=
        if State.shotClockRunning state
        then Z.max 0 (State.shotClockSeconds state - 1)
        else State.shotClockSeconds state in
      let reachedQuarterEnd := State.gameClockRunning state && (gameNext =? 0) in
      let nextState :=
        state
          |> State.set_gameClockSeconds gameNext
          |> State.set_shotClockSeconds shotNext
          |> State.set_gameClockRunning
               (if gameNext >? 0 then State.gameClockRunning state else false)
          |> State.set_shotClockRunning
               (if (gameNext >? 0) && (shotNext >? 0)
                then State.shotClockRunning state else false)
          |> State.set_shotViolation
               (if shotNext =? 0 then true else State.shotViolation state)
          |> State.set_tvAutoCooldownSeconds nextAutoCooldownSeconds
          |> State.set_tvStarPlayer nextTvStarPlayer
          |> State.set_tvTeamComparison nextTvTeamComparison in
      let '(nextState, nextActionLog) :=
        if reachedQuarterEnd && (State.quarter state <? State.totalQuarters state) then
          let advancedQuarter := State.quarter state + 1 in
          let nextState :=
            nextState
              |> State.set_quarter advancedQuarter
              |> State.set_gameClockSeconds (State.quarterLengthMinutes state * 60)
              |> State.set_shotClockSeconds (State.shotClockDefault state)
              |> State.set_gameClockRunning false
              |> State.set_shotClockRunning false
              |> State.set_shotViolation false in
          (nextState,
           Payload.actionLog
             (withActionLog (payload |> Payload.set_state nextState)
                ("Quarter ended. Advanced to Q" ++ JS.String_ advancedQuarter ++ ".")))
        else if reachedQuarterEnd && (State.quarter state >=? State.totalQuarters state) then
          let nextState := nextState |> State.set_gameFinal true in
          (nextState,
           Payload.actionLog
             (withActionLog (payload |> Payload.set_state nextState) "Final buzzer."))
        else (nextState, Payload.actionLog payload) in
      let nextPlayers :=
        if State.gameClockRunning state then
          Players.mk (tickSecondsPlayed (Players.A (Payload.players payload)))
                     (tickSecondsPlayed (Players.B (Payload.players payload)))
        else Payload.players payload in
      payload
        |> Payload.set_state nextState
        |> Payload.set_players nextPlayers
        |> Payload.set_actionLog nextActionLog
  end.

(** [reducer(payload, action)].  [now] is the reading of [Date.now()] that
    "LOAD_GAME" and "ADD_PLAYER" put in the ids they make.  "USE_TIMEOUT"
    calls the reducer again with [OPEN_TIMEOUT] for 60 seconds. *)
Definition reducer (now : Z) (payload : PersistedPayload)
    (action : ScoreboardAction) : PersistedPayload :=
  match action with
  | ADD_POINTS team points playerId => reduce_ADD_POINTS payload team points playerId
  | ADD_FAST_BREAK_POINTS team points => reduce_ADD_FAST_BREAK_POINTS payload team points
  | SET_TEAM_NAME team name =>
      payload |> Payload.set_state
        (Payload.state payload
           |> set_team_of team
                (team_of team (Payload.state payload)
                   |> Team.set_name
                        (JS.or_else name (match team with A => "Home" | B => "Away" end))))
  | SET_TEAM_COLOR team color =>
      payload |> Payload.set_state
        (Payload.state payload
           |> set_team_of team
                (team_of team (Payload.state payload) |> Team.set_color color))
  | SET_TEAM_LOGO team logoUrl =>
      payload |> Payload.set_state
        (Payload.state payload
           |> set_team_of team
                (team_of team (Payload.state payload) |> Team.set_logoUrl logoUrl))
  | LOAD_GAME home away rules => reduce_LOAD_GAME now payload home away rules
  | SET_POSSESSION team => setPossession payload team
  | START_GAME =>
      match State.overlayMode (Payload.state payload) with
      | Some _ => payload
      | None =>
          payload |> Payload.set_state
            (Payload.state payload
               |> State.set_gameClockRunning true
               |> State.set_shotClockRunning true
               |> State.set_gameFinal false)
      end
  | STOP_GAME =>
      payload |> Payload.set_state
        (Payload.state payload
           |> State.set_gameClockRunning false
           |> State.set_shotClockRunning false)
  | FINISH_GAME =>
      payload |> Payload.set_state
        (Payload.state payload
           |> State.set_gameClockRunning false
           |> State.set_shotClockRunning false
           |> State.set_gameFinal true
           |> State.set_overlayMode None
           |> State.set_overlayLabel ""
           |> State.set_overlayRemainingSeconds 0
           |> State.set_overlayResumeGame false
           |> State.set_tvStarPlayer None
           |> State.set_tvTeamComparison None)
  | START_SHOT =>
      match State.overlayMode (Payload.state payload) with
      | Some _ => payload
      | None =>
          payload |> Payload.set_state
            (Payload.state payload |> State.set_shotClockRunning true)
      end
  | STOP_SHOT =>
      payload |> Payload.set_state
        (Payload.state payload |> State.set_shotClockRunning false)
  | RESET_QUARTER => resetQuarter payload
  | PREV_QUARTER =>
      let prevQuarter := Z.max 1 (State.quarter (Payload.state payload) - 1) in
      resetQuarter
        (payload |> Payload.set_state
           (Payload.state payload |> State.set_quarter prevQuarter))
  | NEXT_QUARTER =>
      let nextQuarter :=
        Z.min (State.totalQuarters (Payload.state payload))
              (State.quarter (Payload.state payload) + 1) in
      resetQuarter
        (payload |> Payload.set_state
           (Payload.state payload |> State.set_quarter nextQuarter))
  | RESET_SHOT seconds =>
      payload |> Payload.set_state
        (Payload.state payload
           |> State.set_shotClockSeconds seconds
           |> State.set_shotClockRunning false
           |> State.set_shotViolation false)
  | INC_FOUL team =>
      payload |> Payload.set_state
        (Payload.state payload
           |> set_team_of team
                (team_of team (Payload.state payload)
                   |> Team.set_fouls (Team.fouls (team_of team (Payload.state payload)) + 1)))
  | USE_TIMEOUT team => reduce_OPEN_TIMEOUT payload team 60
  | OPEN_TIMEOUT team seconds => reduce_OPEN_TIMEOUT payload team seconds
  | START_HALFTIME minutes => reduce_START_HALFTIME payload minutes
  | END_OVERLAY _ => endOverlay payload
  | SHOW_TV_STAR_PLAYER team playerId => reduce_SHOW_TV_STAR_PLAYER payload team playerId
  | DISMISS_TV_STAR_PLAYER =>
      payload |> Payload.set_state
        (Payload.state payload
           |> State.set_tvStarPlayer None
           |> State.set_tvTeamComparison None)
  | INC_PLAYER_STAT team playerId stat amount =>
      reduce_INC_PLAYER_STAT payload team playerId stat amount
  | SET_PLAYER_ON_COURT team playerId onCourt =>
      reduce_SET_PLAYER_ON_COURT payload team playerId onCourt
  | SUBSTITUTE_PLAYER team playerOutId playerInId =>
      reduce_SUBSTITUTE_PLAYER payload team playerOutId playerInId
  | ADD_PLAYER team name number onCourt =>
      reduce_ADD_PLAYER now payload team name number onCourt
  | UPDATE_PLAYER team playerId updates =>
      reduce_UPDATE_PLAYER payload team playerId updates
  | DELETE_PLAYER team playerId => reduce_DELETE_PLAYER payload team playerId
  | ADD_LOG text => withActionLog payload text
  | TICK => reduce_TICK payload
  | HYDRATE payload' => payload'
  end.

(** The snapshot after a sequence of actions, all dispatched at time [now]. *)
Definition run (now : Z) (payload : PersistedPayload)
    (actions : list ScoreboardAction) : PersistedPayload :=
  fold_left (reducer now) actions payload.

(** ** The persisted-payload codec ([storage.ts])

    [JSON.stringify] and [JSON.parse] are built into the platform; the stored
    text is represented by what [JSON.parse] makes of it.  An object read back
    from the store is seen the way the source sees it, as a
    [Partial<PersistedPayload>]: every field is either present ([Some]) or
    absent ([None]), also in the nested state, team and player objects that
    [parsePayload] merges with the defaults. *)
Module Wire.

(** A stored team object. *)
Module Team.
Record t : Type := mk {
  name : option string;
  score : option Z;
  fouls : option Z;
  timeouts : option Z;
  fastBreakPoints : option Z;
  color : option string;
  logoUrl : option string
}.
End Team.

(** A stored player object. *)
Module Player.
Record t : Type := mk {
  id : option string;
  number : option Z;
  name : option string;
  imageUrl : option string;
  pts : option Z;
  reb : option Z;
  ast : option Z;
  stl : option Z;
  blk : option Z;
  tpm : option Z;
  fls : option Z;
  secondsPlayed : option Z;
  onCourt : option bool;
  fouledOut : option bool
}.
End Player.

(** A stored state object. *)
Module State.
Record t : Type := mk {
  teamA : option Team.t;
  teamB : option Team.t;
  possession : option TeamId;
  quarter : option Z;
  totalQuarters : option Z;
  quarterLengthMinutes : option Z;
  foulLimit : option Z;
  gameClockSeconds : option Z;
  shotClockDefault : option Z;
  shotClockSeconds : option Z;
  gameClockRunning : option bool;
  shotClockRunning : option bool;
  timingMode : option TimingMode;
  shotViolation : option bool;
  gameFinal : option bool;
  overlayMode : option (option OverlayMode);
  overlayLabel : option string;
  overlayRemainingSeconds : option Z;
  overlayResumeGame : option bool;
  tvAutoCooldownSeconds : option Z;
  tvAutoSeen : option (list string);
  tvStarPlayer : option (option StarPlayer.t);
  tvTeamComparison : option (option TeamComparison.t)
}.
End State.

(** The stored rosters; an element of a roster may be [null]. *)
Module Players.
Record t : Type := mk {
  A : option (list (option Player.t));
  B : option (list (option Player.t))
}.
End Players.

(** The stored root object. *)
Module Payload.
Record t : Type := mk {
  state : option State.t;
  players : option Players.t;
  actionLog : option (list string);
  updatedAt : option Z
}.
End Payload.

End Wire.

(** [{ ...base, ...parsed }] on a team record. *)
Definition mergeTeam (base : Team.t) (parsed : Wire.Team.t) : Team.t :=
  Team.mk
    (JS.nullish (Wire.Team.name parsed) (Team.name base))
    (JS.nullish (Wire.Team.score parsed) (Team.score base))
    (JS.nullish (Wire.Team.fouls parsed) (Team.fouls base))
    (JS.nullish (Wire.Team.timeouts parsed) (Team.timeouts base))
    (JS.nullish (Wire.Team.fastBreakPoints parsed) (Team.fastBreakPoints base))
    (JS.nullish (Wire.Team.color parsed) (Team.color base))
    (JS.nullish (Wire.Team.logoUrl parsed) (Team.logoUrl base)).

(** [{ ...base, ...p, tpm: Number.isFinite(p.tpm) ? p.tpm : 0 }] *)
Definition mergePlayer (base : Player.t) (p : Wire.Player.t) : Player.t :=
  Player.mk
    (JS.nullish (Wire.Player.id p) (Player.id base))
    (JS.nullish (Wire.Player.number p) (Player.number base))
    (JS.nullish (Wire.Player.name p) (Player.name base))
    (match Wire.Player.imageUrl p with Some u => Some u | None => Player.imageUrl base end)
    (JS.nullish (Wire.Player.pts p) (Player.pts base))
    (JS.nullish (Wire.Player.reb p) (Player.reb base))
    (JS.nullish (Wire.Player.ast p) (Player.ast base))
    (JS.nullish (Wire.Player.stl p) (Player.stl base))
    (JS.nullish (Wire.Player.blk p) (Player.blk base))
    (JS.nullish (Wire.Player.tpm p) 0)
    (JS.nullish (Wire.Player.fls p) (Player.fls base))
    (JS.nullish (Wire.Player.secondsPlayed p) (Player.secondsPlayed base))
    (JS.nullish (Wire.Player.onCourt p) (Player.onCourt base))
    (JS.nullish (Wire.Player.fouledOut p) (Player.fouledOut base)).

(** [{ ...base, ...parsed, teamA, teamB }] on the state record, the two team
    records given apart. *)
Definition mergeState (base : State.t) (parsed : Wire.State.t)
    (teamA teamB : Team.t) : State.t :=
  State.mk teamA teamB
    (JS.nullish (Wire.State.possession parsed) (State.possession base))
    (JS.nullish (Wire.State.quarter parsed) (State.quarter base))
    (JS.nullish (Wire.State.totalQuarters parsed) (State.totalQuarters base))
    (JS.nullish (Wire.State.quarterLengthMinutes parsed) (State.quarterLengthMinutes base))
    (JS.nullish (Wire.State.foulLimit parsed) (State.foulLimit base))
    (JS.nullish (Wire.State.gameClockSeconds parsed) (State.gameClockSeconds base))
    (JS.nullish (Wire.State.shotClockDefault parsed) (State.shotClockDefault base))
    (JS.nullish (Wire.State.shotClockSeconds parsed) (State.shotClockSeconds base))
    (JS.nullish (Wire.State.gameClockRunning parsed) (State.gameClockRunning base))
    (JS.nullish (Wire.State.shotClockRunning parsed) (State.shotClockRunning base))
    (JS.nullish (Wire.State.timingMode parsed) (State.timingMode base))
    (JS.nullish (Wire.State.shotViolation parsed) (State.shotViolation base))
    (JS.nullish (Wire.State.gameFinal parsed) (State.gameFinal base))
    (JS.nullish (Wire.State.overlayMode parsed) (State.overlayMode base))
    (JS.nullish (Wire.State.overlayLabel parsed) (State.overlayLabel base))
    (JS.nullish (Wire.State.overlayRemainingSeconds parsed) (State.overlayRemainingSeconds base))
    (JS.nullish (Wire.State.overlayResumeGame parsed) (State.overlayResumeGame base))
    (JS.nullish (Wire.State.tvAutoCooldownSeconds parsed) (State.tvAutoCooldownSeconds base))
    (JS.nullish (Wire.State.tvAutoSeen parsed) (State.tvAutoSeen base))
    (JS.nullish (Wire.State.tvStarPlayer parsed) (State.tvStarPlayer base))
    (JS.nullish (Wire.State.tvTeamComparison parsed) (State.tvTeamComparison base)).

(** What [JSON.parse] reads back from the text [JSON.stringify] writes for a
    record: every field present, except a field that was [undefined], which
    [JSON.stringify] leaves out. *)
Definition Team_toJSON (x : Team.t) : Wire.Team.t :=
  Wire.Team.mk
    (Some (Team.name x))
    (Some (Team.score x))
    (Some (Team.fouls x))
    (Some (Team.timeouts x))
    (Some (Team.fastBreakPoints x))
    (Some (Team.color x))
    (Some (Team.logoUrl x)).

(** A player; [imageUrl] is left out when it is [undefined]. *)
Definition Player_toJSON (x : Player.t) : Wire.Player.t :=
  Wire.Player.mk
    (Some (Player.id x))
    (Some (Player.number x))
    (Some (Player.name x))
    (Player.imageUrl x)
    (Some (Player.pts x))
    (Some (Player.reb x))
    (Some (Player.ast x))
    (Some (Player.stl x))
    (Some (Player.blk x))
    (Some (Player.tpm x))
    (Some (Player.fls x))
    (Some (Player.secondsPlayed x))
    (Some (Player.onCourt x))
    (Some (Player.fouledOut x)).

(** The state; a [null] overlay or highlight is written as [null], so the
    field is present. *)
Definition State_toJSON (x : State.t) : Wire.State.t :=
  Wire.State.mk
    (Some (Team_toJSON (State.teamA x)))
    (Some (Team_toJSON (State.teamB x)))
    (Some (State.possession x))
    (Some (State.quarter x))
    (Some (State.totalQuarters x))
    (Some (State.quarterLengthMinutes x))
    (Some (State.foulLimit x))
    (Some (State.gameClockSeconds x))
    (Some (State.shotClockDefault x))
    (Some (State.shotClockSeconds x))
    (Some (State.gameClockRunning x))
    (Some (State.shotClockRunning x))
    (Some (State.timingMode x))
    (Some (State.shotViolation x))
    (Some (State.gameFinal x))
    (Some (State.overlayMode x))
    (Some (State.overlayLabel x))
    (Some (State.overlayRemainingSeconds x))
    (Some (State.overlayResumeGame x))
    (Some (State.tvAutoCooldownSeconds x))
    (Some (State.tvAutoSeen x))
    (Some (State.tvStarPlayer x))
    (Some (State.tvTeamComparison x)).

(** The whole snapshot. *)
Definition Payload_toJSON (x : PersistedPayload) : Wire.Payload.t :=
  Wire.Payload.mk
    (Some (State_toJSON (Payload.state x)))
    (Some (Wire.Players.mk
       (Some (map (fun p => Some (Player_toJSON p)) (Players.A (Payload.players x))))
       (Some (map (fun p => Some (Player_toJSON p)) (Players.B (Payload.players x))))))
    (Some (Payload.actionLog x))
    (Some (Payload.updatedAt x)).

(** A value of type [string | null] that holds stored JSON text. *)
Inductive Raw : Type :=
| RawNull                              (* [null]: nothing under the key *)
| RawEmpty                             (* the empty string *)
| RawInvalid                           (* a text on which [JSON.parse] throws *)
| RawFalsy                             (* a text for [null], [false], [0] or [""] *)
| RawValue (parsed : Wire.Payload.t).  (* a text for any other value *)

(** [JSON.stringify(payload)], as a stored text. *)
Definition JSON_stringify (payload : PersistedPayload) : Raw :=
  RawValue (Payload_toJSON payload).

(** The object [{...undefined}] stands for when a fallback roster is empty;
    the rosters [parsePayload] passes are the default ones, of seven players. *)
Definition blankPlayer : Player.t :=
  Player.mk "" 0 "" None 0 0 0 0 0 0 0 0 false false.

(** [normalizePlayers(list, fallback)].  [None] is an exception: reading
    [p.tpm] of an element [p] that is [null] throws. *)
Fixpoint normalizePlayers_from (idx : nat) (players : list (option Wire.Player.t))
    (fallback : list Player.t) : option (list Player.t) :=
  match players with
  | [] => Some []
  | p :: rest =>
      let base := JS.nullish (nth_error fallback idx) (hd blankPlayer fallback) in
      match p, normalizePlayers_from (S idx) rest fallback with
      | Some p, Some rest' => Some (mergePlayer base p :: rest')
      | _, _ => None
      end
  end.

(** [list] is [None] when it is not an array: the fallback roster is returned. *)
Definition normalizePlayers (players : option (list (option Wire.Player.t)))
    (fallback : list Player.t) : option (list Player.t) :=
  match players with
  | None => Some fallback               (* [!Array.isArray(list)] *)
  | Some l => normalizePlayers_from 0 l fallback
  end.

(** [isState(value)] *)
Definition isState (value : option Wire.State.t) : bool :=
  match value with
  | None => false
  | Some obj =>
      match Wire.State.teamA obj, Wire.State.teamB obj,
            Wire.State.gameClockSeconds obj, Wire.State.shotClockSeconds obj with
      | Some _, Some _, Some _, Some _ => true
      | _, _, _, _ => false
      end
  end.

(** [parsePayload(raw)]; [None] is the [null] it returns, also from its
    [catch]. *)
Definition parsePayload (now : Z) (raw : Raw) : option PersistedPayload :=
  match raw with
  | RawNull | RawEmpty => None
  | RawInvalid => None
  | RawFalsy => None
  | RawValue parsed =>
      if negb (isState (Wire.Payload.state parsed)) then None
      else
        match Wire.Payload.state parsed with
        | None => None
        | Some pstate =>
            let base := defaultPayload now in
            let listA :=
              match Wire.Payload.players parsed with
              | Some ps => Wire.Players.A ps | None => None end in
            let listB :=
              match Wire.Payload.players parsed with
              | Some ps => Wire.Players.B ps | None => None end in
            let blankTeam := Wire.Team.mk None None None None None None None in
            let state :=
              mergeState (Payload.state base) pstate
                (mergeTeam (State.teamA (Payload.state base))
                   (JS.nullish (Wire.State.teamA pstate) blankTeam))
                (mergeTeam (State.teamB (Payload.state base))
                   (JS.nullish (Wire.State.teamB pstate) blankTeam)) in
            match normalizePlayers listA (Players.A (Payload.players base)),
                  normalizePlayers listB (Players.B (Payload.players base)) with
            | Some playersA, Some playersB =>
                Some (Payload.mk state (Players.mk playersA playersB)
                        (JS.nullish (Wire.Payload.actionLog parsed) [])
                        (JS.nullish (Wire.Payload.updatedAt parsed) now))
            | _, _ => None
            end
        end
  end.

(** [localStorage]: [getItem] is the application of the store to a key. *)
Definition Storage : Type := string -> Raw.

(** [localStorage.setItem(key, value)] *)
Definition setItem (key : string) (value : Raw) (store : Storage) : Storage :=
  fun k => if String.eqb k key then value else store k.

(** [loadLatestPayload()] *)
Definition loadLatestPayload (now : Z) (localStorage : Storage) : PersistedPayload :=
  let fromV5 := parsePayload now (localStorage STORAGE_KEY_V5) in
  let fromV3 := parsePayload now (localStorage STORAGE_KEY_V3) in
  match fromV5, fromV3 with
  | None, None => defaultPayload now
  | None, Some fromV3 => fromV3
  | Some fromV5, None => fromV5
  | Some fromV5, Some fromV3 =>
      if Payload.updatedAt fromV5 >=? Payload.updatedAt fromV3 then fromV5 else fromV3
  end.

(** [savePayload(payload)]: the snapshot is stamped with the time of the save
    and written under both keys. *)
Definition savePayload (now : Z) (payload : PersistedPayload)
    (localStorage : Storage) : Storage :=
  let normalized := payload |> Payload.set_updatedAt now in
  let serialized := JSON_stringify normalized in
  localStorage |> setItem STORAGE_KEY_V5 serialized |> setItem STORAGE_KEY_V3 serialized.

(** ** The storage-event handler of [useScoreboardStore] *)

(** The two fields of a [StorageEvent] the handler reads. *)
Module StorageEvent.
Record t : Type := mk {
  key : option string;
  newValue : Raw
}.
End StorageEvent.

(** [onStorage(event)], registered with the local [payload.updatedAt]: the
    action it dispatches, if any. *)
Definition onStorage (now : Z) (payload : PersistedPayload)
    (event : StorageEvent.t) : option ScoreboardAction :=
  match StorageEvent.key event with
  | None => None
  | Some key =>
      if negb (JS.truthy key) then None
      else
        match StorageEvent.newValue event with
        | RawNull | RawEmpty => None
        | newValue =>
            if negb (String.eqb key "basketball_scoreboard_state_v3")
               && negb (String.eqb key "basketball_scoreboard_state_v5b")
            then None
            else
              match parsePayload now newValue with
              | None => None
              | Some externalPayload =>
                  if Payload.updatedAt externalPayload <=? Payload.updatedAt payload
                  then None
                  else Some (HYDRATE externalPayload)
              end
        end
  end.

(** The local snapshot after the handler ran on [event]. *)
Definition afterStorageEvent (now : Z) (payload : PersistedPayload)
    (event : StorageEvent.t) : PersistedPayload :=
  match onStorage now payload event with
  | Some action => reducer now payload action
  | None => payload
  end.


(** ** Notions the properties are stated with *)

(** The two ways an overlay ends: the operator dismisses it, or a TICK finds at
    most one second left on its countdown. *)
Definition overlayEnds (payload : PersistedPayload) (action : ScoreboardAction) : Prop :=
  (exists manual, action = END_OVERLAY manual)
  \/ (action = TICK /\ State.overlayRemainingSeconds (Payload.state payload) <= 1).

(** The state with its four highlight fields blanked: two states with the
    same image differ in their highlight fields at most. *)
Definition withoutHighlights (st : State.t) : State.t :=
  st |> State.set_tvAutoCooldownSeconds 0
     |> State.set_tvAutoSeen []
     |> State.set_tvStarPlayer None
     |> State.set_tvTeamComparison None.

(** [q] is [p] but for the highlight fields and the action log. *)
Definition sameGame (p q : PersistedPayload) : Prop :=
  withoutHighlights (Payload.state q) = withoutHighlights (Payload.state p)
  /\ Payload.players q = Payload.players p
  /\ Payload.updatedAt q = Payload.updatedAt p.

(** The log of [q] is the log of [p], or that log with one entry put first
    by [withActionLog]. *)
Definition oneMoreEntry (p q : PersistedPayload) : Prop :=
  Payload.actionLog q = Payload.actionLog p
  \/ exists entry,
       Payload.actionLog q = JS.slice0 250 (entry :: Payload.actionLog p).

(** The log of [q] is the log of [p], or that log with one entry of a
    highlight detector put first: the texts the two detectors log begin with
    ["TV Auto "]. *)
Definition highlightLogged (p q : PersistedPayload) : Prop :=
  Payload.actionLog q = Payload.actionLog p
  \/ exists text,
       Payload.actionLog q
       = JS.slice0 250 (logEntry p ("TV Auto " ++ text) :: Payload.actionLog p).

(** The team's foul counter agrees with its players' fouls. *)
Definition foulsConsistent (team : TeamId) (payload : PersistedPayload) : Prop :=
  Team.fouls (team_of team (Payload.state payload)) = sumFls (players_of team payload).

(** One for [true], zero for [false]: what a player adds to the count of the
    players on the court. *)
Definition b2z (b : bool) : Z := if b then 1 else 0.

(** At most five players of each team are on the court. *)
Definition onCourtBounded (payload : PersistedPayload) : Prop :=
  forall team, onCourtCount (players_of team payload) <= 5.

(** Within each team no two players have the same id. *)
Definition distinctIds (payload : PersistedPayload) : Prop :=
  forall team, NoDup (map Player.id (players_of team payload)).
(** ** Snapshots and traces of the scenarios *)

(** Scenario C: the default snapshot with the game clock running and one
    second left. *)
Definition scenarioC : PersistedPayload :=
  defaultPayload 0 |> Payload.set_state
    (defaultState |> State.set_gameClockRunning true |> State.set_gameClockSeconds 1).

(** The game clock is started and the shot clock alone is stopped. *)
Definition beforeTimeout : PersistedPayload :=
  run 0 (defaultPayload 0) [START_GAME; STOP_SHOT].

(** Then team A takes a full timeout. *)
Definition duringTimeout : PersistedPayload :=
  reducer 0 beforeTimeout (OPEN_TIMEOUT A 60).

(** A store with nothing in it. *)
Definition emptyStorage : Storage := fun _ => RawNull.

(** Scenario D: the snapshot an instance holds, with its [updatedAt]. *)
Definition heldAt (updatedAt : Z) : PersistedPayload :=
  defaultPayload 0 |> Payload.set_updatedAt updatedAt.

(** Scenario D: the notification the other instances receive when an instance
    saves [payload] at time [savedAt]. *)
Definition writeEvent (savedAt : Z) (payload : PersistedPayload) : StorageEvent.t :=
  StorageEvent.mk (Some STORAGE_KEY_V5)
    (savePayload savedAt payload emptyStorage STORAGE_KEY_V5).

(** The referee command "foulA" on the default snapshot. *)
Definition afterTeamFoul : PersistedPayload :=
  reducer 0 (defaultPayload 0) (INC_FOUL A).

(** Then a rebound for the first player of team A. *)
Definition reboundAfterTeamFoul : PersistedPayload :=
  reducer 0 afterTeamFoul (INC_PLAYER_STAT A "A-0-0" Stat.reb None).

(** The first player of team A commits five fouls, the default foul limit. *)
Definition fiveFouls : PersistedPayload :=
  run 0 (defaultPayload 0) (repeat (INC_PLAYER_STAT A "A-0-0" Stat.fls None) 5).

(** That player, as the snapshot holds them. *)
Definition fouledOutPlayer : Player.t :=
  nth 0 (players_of A fiveFouls) blankPlayer.

(** The first player of team A scores ten points and is highlighted; while
    the highlight shows, the second player scores ten points too; then 22
    seconds pass and the highlight and the cooldown are over. *)
Definition tiedAtTen : PersistedPayload :=
  run 0 (defaultPayload 0)
    (repeat (ADD_POINTS A 2 (Some "A-0-0")) 5
     ++ repeat (ADD_POINTS A 2 (Some "A-1-0")) 5
     ++ repeat TICK 22)%list.

(** The operator shows the second player of team A as star player; meanwhile
    the first player scores ten points; ten seconds later the manual highlight
    is over. *)
Definition soleLeaderAtTen : PersistedPayload :=
  run 0 (defaultPayload 0)
    (SHOW_TV_STAR_PLAYER A "A-1-0"
     :: repeat (ADD_POINTS A 2 (Some "A-0-0")) 5 ++ repeat TICK 10)%list.

(** A snapshot of the default game with all seven players of team A on the
    court, as another instance may have stored it. *)
Definition crowded : PersistedPayload :=
  defaultPayload 0
    |> set_players_of A (map (Player.set_onCourt true) (players_of A (defaultPayload 0))).

(** Two players added to team A at the same reading of the clock get the same
    id: a starter is deleted, a first player is added on the court and a
    second one, refused on the court, sits on the bench. *)
Definition twinIds : PersistedPayload :=
  run 0 (defaultPayload 0)
    [DELETE_PLAYER A "A-0-0"; ADD_PLAYER A "First" 20 true; ADD_PLAYER A "Second" 21 true].

(** * More of the application *)

From Stdlib Require Import DecimalZ Permutation Sorted.

(** ** Remote commands and the tick owner ([useScoreboardStore.ts]) *)

(** [applyCommand(command, dispatch)]: the action it dispatches.  The command
    is a string read from the store and cast to [Command]; a string that is
    none of the fourteen commands falls through the [switch] and dispatches
    nothing. *)
Definition applyCommand (command : string) : option ScoreboardAction :=
  if String.eqb command "startGame" then Some START_GAME
  else if String.eqb command "stopGame" then Some STOP_GAME
  else if String.eqb command "resetQuarter" then Some RESET_QUARTER
  else if String.eqb command "nextQuarter" then Some NEXT_QUARTER
  else if String.eqb command "startShot" then Some START_SHOT
  else if String.eqb command "stopShot" then Some STOP_SHOT
  else if String.eqb command "reset24" then Some (RESET_SHOT 24)
  else if String.eqb command "reset14" then Some (RESET_SHOT 14)
  else if String.eqb command "possessionA" then Some (SET_POSSESSION A)
  else if String.eqb command "possessionB" then Some (SET_POSSESSION B)
  else if String.eqb command "foulA" then Some (INC_FOUL A)
  else if String.eqb command "foulB" then Some (INC_FOUL B)
  else if String.eqb command "timeoutA" then Some (OPEN_TIMEOUT A 60)
  else if String.eqb command "timeoutB" then Some (OPEN_TIMEOUT B 60)
  else None.

Definition TICK_OWNER_STALE_MS : Z := 2200.

(** [TickOwnerRecord] *)
Module TickOwnerRecord.
Record t : Type := mk {
  id : string;
  ts : Z
}.
End TickOwnerRecord.

(** The item under [TICK_OWNER_KEY], seen through [JSON.parse]. *)
Inductive OwnerItem : Type :=
| OwnerAbsent                          (* [null], or the empty string *)
| OwnerUnreadable                      (* [JSON.parse] throws, or the value is
                                          falsy, or [id] is no string, or [ts]
                                          no number *)
| OwnerStored (r : TickOwnerRecord.t).

(** The two items of [localStorage] the instances coordinate through: the
    tick-owner record and the pending remote command ([getItem(COMMAND_KEY)],
    [None] when there is none). *)
Module Shared.
Record t : Type := mk {
  tickOwner : OwnerItem;
  command : option string
}.
End Shared.

(** [readTickOwner()] *)
Definition readTickOwner (store : Shared.t) : option TickOwnerRecord.t :=
  match Shared.tickOwner store with
  | OwnerAbsent => None
  | OwnerUnreadable => None
  | OwnerStored parsed => Some parsed
  end.

(** [writeTickOwner(record)] *)
Definition writeTickOwner (record : TickOwnerRecord.t) (store : Shared.t) : Shared.t :=
  Shared.mk (OwnerStored record) (Shared.command store).

(** The callback of the one-second interval of the instance [tabId], run at
    time [now]: the store after it, and the action it dispatches, if any. *)
Definition heartbeat (tabId : string) (now : Z) (store : Shared.t)
    : Shared.t * option ScoreboardAction :=
  let owner := readTickOwner store in
  let isStale :=
    match owner with
    | None => true
    | Some owner => now - TickOwnerRecord.ts owner >? TICK_OWNER_STALE_MS
    end in
  let isOwner :=
    match owner with
    | Some owner => String.eqb (TickOwnerRecord.id owner) tabId
    | None => false
    end in
  if isStale || isOwner then
    (writeTickOwner (TickOwnerRecord.mk tabId now) store, Some TICK)
  else (store, None).

(** The clean-up of that effect, run when the instance shuts down: the record
    is removed when the instance owns it. *)
Definition releaseTickOwner (tabId : string) (store : Shared.t) : Shared.t :=
  match readTickOwner store with
  | Some owner =>
      if String.eqb (TickOwnerRecord.id owner) tabId
      then Shared.mk OwnerAbsent (Shared.command store)
      else store
  | None => store
  end.

(** The callback of the 150-millisecond interval of the instance [tabId], run
    at time [now]: the owner of a fresh record takes the pending command out
    of the store and applies it. *)
Definition pollCommand (tabId : string) (now : Z) (store : Shared.t)
    : Shared.t * option ScoreboardAction :=
  match readTickOwner store with
  | None => (store, None)
  | Some owner =>
      if now - TickOwnerRecord.ts owner >? TICK_OWNER_STALE_MS then (store, None)
      else if negb (String.eqb (TickOwnerRecord.id owner) tabId) then (store, None)
      else
        match Shared.command store with
        | None => (store, None)
        | Some command =>
            if negb (JS.truthy command) then (store, None)
            else (Shared.mk (Shared.tickOwner store) None, applyCommand command)
        end
  end.

(** A schedule of heartbeats, each an instance and the time it runs at, in
    the order they run: the store after them and the instances that
    dispatched TICK, in that order. *)
Fixpoint runHeartbeats (schedule : list (string * Z)) (store : Shared.t)
    : Shared.t * list string :=
  match schedule with
  | [] => (store, [])
  | (tabId, now) :: rest =>
      let '(store', dispatched) := heartbeat tabId now store in
      let '(final, ticked) := runHeartbeats rest store' in
      (final, match dispatched with Some _ => tabId :: ticked | None => ticked end)
  end.

(** A schedule in which the instance [leader], whose record was written at
    time [last], stays ahead: every heartbeat of another instance runs at most
    2200 milliseconds after the leader's latest heartbeat. *)
Inductive ledBy (leader : string) : Z -> list (string * Z) -> Prop :=
| ledBy_nil : forall last, ledBy leader last []
| ledBy_leader : forall last now rest,
    ledBy leader now rest -> ledBy leader last ((leader, now) :: rest)
| ledBy_other : forall last tabId now rest,
    tabId <> leader ->
    now - last <= TICK_OWNER_STALE_MS ->
    ledBy leader last rest ->
    ledBy leader last ((tabId, now) :: rest).

(** ** Helpers of the console ([App.tsx]) *)

(** [orderedPlayers(players)]: the players on the court, then the others. *)
Definition orderedPlayers (players : list Player.t) : list Player.t :=
  (filter (fun p => Player.onCourt p) players
   ++ filter (fun p => negb (Player.onCourt p)) players)%list.

(** ["prev" | "next"] *)
Module Direction.
Inductive t : Type := prev | next.
End Direction.

(** [changeQuarterWithConfirm(direction)]: the action it dispatches, if any.
    [confirmed] is the answer [window.confirm] gives when it is asked, which
    it is only when the target quarter differs from the current one. *)
Definition changeQuarterWithConfirm (direction : Direction.t) (confirmed : bool)
    (state : State.t) : option ScoreboardAction :=
  let isPrev :=
    match direction with Direction.prev => true | Direction.next => false end in
  let current := State.quarter state in
  let target :=
    if isPrev then Z.max 1 (current - 1)
    else Z.min (State.totalQuarters state) (current + 1) in
  if target =? current then None
  else if negb confirmed then None
  else Some (if isPrev then PREV_QUARTER else NEXT_QUARTER).

(** ** Colours ([colorUtils.ts]) *)

(** A character of the class [[0-9a-fA-F]]. *)
Definition isHexDigit (c : ascii) : bool :=
  let n := nat_of_ascii c in
  ((48 <=? n)%nat && (n <=? 57)%nat)
  || ((65 <=? n)%nat && (n <=? 70)%nat)
  || ((97 <=? n)%nat && (n <=? 102)%nat).

(** The string is exactly [n] hexadecimal digits. *)
Fixpoint hexDigits (n : nat) (s : string) : bool :=
  match n, s with
  | O, EmptyString => true
  | S n', String c r => isHexDigit c && hexDigits n' r
  | _, _ => false
  end.

(** [/^#([0-9a-fA-F]{n})$/.test(value)] *)
Definition hashHex (n : nat) (value : string) : bool :=
  match value with
  | String c r => Ascii.eqb c "#" && hexDigits n r
  | EmptyString => false
  end.

(** [normalizeHexColor(input, fallback)].  [trim] is [String.prototype.trim],
    which is the platform's; the strings the two patterns accept are ASCII, on
    which [toUpperCase] changes the letters a-f only. *)
Definition normalizeHexColor (trim : string -> string) (input fallback : string)
    : string :=
  let value := trim input in
  if hashHex 6 value then JS.toUpperCase value
  else if hashHex 3 value then
    match value with
    | String _ (String r (String g (String b EmptyString))) =>
        JS.toUpperCase
          (String "#" (String r (String r (String g (String g
             (String b (String b EmptyString)))))))
    | _ => fallback
    end
  else fallback.

(** The default of the parameter [fallback]. *)
Definition DEFAULT_FALLBACK_COLOR : string := "#6b7280".

(** ** Notions the further properties are stated with *)

(** The action is neither HYDRATE, which installs another snapshot, nor
    LOAD_GAME, which starts a new game. *)
Definition continuesGame (action : ScoreboardAction) : Prop :=
  match action with
  | HYDRATE _ | LOAD_GAME _ _ _ => False
  | _ => True
  end.

(** The action is not HYDRATE. *)
Definition notHydrate (action : ScoreboardAction) : Prop :=
  match action with
  | HYDRATE _ => False
  | _ => True
  end.


(** The seen keys are at most 400 and no key is there twice. *)
Definition seenKeysTidy (st : State.t) : Prop :=
  (List.length (State.tvAutoSeen st) <= 400)%nat /\ NoDup (State.tvAutoSeen st).

(** At most one of the two highlights shows. *)
Definition oneHighlight (st : State.t) : Prop :=
  State.tvStarPlayer st = None \/ State.tvTeamComparison st = None.

(** While an overlay is active both clocks are stopped. *)
Definition overlayStopsClocks (st : State.t) : Prop :=
  State.overlayMode st <> None ->
  State.gameClockRunning st = false /\ State.shotClockRunning st = false.

(** The quarter is one of the quarters of the game. *)
Definition quarterInRange (st : State.t) : Prop :=
  1 <= State.quarter st <= State.totalQuarters st.

(** The counters that only ever count down to zero, and the length of a
    quarter, are not negative. *)
Definition countersNonneg (st : State.t) : Prop :=
  0 <= Team.timeouts (State.teamA st)
  /\ 0 <= Team.timeouts (State.teamB st)
  /\ 0 <= State.quarterLengthMinutes st
  /\ 0 <= State.gameClockSeconds st
  /\ 0 <= State.overlayRemainingSeconds st
  /\ 0 <= State.tvAutoCooldownSeconds st.

(** A store whose tick-owner record is [leader]'s, written at time [last], and
    that holds the pending command [command]. *)
Definition ownedBy (leader : string) (last : Z) (command : option string) : Shared.t :=
  Shared.mk (OwnerStored (TickOwnerRecord.mk leader last)) command.

(** Two instances beat in turn; the second one always within 2200 ms of the
    first one's latest heartbeat. *)
Definition quietSchedule : list (string * Z) :=
  [("tab-1", 1000); ("tab-2", 1500); ("tab-1", 2000); ("tab-2", 4100)].

(** A colour in the canonical form: [#] and six hexadecimal digits, the
    letters in upper case. *)
Definition canonicalColor (s : string) : Prop :=
  hashHex 6 s = true /\ JS.toUpperCase s = s.

(** A [trim] that removes spaces at both ends (the space is one of the
    characters [String.prototype.trim] removes). *)
Fixpoint trimLeft (s : string) : string :=
  match s with
  | String c r => if Ascii.eqb c " " then trimLeft r else s
  | EmptyString => EmptyString
  end.

Fixpoint trimRight (s : string) : string :=
  match s with
  | String c r =>
      match trimRight r with
      | EmptyString => if Ascii.eqb c " " then EmptyString else String c EmptyString
      | r' => String c r'
      end
  | EmptyString => EmptyString
  end.

Definition trimSpaces (s : string) : string := trimRight (trimLeft s).

(** The rules of the game, as the snapshot holds them. *)
Definition rules (st : State.t) : Z * Z * Z * Z * TimingMode :=
  (State.totalQuarters st, State.quarterLengthMinutes st, State.foulLimit st,
   State.shotClockDefault st, State.timingMode st).

(** The state both detectors build when they fire: the key is marked as seen,
    the cooldown starts, and the two highlight fields are set. *)
Definition highlightShown (st : State.t) (key : string)
    (star : option StarPlayer.t) (comparison : option TeamComparison.t) : State.t :=
  markSeen st key
    |> State.set_tvAutoCooldownSeconds HIGHLIGHT_COOLDOWN_SECONDS
    |> State.set_tvStarPlayer star
    |> State.set_tvTeamComparison comparison.


(** The action neither replaces a roster nor adds or removes a player. *)
Definition keepsRoster (action : ScoreboardAction) : Prop :=
  match action with
  | HYDRATE _ | LOAD_GAME _ _ _ | ADD_PLAYER _ _ _ _ | DELETE_PLAYER _ _ => False
  | _ => True
  end.

(** [p'] is the player [p] later in the game: the same id and picture, no
    fewer seconds played, and, when [p] is fouled out, still fouled out with
    the same rebounds, assists, steals, blocks and fouls. *)
Definition laterPlayer (p p' : Player.t) : Prop :=
  Player.id p' = Player.id p
  /\ Player.imageUrl p' = Player.imageUrl p
  /\ Player.secondsPlayed p <= Player.secondsPlayed p'
  /\ (Player.fouledOut p = true ->
      Player.fouledOut p' = true /\ forall stat, get_stat stat p' = get_stat stat p).

(** The action is neither HYDRATE nor ADD_PLAYER, the one action that makes
    an id from the clock. *)
Definition keepsIds (action : ScoreboardAction) : Prop :=
  match action with
  | HYDRATE _ | ADD_PLAYER _ _ _ _ => False
  | _ => True
  end.

(** The player after [n] more seconds: on the court the seconds played grow
    by [n], on the bench nothing changes. *)
Definition playedFor (n : Z) (p : Player.t) : Player.t :=
  if Player.onCourt p
  then p |> Player.set_secondsPlayed (Player.secondsPlayed p + n)
  else p.

(** The action is none of those that reopen a finished game or start another
    one. *)
Definition keepsFinal (action : ScoreboardAction) : Prop :=
  match action with
  | HYDRATE _ | LOAD_GAME _ _ _ | START_GAME | RESET_QUARTER | PREV_QUARTER
  | NEXT_QUARTER => False
  | _ => True
  end.

(** The points on the board: both scores and both fast-break counts. *)
Definition board (st : State.t) : Z * Z * Z * Z :=
  (Team.score (State.teamA st), Team.score (State.teamB st),
   Team.fastBreakPoints (State.teamA st), Team.fastBreakPoints (State.teamB st)).

(** The snapshot is blocked by a manual highlight while team A makes eight
    fast-break points; then the highlight is dismissed. *)
Definition fastBreakEdge : PersistedPayload :=
  run 0 (defaultPayload 0)
    [SHOW_TV_STAR_PLAYER A "A-0-0"; ADD_FAST_BREAK_POINTS A 8; DISMISS_TV_STAR_PLAYER].

(** ["rebounds"], ["fastBreakPoints"] *)
Definition Metric_str (metric : Metric) : string :=
  match metric with rebounds => "rebounds" | fastBreakPoints => "fastBreakPoints" end.

(** The roster of a team in a stored root object: [parsed.players?.A],
    [parsed.players?.B]. *)
Definition storedRoster (team : TeamId) (parsed : Wire.Payload.t)
    : option (list (option Wire.Player.t)) :=
  match Wire.Payload.players parsed with
  | Some ps => match team with A => Wire.Players.A ps | B => Wire.Players.B ps end
  | None => None
  end.

(** The stored roster is an array with a [null] in it. *)
Definition brokenRoster (team : TeamId) (parsed : Wire.Payload.t) : Prop :=
  exists l, storedRoster team parsed = Some l /\ In None l.

(** ** The save effect and the other instances

    [useScoreboardStore] saves the snapshot after every change of it
    ([useEffect(() => savePayload(payload), [payload])]); the browser then
    notifies the other instances, once for each key written. *)

(** The notifications the other instances receive when an instance saves
    [payload] at time [savedAt]: the same text under the two keys, the key of
    the fifth version first. *)
Definition saveEvents (savedAt : Z) (payload : PersistedPayload) : list StorageEvent.t :=
  let serialized := JSON_stringify (payload |> Payload.set_updatedAt savedAt) in
  [ StorageEvent.mk (Some STORAGE_KEY_V5) serialized;
    StorageEvent.mk (Some STORAGE_KEY_V3) serialized ].

(** An instance handles one notification: its snapshot afterwards, and
    whether an action was dispatched so far. *)
Definition handle (now : Z) (st : PersistedPayload * bool) (event : StorageEvent.t)
    : PersistedPayload * bool :=
  match onStorage now (fst st) event with
  | Some action => (reducer now (fst st) action, true)
  | None => st
  end.

(** An instance handles the notifications of a save, one after the other. *)
Definition receive (now : Z) (receiver : PersistedPayload)
    (events : list StorageEvent.t) : PersistedPayload * bool :=
  fold_left (handle now) events (receiver, false).

(** Two instances: [sender] has a change to save.  At each of the [times] the
    instance that changed last saves; when the other one dispatches on the
    notifications its snapshot has changed and it is the next to save;
    otherwise nothing more happens.  The result is the snapshots that were
    installed, in order. *)
Fixpoint echo (times : list Z) (sender receiver : PersistedPayload)
    : list PersistedPayload :=
  match times with
  | [] => []
  | t :: rest =>
      let '(receiver', changed) := receive t receiver (saveEvents t sender) in
      if changed then receiver' :: echo rest receiver' sender else []
  end.
(** * Properties *)

(** A snapshot built from [payload] by updates that do not touch the rosters
    has the rosters of [payload]; [Hkeep] turns that into the goal. *)
Ltac players_kept Hkeep := apply Hkeep; reflexivity.

(** Splits a goal on the two teams. *)
Ltac both_teams := let team := fresh "team" in intros team; destruct team.

(** ** Records and rosters *)

Lemma team_of_set_team_of :
  forall team v st, team_of team (set_team_of team v st) = v.
Proof. intros [] v st; reflexivity. Qed.

Lemma players_of_set_players_of :
  forall team l p, players_of team (set_players_of team l p) = l.
Proof. intros [] l p; reflexivity. Qed.

Lemma players_of_set_players_of_other :
  forall team l p, players_of (other team) (set_players_of team l p) = players_of (other team) p.
Proof. intros [] l p; reflexivity. Qed.

Lemma players_of_set_players_of_cases :
  forall team team' l p,
    players_of team' (set_players_of team l p)
    = if TeamId_eqb team team' then l else players_of team' p.
Proof. intros [] [] l p; reflexivity. Qed.

Lemma find_player_cons :
  forall x h r,
    find_player x (h :: r)
    = if String.eqb (Player.id h) x then Some h else find_player x r.
Proof. reflexivity. Qed.

Lemma find_player_id :
  forall x l t, find_player x l = Some t -> Player.id t = x.
Proof.
  intros x l t H. apply find_some in H. destruct H as [_ H].
  apply String.eqb_eq. exact H.
Qed.

Lemma find_player_map :
  forall (x : string) (g : Player.t -> Player.t) l,
    (forall p, Player.id (g p) = Player.id p) ->
    find_player x (map g l) = option_map g (find_player x l).
Proof.
  intros x g l Hg. induction l as [| h r IH]; [reflexivity |].
  cbn [map]. rewrite !find_player_cons, Hg, IH.
  destruct (String.eqb (Player.id h) x); reflexivity.
Qed.

Lemma map_id_map :
  forall (g : Player.t -> Player.t) l,
    (forall p, Player.id (g p) = Player.id p) ->
    map Player.id (map g l) = map Player.id l.
Proof.
  intros g l Hg. rewrite map_map. apply map_ext. exact Hg.
Qed.

Lemma includes_In :
  forall key l, JS.includes key l = true <-> In key l.
Proof.
  intros key l. unfold JS.includes. rewrite existsb_exists. split.
  - intros (x & Hin & Heq). apply String.eqb_eq in Heq. subst. exact Hin.
  - intros Hin. exists key. split; [exact Hin | apply String.eqb_refl].
Qed.

Lemma mapi_from_Forall :
  forall (X Y : Type) (P : Y -> Prop) (f : X -> Z -> Y),
    (forall x i, P (f x i)) ->
    forall l i, Forall P (JS.mapi_from f i l).
Proof.
  intros X Y P f Hf. induction l as [| x l IH]; intros i; cbn [JS.mapi_from].
  - constructor.
  - constructor; [apply Hf | apply IH].
Qed.

(** ** What the highlight detector leaves alone *)

Lemma sameGame_refl : forall p, sameGame p p.
Proof. intros p. repeat split. Qed.

Lemma sameGame_trans : forall p q r, sameGame p q -> sameGame q r -> sameGame p r.
Proof.
  intros p q r (H1 & H2 & H3) (K1 & K2 & K3).
  repeat split; congruence.
Qed.

Lemma oneMoreEntry_refl : forall p, oneMoreEntry p p.
Proof. intros p. left. reflexivity. Qed.

(** A field that [withoutHighlights] keeps is the same in two snapshots of
    the same game. *)
Lemma sameGame_field :
  forall (X : Type) (f : State.t -> X),
    (forall st, f (withoutHighlights st) = f st) ->
    forall p q, sameGame p q -> f (Payload.state q) = f (Payload.state p).
Proof.
  intros X f Hf p q (H & _ & _).
  rewrite <- (Hf (Payload.state q)), <- (Hf (Payload.state p)), H. reflexivity.
Qed.

Lemma sameGame_team_of :
  forall team p q, sameGame p q ->
    team_of team (Payload.state q) = team_of team (Payload.state p).
Proof.
  intros team p q H.
  apply (sameGame_field _ (team_of team)); [| exact H].
  intros st. destruct team; reflexivity.
Qed.

Lemma sameGame_players_of :
  forall team p q, sameGame p q -> players_of team q = players_of team p.
Proof.
  intros team p q (_ & H & _). unfold players_of. rewrite H. reflexivity.
Qed.

Lemma withActionLog_sameGame : forall p text, sameGame p (withActionLog p text).
Proof. intros p text. repeat split. Qed.

Lemma withActionLog_oneMoreEntry : forall p text, oneMoreEntry p (withActionLog p text).
Proof. intros p text. right. eexists. reflexivity. Qed.

Create HintDb frame discriminated.
#[local] Hint Resolve sameGame_refl oneMoreEntry_refl withActionLog_sameGame
  withActionLog_oneMoreEntry : frame.

(** When [showAutoPlayerHighlight] fires: the gate was open, the key was new,
    and the new snapshot shows the highlight, has the key first among the seen
    keys, the cooldown started, and one more log entry. *)
Lemma showAutoPlayerHighlight_fires :
  forall p team playerId reason key next,
    showAutoPlayerHighlight p team playerId reason key = Some next ->
    canAutoHighlight p = true
    /\ JS.includes key (State.tvAutoSeen (Payload.state p)) = false
    /\ sameGame p next
    /\ State.tvAutoSeen (Payload.state next)
       = JS.slice0 400
           (key :: filter (fun item => negb (String.eqb item key))
                          (State.tvAutoSeen (Payload.state p)))
    /\ State.tvAutoCooldownSeconds (Payload.state next) = HIGHLIGHT_COOLDOWN_SECONDS
    /\ State.tvStarPlayer (Payload.state next)
       = Some (StarPlayer.mk team playerId PLAYER_HIGHLIGHT_SECONDS
                 (Some reason) (Some true))
    /\ State.tvTeamComparison (Payload.state next) = None
    /\ (exists entry,
          Payload.actionLog next = JS.slice0 250 (entry :: Payload.actionLog p)).
Proof.
  intros p team playerId reason key next. unfold showAutoPlayerHighlight.
  destruct (canAutoHighlight p); [| discriminate].
  destruct (JS.includes key (State.tvAutoSeen (Payload.state p))); [discriminate |].
  destruct (find_player playerId (players_of team p)) as [player |]; [| discriminate].
  cbn [negb]. intros H. injection H as <-.
  repeat split. eexists. reflexivity.
Qed.

(** After a highlight the gate is closed. *)
Lemma canAutoHighlight_star :
  forall p h, State.tvStarPlayer (Payload.state p) = Some h -> canAutoHighlight p = false.
Proof. intros p h H. unfold canAutoHighlight. rewrite H. reflexivity. Qed.

(** The fresh object differs from the argument by its content too, so that
    telling them apart by reference ([next !== payload]) and by content agree. *)
Lemma showAutoPlayerHighlight_fresh :
  forall p team playerId reason key next,
    showAutoPlayerHighlight p team playerId reason key = Some next -> next <> p.
Proof.
  intros p team playerId reason key next Hshow Heq.
  destruct (showAutoPlayerHighlight_fires _ _ _ _ _ _ Hshow)
    as (Hgate & _ & _ & _ & _ & Hstar & _).
  rewrite Heq in Hstar. rewrite (canAutoHighlight_star _ _ Hstar) in Hgate.
  discriminate.
Qed.

Lemma milestoneBlock_frame :
  forall p team playerId player k rest,
    (sameGame p rest /\ oneMoreEntry p rest /\ (rest = p \/ canAutoHighlight rest = false)) ->
    let q := milestoneBlock p team playerId player k rest in
    sameGame p q /\ oneMoreEntry p q /\ (q = p \/ canAutoHighlight q = false).
Proof.
  intros p team playerId player k rest Hrest. unfold milestoneBlock.
  destruct ((highestMilestone (Tracked.value k player) (Tracked.milestones k) >? 0)
            && (Tracked.value k player =? maxStat k (allPlayers p))); [| exact Hrest].
  destruct (showAutoPlayerHighlight p team playerId (Tracked.reason k player)
              (milestoneKey team player k
                 (highestMilestone (Tracked.value k player) (Tracked.milestones k))))
    as [next |] eqn:Hshow; [| exact Hrest].
  destruct (showAutoPlayerHighlight_fires _ _ _ _ _ _ Hshow)
    as (_ & _ & Hsame & _ & _ & Hstar & _ & Hlog).
  split; [exact Hsame |]. split; [right; exact Hlog |].
  right. eapply canAutoHighlight_star. exact Hstar.
Qed.

Lemma maybeAutoPlayerHighlight_frame :
  forall p team playerId,
    let q := maybeAutoPlayerHighlight p team playerId in
    sameGame p q /\ oneMoreEntry p q /\ (q = p \/ canAutoHighlight q = false).
Proof.
  intros p team playerId. unfold maybeAutoPlayerHighlight.
  assert (Hp : sameGame p p /\ oneMoreEntry p p /\ (p = p \/ canAutoHighlight p = false))
    by (split; [apply sameGame_refl | split; [apply oneMoreEntry_refl | left; reflexivity]]).
  destruct (find_player playerId (players_of team p)) as [player |]; [| exact Hp].
  repeat apply milestoneBlock_frame. exact Hp.
Qed.

Lemma teamComparisonShown_frame :
  forall p key metric a b lead text,
    let q := teamComparisonShown p key metric a b lead text in
    sameGame p q /\ oneMoreEntry p q.
Proof.
  intros. split; [repeat split | right; eexists; reflexivity].
Qed.

Lemma fastBreakComparison_frame :
  forall p, sameGame p (fastBreakComparison p) /\ oneMoreEntry p (fastBreakComparison p).
Proof.
  intros p. unfold fastBreakComparison.
  assert (Hp : sameGame p p /\ oneMoreEntry p p)
    by (split; [apply sameGame_refl | apply oneMoreEntry_refl]).
  destruct (leader _ _); [| exact Hp].
  destruct (_ && _); [| exact Hp].
  destruct (negb _); [| exact Hp].
  apply teamComparisonShown_frame.
Qed.

Lemma maybeAutoTeamComparison_frame :
  forall p,
    sameGame p (maybeAutoTeamComparison p) /\ oneMoreEntry p (maybeAutoTeamComparison p).
Proof.
  intros p. unfold maybeAutoTeamComparison.
  assert (Hp : sameGame p p /\ oneMoreEntry p p)
    by (split; [apply sameGame_refl | apply oneMoreEntry_refl]).
  destruct (negb (canAutoHighlight p)); [exact Hp |].
  destruct (leader _ _); [| apply fastBreakComparison_frame].
  destruct (_ && _); [| apply fastBreakComparison_frame].
  destruct (negb _); [| apply fastBreakComparison_frame].
  apply teamComparisonShown_frame.
Qed.

Lemma maybeAutoTeamComparison_closed :
  forall p, canAutoHighlight p = false -> maybeAutoTeamComparison p = p.
Proof. intros p H. unfold maybeAutoTeamComparison. rewrite H. reflexivity. Qed.

(** The two detectors in a row, as the reducer calls them: the game is the
    same and the log has at most one more entry. *)
Lemma autoHighlights_frame :
  forall p team playerId,
    let q := maybeAutoTeamComparison (maybeAutoPlayerHighlight p team playerId) in
    sameGame p q /\ oneMoreEntry p q.
Proof.
  intros p team playerId.
  destruct (maybeAutoPlayerHighlight_frame p team playerId) as (Hs & Hl & [Heq | Hclosed]).
  - cbv zeta. rewrite Heq. apply maybeAutoTeamComparison_frame.
  - cbv zeta. rewrite (maybeAutoTeamComparison_closed _ Hclosed). split; assumption.
Qed.

Lemma sameGame_ADD_POINTS_tail :
  forall p team playerId,
    let q :=
      maybeAutoTeamComparison
        match givenId playerId with
        | Some id => maybeAutoPlayerHighlight p team id
        | None => p
        end in
    sameGame p q /\ oneMoreEntry p q.
Proof.
  intros p team playerId. destruct (givenId playerId) as [id |]; cbv zeta.
  - apply autoHighlights_frame.
  - apply maybeAutoTeamComparison_frame.
Qed.

(** What the detectors log: nothing, or one entry of their own. *)
Lemma highlightLogged_refl : forall p, highlightLogged p p.
Proof. intros p. left. reflexivity. Qed.

Lemma showAutoPlayerHighlight_logged :
  forall p team playerId reason key next,
    showAutoPlayerHighlight p team playerId reason key = Some next ->
    highlightLogged p next.
Proof.
  intros p team playerId reason key next. unfold showAutoPlayerHighlight.
  destruct (negb (canAutoHighlight p)); [discriminate |].
  destruct (JS.includes key (State.tvAutoSeen (Payload.state p))); [discriminate |].
  destruct (find_player playerId (players_of team p)) as [player |]; [| discriminate].
  intros H. injection H as <-. right.
  exists ("Highlight: " ++ Player.name player ++ " #"
            ++ JS.String_ (Player.number player) ++ " (" ++ teamName_of team p ++ ") - "
            ++ reason).
  reflexivity.
Qed.

Lemma maybeAutoPlayerHighlight_logged :
  forall p team playerId, highlightLogged p (maybeAutoPlayerHighlight p team playerId).
Proof.
  intros p team playerId. unfold maybeAutoPlayerHighlight.
  destruct (find_player playerId (players_of team p)) as [player |];
    [| apply highlightLogged_refl].
  assert (Hblock : forall k rest,
            highlightLogged p rest ->
            highlightLogged p (milestoneBlock p team playerId player k rest)).
  { intros k rest Hrest. unfold milestoneBlock.
    destruct (_ && _); [| exact Hrest].
    destruct (showAutoPlayerHighlight _ _ _ _ _) as [next |] eqn:Hshow; [| exact Hrest].
    eapply showAutoPlayerHighlight_logged. exact Hshow. }
  repeat apply Hblock. apply highlightLogged_refl.
Qed.

Lemma maybeAutoTeamComparison_logged :
  forall p, highlightLogged p (maybeAutoTeamComparison p).
Proof.
  intros p. unfold maybeAutoTeamComparison.
  assert (Hfb : highlightLogged p (fastBreakComparison p)).
  { unfold fastBreakComparison.
    destruct (leader _ _) as [lead |]; [| apply highlightLogged_refl].
    destruct (_ && _); [| apply highlightLogged_refl].
    destruct (negb _); [| apply highlightLogged_refl].
    right. exists ("Team Comparison: Fast break edge for " ++ teamName_of lead p).
    reflexivity. }
  destruct (negb (canAutoHighlight p)); [apply highlightLogged_refl |].
  destruct (leader _ _) as [lead |]; [| exact Hfb].
  destruct (_ && _); [| exact Hfb].
  destruct (negb _); [| exact Hfb].
  right. exists ("Team Comparison: Rebounds edge for " ++ teamName_of lead p).
  reflexivity.
Qed.

(** While a highlight is shown or the cooldown runs the detectors do
    nothing. *)
Lemma maybeAutoPlayerHighlight_closed :
  forall p team playerId,
    canAutoHighlight p = false -> maybeAutoPlayerHighlight p team playerId = p.
Proof.
  intros p team playerId Hclosed. unfold maybeAutoPlayerHighlight.
  destruct (find_player playerId (players_of team p)) as [player |]; [| reflexivity].
  assert (Hblock : forall k rest, milestoneBlock p team playerId player k rest = rest).
  { intros k rest. unfold milestoneBlock, showAutoPlayerHighlight.
    rewrite Hclosed. cbn [negb]. destruct (_ && _); reflexivity. }
  rewrite !Hblock. reflexivity.
Qed.

Lemma closed_ADD_POINTS_tail :
  forall p team playerId,
    canAutoHighlight p = false ->
    maybeAutoTeamComparison
      match givenId playerId with
      | Some id => maybeAutoPlayerHighlight p team id
      | None => p
      end = p.
Proof.
  intros p team playerId Hclosed.
  destruct (givenId playerId) as [id |];
    rewrite ?maybeAutoPlayerHighlight_closed by exact Hclosed;
    apply maybeAutoTeamComparison_closed; exact Hclosed.
Qed.

(** The two detectors at the end of "ADD_POINTS" log one entry at most, and
    that one their own. *)
Lemma highlightLogged_ADD_POINTS_tail :
  forall p team playerId,
    highlightLogged p
      (maybeAutoTeamComparison
         match givenId playerId with
         | Some id => maybeAutoPlayerHighlight p team id
         | None => p
         end).
Proof.
  intros p team playerId.
  destruct (givenId playerId) as [id |]; [| apply maybeAutoTeamComparison_logged].
  destruct (maybeAutoPlayerHighlight_frame p team id) as (_ & _ & [Heq | Hclosed]).
  - cbv zeta in Heq. rewrite Heq. apply maybeAutoTeamComparison_logged.
  - cbv zeta in Hclosed. rewrite (maybeAutoTeamComparison_closed _ Hclosed).
    apply maybeAutoPlayerHighlight_logged.
Qed.

Lemma recalcTeamFouls_players :
  forall p team, Payload.players (recalcTeamFouls p team) = Payload.players p.
Proof. reflexivity. Qed.

Lemma endOverlay_players :
  forall p, Payload.players (endOverlay p) = Payload.players p.
Proof.
  intros p. unfold endOverlay.
  destruct (State.overlayMode (Payload.state p)) as [[|] |]; [reflexivity | | reflexivity].
  destruct (_ && _); reflexivity.
Qed.

(** ** C1: five on the court *)

Lemma onCourtCount_cons :
  forall x l, onCourtCount (x :: l) = b2z (Player.onCourt x) + onCourtCount l.
Proof.
  intros x l. unfold onCourtCount. cbn [filter].
  destruct (Player.onCourt x); cbn [List.length b2z]; lia.
Qed.

Lemma onCourtCount_nil : onCourtCount [] = 0.
Proof. reflexivity. Qed.

Lemma onCourtCount_nonneg : forall l, 0 <= onCourtCount l.
Proof. intros l. unfold onCourtCount. lia. Qed.

Lemma onCourtCount_app :
  forall l l', onCourtCount (l ++ l')%list = onCourtCount l + onCourtCount l'.
Proof.
  induction l as [| x l IH]; intros l'.
  - cbn [app]. rewrite onCourtCount_nil. lia.
  - cbn [app]. rewrite !onCourtCount_cons, IH. lia.
Qed.

(** A map that keeps the flag of the players of the list keeps the count. *)
Lemma onCourtCount_map_In :
  forall (f : Player.t -> Player.t) l,
    (forall p, In p l -> Player.onCourt (f p) = Player.onCourt p) ->
    onCourtCount (map f l) = onCourtCount l.
Proof.
  intros f. induction l as [| x l IH]; intros Hf; [reflexivity |].
  cbn [map]. rewrite !onCourtCount_cons, Hf, IH.
  - reflexivity.
  - intros p Hp. apply Hf. right. exact Hp.
  - left. reflexivity.
Qed.

Lemma onCourtCount_map :
  forall (f : Player.t -> Player.t) l,
    (forall p, Player.onCourt (f p) = Player.onCourt p) ->
    onCourtCount (map f l) = onCourtCount l.
Proof. intros f l Hf. apply onCourtCount_map_In. intros p _. apply Hf. Qed.

(** A map that only takes players off the court does not raise the count. *)
Lemma onCourtCount_map_le :
  forall (f : Player.t -> Player.t) l,
    (forall p, Player.onCourt (f p) = true -> Player.onCourt p = true) ->
    onCourtCount (map f l) <= onCourtCount l.
Proof.
  intros f l Hf. induction l as [| x l IH]; [reflexivity |].
  cbn [map]. rewrite !onCourtCount_cons. specialize (Hf x).
  destruct (Player.onCourt (f x)), (Player.onCourt x); cbn [b2z]; lia.
Qed.

Lemma onCourtCount_filter_le :
  forall (g : Player.t -> bool) l, onCourtCount (filter g l) <= onCourtCount l.
Proof.
  intros g. induction l as [| x l IH]; [reflexivity |].
  cbn [filter]. destruct (g x); rewrite ?onCourtCount_cons;
    destruct (Player.onCourt x); cbn [b2z]; lia.
Qed.

(** With distinct ids, a map that changes the flag of the player with id [x]
    only changes the count by that player's change. *)
Lemma onCourtCount_change_one :
  forall (x : string) (g : Player.t -> Player.t) l t,
    (forall p, Player.id p <> x -> Player.onCourt (g p) = Player.onCourt p) ->
    NoDup (map Player.id l) ->
    find_player x l = Some t ->
    onCourtCount (map g l)
    = onCourtCount l - b2z (Player.onCourt t) + b2z (Player.onCourt (g t)).
Proof.
  intros x g l t Hg. induction l as [| h r IH]; intros Hnd Hfind; [discriminate |].
  rewrite find_player_cons in Hfind. cbn [map] in *.
  inversion Hnd as [| ? ? Hnotin Hnd']; subst.
  rewrite !onCourtCount_cons.
  destruct (String.eqb_spec (Player.id h) x) as [Heq | Hne].
  - injection Hfind as ->.
    rewrite onCourtCount_map_In; [lia |].
    intros p Hp. apply Hg. intros Hpx. apply Hnotin.
    rewrite Heq, <- Hpx. apply in_map. exact Hp.
  - rewrite (Hg h Hne), (IH Hnd' Hfind). lia.
Qed.

(** A roster built with [onCourt: idx < 5] has at most five players on the
    court. *)
Lemma onCourtCount_mapi_from :
  forall (X : Type) (f : X -> Z -> Player.t),
    (forall x i, Player.onCourt (f x i) = (i <? 5)) ->
    forall l i, 0 <= i -> onCourtCount (JS.mapi_from f i l) <= Z.max 0 (5 - i).
Proof.
  intros X f Hf. induction l as [| x l IH]; intros i Hi; cbn [JS.mapi_from].
  - rewrite onCourtCount_nil. lia.
  - rewrite onCourtCount_cons, Hf. specialize (IH (i + 1) ltac:(lia)).
    destruct (Z.ltb_spec i 5); cbn [b2z]; lia.
Qed.

Lemma buildLivePlayers_bounded :
  forall now team players, onCourtCount (buildLivePlayers now team players) <= 5.
Proof.
  intros now team players. unfold buildLivePlayers, JS.mapi.
  etransitivity; [apply onCourtCount_mapi_from; [reflexivity | lia] | lia].
Qed.

Lemma onCourtBounded_set_players_of :
  forall team l p,
    onCourtBounded p -> onCourtCount l <= 5 -> onCourtBounded (set_players_of team l p).
Proof.
  intros team l p Hp Hl team'. rewrite players_of_set_players_of_cases.
  destruct (TeamId_eqb team team'); [exact Hl | apply Hp].
Qed.

Lemma onCourtBounded_players :
  forall p q, Payload.players q = Payload.players p -> onCourtBounded p -> onCourtBounded q.
Proof. intros p q H Hp team. unfold players_of. rewrite H. apply Hp. Qed.

Lemma onCourtBounded_sameGame :
  forall p q, sameGame p q -> onCourtBounded p -> onCourtBounded q.
Proof. intros p q (_ & H & _). apply onCourtBounded_players. exact H. Qed.

Lemma creditPoints_onCourt :
  forall id points p, Player.onCourt (creditPoints id points p) = Player.onCourt p.
Proof.
  intros id points p. unfold creditPoints.
  destruct (String.eqb (Player.id p) id); reflexivity.
Qed.

Lemma incPlayerStat_onCourt :
  forall foulLimit playerId stat amount p,
    Player.onCourt (incPlayerStat foulLimit playerId stat amount p) = true ->
    Player.onCourt p = true.
Proof.
  intros foulLimit playerId stat amount p. unfold incPlayerStat.
  destruct (negb _ || _); [auto |].
  destruct (is_fls stat && _); [discriminate |].
  destruct stat; auto.
Qed.

Lemma bounded_ADD_POINTS :
  forall payload team points playerId,
    onCourtBounded payload -> onCourtBounded (reduce_ADD_POINTS payload team points playerId).
Proof.
  intros payload team points playerId Hp. unfold reduce_ADD_POINTS.
  destruct (State.gameFinal (Payload.state payload)); [exact Hp |].
  destruct (points =? 0); [exact Hp |].
  eapply onCourtBounded_sameGame; [apply sameGame_ADD_POINTS_tail |].
  set (p1 := Payload.set_state _ payload).
  set (scored := match givenId playerId with
                 | Some id => set_players_of team _ p1 | None => p1 end).
  assert (Hscored : onCourtBounded scored).
  { subst scored. destruct (givenId playerId) as [id |]; [| exact Hp].
    apply onCourtBounded_set_players_of; [exact Hp |].
    rewrite onCourtCount_map by apply creditPoints_onCourt. apply (Hp team). }
  destruct (points >? 0); [| exact Hscored].
  eapply onCourtBounded_players; [| exact Hscored].
  destruct (State.timingMode _); [destruct (State.gameClockRunning _) |]; reflexivity.
Qed.

Lemma bounded_INC_PLAYER_STAT :
  forall payload team playerId stat amount,
    onCourtBounded payload ->
    onCourtBounded (reduce_INC_PLAYER_STAT payload team playerId stat amount).
Proof.
  intros payload team playerId stat amount Hp. unfold reduce_INC_PLAYER_STAT.
  eapply onCourtBounded_sameGame; [apply autoHighlights_frame |].
  set (p1 := set_players_of team _ payload).
  assert (H1 : onCourtBounded p1).
  { subst p1. apply onCourtBounded_set_players_of; [exact Hp |].
    etransitivity; [apply onCourtCount_map_le | apply (Hp team)].
    intros p. apply incPlayerStat_onCourt. }
  set (p2 := if is_fls stat then recalcTeamFouls p1 team else p1).
  assert (H2 : onCourtBounded p2).
  { subst p2. destruct (is_fls stat); [| exact H1].
    eapply onCourtBounded_players; [apply recalcTeamFouls_players | exact H1]. }
  set (p3 := match find_player playerId (players_of team p2) with
             | Some player => if negb (is_fls stat) then withActionLog p2 _ else p2
             | None => p2 end).
  assert (H3 : onCourtBounded p3).
  { subst p3. destruct (find_player _ _); [| exact H2].
    destruct (negb _); [| exact H2].
    eapply onCourtBounded_sameGame; [apply withActionLog_sameGame | exact H2]. }
  destruct (JS.truthy _); [| exact H3].
  eapply onCourtBounded_sameGame; [apply withActionLog_sameGame | exact H3].
Qed.

Lemma bounded_SET_PLAYER_ON_COURT :
  forall payload team playerId onCourt,
    onCourtBounded payload -> distinctIds payload ->
    onCourtBounded (reduce_SET_PLAYER_ON_COURT payload team playerId onCourt).
Proof.
  intros payload team playerId onCourt Hp Hnd. unfold reduce_SET_PLAYER_ON_COURT.
  destruct (find_player playerId (players_of team payload)) as [target |] eqn:Hfind;
    [| exact Hp].
  destruct (Player.fouledOut target); [exact Hp |].
  destruct (onCourt && negb (Player.onCourt target)
            && (onCourtCount (players_of team payload) >=? 5)) eqn:Hguard; [exact Hp |].
  apply onCourtBounded_set_players_of; [exact Hp |].
  rewrite (onCourtCount_change_one playerId _ _ target); [| | apply Hnd | exact Hfind].
  - rewrite (find_player_id _ _ _ Hfind), String.eqb_refl. cbn [Player.onCourt Player.set_onCourt].
    specialize (Hp team).
    destruct onCourt, (Player.onCourt target); cbn [b2z andb negb] in *; lia.
  - intros p Hne. apply String.eqb_neq in Hne. rewrite Hne. reflexivity.
Qed.

Lemma bounded_SUBSTITUTE_PLAYER :
  forall payload team playerOutId playerInId,
    onCourtBounded payload -> distinctIds payload ->
    onCourtBounded (reduce_SUBSTITUTE_PLAYER payload team playerOutId playerInId).
Proof.
  intros payload team playerOutId playerInId Hp Hnd. unfold reduce_SUBSTITUTE_PLAYER.
  destruct (find_player playerOutId (players_of team payload)) as [playerOut |] eqn:Hout;
    [| exact Hp].
  destruct (find_player playerInId (players_of team payload)) as [playerIn |] eqn:Hin;
    [| exact Hp].
  destruct (Player.onCourt playerOut) eqn:HoutOn; cbn [negb orb]; [| exact Hp].
  destruct (Player.onCourt playerIn) eqn:HinOn; cbn [orb]; [exact Hp |].
  destruct (Player.fouledOut playerIn); [exact Hp |].
  eapply onCourtBounded_sameGame; [apply withActionLog_sameGame |].
  apply onCourtBounded_set_players_of; [exact Hp |].
  assert (Hne : playerOutId <> playerInId) by (intros ->; congruence).
  set (off := fun p : Player.t =>
                if String.eqb (Player.id p) playerOutId
                then Player.set_onCourt false p else p).
  set (on := fun p : Player.t =>
               if String.eqb (Player.id p) playerInId
               then Player.set_onCourt true p else p).
  assert (Hoff_id : forall p, Player.id (off p) = Player.id p)
    by (intros p; subst off; cbv beta; destruct (String.eqb _ _); reflexivity).
  rewrite (map_ext _ (fun p => on (off p))).
  2:{ intros p. subst on off. cbv beta.
      destruct (String.eqb_spec (Player.id p) playerOutId) as [Heq | Hneq].
      - cbn [Player.id Player.set_onCourt]. rewrite Heq.
        destruct (String.eqb_spec playerOutId playerInId); [contradiction | reflexivity].
      - reflexivity. }
  rewrite <- map_map.
  rewrite (onCourtCount_change_one playerInId on _ (off playerIn)).
  - rewrite (onCourtCount_change_one playerOutId off _ playerOut);
      [| | apply Hnd | exact Hout].
    + subst on off. cbv beta.
      rewrite (find_player_id _ _ _ Hout), (find_player_id _ _ _ Hin), String.eqb_refl.
      destruct (String.eqb_spec playerInId playerOutId) as [Heq | _];
        [symmetry in Heq; contradiction |].
      rewrite (find_player_id _ _ _ Hin), String.eqb_refl.
      cbn [Player.onCourt Player.set_onCourt].
      rewrite HoutOn, HinOn. cbn [b2z]. specialize (Hp team). lia.
    + intros p Hp'. subst off. cbv beta. apply String.eqb_neq in Hp'. rewrite Hp'.
      reflexivity.
  - intros p Hp'. subst on. cbv beta. apply String.eqb_neq in Hp'. rewrite Hp'.
    reflexivity.
  - rewrite map_id_map by exact Hoff_id. apply Hnd.
  - rewrite find_player_map by exact Hoff_id. rewrite Hin. reflexivity.
Qed.

Lemma bounded_ADD_PLAYER :
  forall now payload team name number onCourt,
    onCourtBounded payload ->
    onCourtBounded (reduce_ADD_PLAYER now payload team name number onCourt).
Proof.
  intros now payload team name number onCourt Hp. unfold reduce_ADD_PLAYER.
  apply onCourtBounded_set_players_of; [exact Hp |].
  rewrite onCourtCount_app, onCourtCount_cons, onCourtCount_nil.
  cbn [Player.onCourt]. specialize (Hp team).
  destruct onCourt; cbn [andb b2z]; [| lia].
  destruct (Z.ltb_spec (onCourtCount (players_of team payload)) 5); cbn [b2z]; lia.
Qed.

Lemma bounded_UPDATE_PLAYER :
  forall payload team playerId updates,
    onCourtBounded payload -> distinctIds payload ->
    onCourtBounded (reduce_UPDATE_PLAYER payload team playerId updates).
Proof.
  intros payload team playerId updates Hp Hnd. unfold reduce_UPDATE_PLAYER.
  destruct (find_player playerId (players_of team payload)) as [target |] eqn:Hfind;
    [| exact Hp].
  destruct (_ && _) eqn:Hguard; [exact Hp |].
  eapply onCourtBounded_players; [apply recalcTeamFouls_players |].
  apply onCourtBounded_set_players_of; [exact Hp |].
  rewrite (onCourtCount_change_one playerId _ _ target); [| | apply Hnd | exact Hfind].
  - rewrite (find_player_id _ _ _ Hfind), String.eqb_refl.
    cbn [Player.onCourt Player.set_onCourt Player.set_number Player.set_name].
    specialize (Hp team).
    destruct (PlayerUpdates.onCourt updates) as [[|] |], (Player.onCourt target);
      cbn [JS.nullish b2z andb negb] in *; lia.
  - intros p Hne. apply String.eqb_neq in Hne. rewrite Hne. reflexivity.
Qed.

Lemma tickSecondsPlayed_count :
  forall l, onCourtCount (tickSecondsPlayed l) = onCourtCount l.
Proof.
  intros l. unfold tickSecondsPlayed. apply onCourtCount_map.
  intros p. destruct (Player.onCourt p) eqn:H; [cbn; exact H | exact H].
Qed.

Lemma bounded_TICK :
  forall payload, onCourtBounded payload -> onCourtBounded (reduce_TICK payload).
Proof.
  intros payload Hp. unfold reduce_TICK.
  destruct (State.overlayMode (Payload.state payload)).
  - destruct (_ <=? 0); eapply onCourtBounded_players; try exact Hp.
    + rewrite endOverlay_players. reflexivity.
    + reflexivity.
  - destruct (if _ && _ then _ else _) as [nextState nextActionLog].
    destruct (State.gameClockRunning (Payload.state payload)).
    + intros [|]; unfold players_of, Payload.set_actionLog, Payload.set_players;
        cbn [Payload.players Players.get Players.A Players.B];
        rewrite tickSecondsPlayed_count.
      * apply (Hp A).
      * apply (Hp B).
    + exact Hp.
Qed.

(** C1 (amended): when at most five players of each team are on the court and
    the ids within each team are distinct, the snapshot after any action
    other than HYDRATE again has at most five players of each team on the
    court.  HYDRATE installs the snapshot it carries as it is, so the bound
    holds after it when it holds of that snapshot. *)
Theorem C1_five_on_court :
  forall (now : Z) (payload : PersistedPayload) (action : ScoreboardAction),
    onCourtBounded payload ->
    distinctIds payload ->
    (forall external, action = HYDRATE external -> onCourtBounded external) ->
    onCourtBounded (reducer now payload action).
Proof.
  intros now payload action Hp Hnd Hhyd.
  assert (Hkeep : forall q, Payload.players q = Payload.players payload -> onCourtBounded q)
    by (intros q Hq; eapply onCourtBounded_players; [exact Hq | exact Hp]).
  destruct action; cbn [reducer];
    (* the actions that leave both rosters as they are *)
    try solve [players_kept Hkeep].
  - (* ADD_POINTS *) apply bounded_ADD_POINTS; exact Hp.
  - (* ADD_FAST_BREAK_POINTS *)
    unfold reduce_ADD_FAST_BREAK_POINTS.
    destruct (State.gameFinal _); [exact Hp |]. destruct (points =? 0); [exact Hp |].
    eapply onCourtBounded_sameGame; [apply maybeAutoTeamComparison_frame |].
    players_kept Hkeep.
  - (* LOAD_GAME *) both_teams; apply buildLivePlayers_bounded.
  - (* START_GAME *)
    destruct (State.overlayMode _); [exact Hp | players_kept Hkeep].
  - (* START_SHOT *)
    destruct (State.overlayMode _); [exact Hp | players_kept Hkeep].
  - (* END_OVERLAY *) apply Hkeep. apply endOverlay_players.
  - (* SHOW_TV_STAR_PLAYER *)
    unfold reduce_SHOW_TV_STAR_PLAYER.
    destruct (find_player _ _); [players_kept Hkeep | exact Hp].
  - (* INC_PLAYER_STAT *) apply bounded_INC_PLAYER_STAT; exact Hp.
  - (* SET_PLAYER_ON_COURT *) apply bounded_SET_PLAYER_ON_COURT; assumption.
  - (* SUBSTITUTE_PLAYER *) apply bounded_SUBSTITUTE_PLAYER; assumption.
  - (* ADD_PLAYER *) apply bounded_ADD_PLAYER; exact Hp.
  - (* UPDATE_PLAYER *) apply bounded_UPDATE_PLAYER; assumption.
  - (* DELETE_PLAYER *)
    unfold reduce_DELETE_PLAYER.
    eapply onCourtBounded_players; [apply recalcTeamFouls_players |].
    apply onCourtBounded_set_players_of; [exact Hp |].
    etransitivity; [apply onCourtCount_filter_le | apply (Hp team)].
  - (* TICK *) apply bounded_TICK; exact Hp.
  - (* HYDRATE *) apply (Hhyd payload0). reflexivity.
Qed.

Lemma defaultPayload_bounded : forall now, onCourtBounded (defaultPayload now).
Proof. intros now [|]; vm_compute; discriminate. Qed.

Lemma C1_five_on_court_witness :
  onCourtBounded (reducer 0 (defaultPayload 0) (SET_PLAYER_ON_COURT A "A-5-0" true)).
Proof.
  apply C1_five_on_court.
  - both_teams; vm_compute; discriminate.
  - intros [|]; cbn; repeat (constructor; [cbn; intuition discriminate |]); constructor.
  - intros external H. discriminate H.
Defined.

(** C1, as stated, fails on HYDRATE: the default snapshot has five players of
    team A on the court, and after hydrating from a stored snapshot with seven
    on the court it has seven. *)
Lemma C1_hydrate_breaks_bound :
  onCourtBounded (defaultPayload 0)
  /\ onCourtCount (players_of A (reducer 0 (defaultPayload 0) (HYDRATE crowded))) = 7
  /\ ~ onCourtBounded (reducer 0 (defaultPayload 0) (HYDRATE crowded)).
Proof.
  split; [apply defaultPayload_bounded |]. split; [reflexivity |].
  intros H. specialize (H A). vm_compute in H. apply H. reflexivity.
Qed.

(** Why the ids must be distinct: when two players of a team carry the same
    id, one on the court among five and one on the bench, setting "that
    player" on the court passes the guard (the first one found is on the
    court already) and puts both on the court, six in all. *)
Lemma twin_ids_sixth_player :
  onCourtBounded twinIds
  /\ map Player.id (filter (fun p => String.eqb (Player.id p) "A-0") (players_of A twinIds))
     = ["A-0"; "A-0"]
  /\ onCourtCount (players_of A (reducer 0 twinIds (SET_PLAYER_ON_COURT A "A-0" true))) = 6.
Proof.
  split; [both_teams; vm_compute; discriminate |]. split; reflexivity.
Qed.

(** ** C2: team fouls *)

Lemma recalcTeamFouls_consistent :
  forall p team, foulsConsistent team (recalcTeamFouls p team).
Proof.
  intros p team. unfold foulsConsistent, recalcTeamFouls.
  cbn [Payload.state Payload.set_state]. rewrite team_of_set_team_of.
  destruct team; reflexivity.
Qed.

Lemma foulsConsistent_sameGame :
  forall team p q, sameGame p q -> foulsConsistent team p -> foulsConsistent team q.
Proof.
  intros team p q H. unfold foulsConsistent.
  rewrite (sameGame_team_of team p q H), (sameGame_players_of team p q H). auto.
Qed.

Lemma sumFls_from :
  forall l acc,
    fold_left (fun sum p => sum + Player.fls p) l acc = acc + sumFls l.
Proof.
  unfold sumFls. induction l as [| x l IH]; intros acc; cbn [fold_left].
  - lia.
  - rewrite IH, (IH (0 + Player.fls x)). lia.
Qed.

Lemma sumFls_cons : forall x l, sumFls (x :: l) = Player.fls x + sumFls l.
Proof. intros x l. unfold sumFls at 1. cbn [fold_left]. rewrite sumFls_from. lia. Qed.

(** A map that keeps every player's fouls keeps their sum. *)
Lemma sumFls_map :
  forall (f : Player.t -> Player.t) l,
    (forall p, Player.fls (f p) = Player.fls p) -> sumFls (map f l) = sumFls l.
Proof.
  intros f l Hf. induction l as [| x l IH]; [reflexivity |].
  cbn [map]. rewrite !sumFls_cons, Hf, IH. reflexivity.
Qed.

Lemma incPlayerStat_other_stat_fls :
  forall foulLimit playerId stat amount p,
    stat <> Stat.fls ->
    Player.fls (incPlayerStat foulLimit playerId stat amount p) = Player.fls p.
Proof.
  intros foulLimit playerId stat amount p Hstat. unfold incPlayerStat.
  destruct (negb _ || _); [reflexivity |].
  destruct stat; try contradiction; reflexivity.
Qed.

(** C2 (amended): the team's foul counter is recomputed as the sum of its
    players' fouls by INC_PLAYER_STAT on the stat [fls], by DELETE_PLAYER, and
    by an UPDATE_PLAYER that is not refused.  UPDATE_PLAYER is refused, and
    then returns the snapshot as it is, exactly when the player is unknown to
    the team or the update would put a sixth player on the court (it asks for
    [onCourt: true], the player is off the court and five are on it);
    otherwise it updates the players with the id and sets the counter to the
    sum of the fouls, which the update does not change.  INC_PLAYER_STAT on
    another stat recomputes nothing: it leaves the counter and the players'
    fouls as they were.  INC_FOUL raises the counter by one and touches no
    player, so the counter can move apart from the sum. *)
Theorem C2_team_fouls_recomputed :
  forall (now : Z) (payload : PersistedPayload) (team : TeamId) (playerId : string),
    (forall amount,
        foulsConsistent team
          (reducer now payload (INC_PLAYER_STAT team playerId Stat.fls amount)))
    /\ foulsConsistent team (reducer now payload (DELETE_PLAYER team playerId))
    /\ (forall updates,
        reducer now payload (UPDATE_PLAYER team playerId updates) = payload
        \/ foulsConsistent team (reducer now payload (UPDATE_PLAYER team playerId updates)))
    /\ (forall stat amount,
        stat <> Stat.fls ->
        let q := reducer now payload (INC_PLAYER_STAT team playerId stat amount) in
        Team.fouls (team_of team (Payload.state q))
        = Team.fouls (team_of team (Payload.state payload))
        /\ sumFls (players_of team q) = sumFls (players_of team payload))
    /\ (let q := reducer now payload (INC_FOUL team) in
        Team.fouls (team_of team (Payload.state q))
        = Team.fouls (team_of team (Payload.state payload)) + 1
        /\ Payload.players q = Payload.players payload)
    /\ (forall updates,
        let q := reducer now payload (UPDATE_PLAYER team playerId updates) in
        let unknown := find_player playerId (players_of team payload) = None in
        let sixth :=
          exists target,
            find_player playerId (players_of team payload) = Some target
            /\ PlayerUpdates.onCourt updates = Some true
            /\ Player.onCourt target = false
            /\ 5 <= onCourtCount (players_of team payload) in
        (unknown \/ sixth -> q = payload)
        /\ (~ (unknown \/ sixth) ->
            foulsConsistent team q
            /\ Team.fouls (team_of team (Payload.state q))
               = sumFls (players_of team payload)
            /\ players_of team q
               = map (fun p =>
                        if String.eqb (Player.id p) playerId
                        then p |> Player.set_name
                                    (JS.nullish (PlayerUpdates.name updates) (Player.name p))
                               |> Player.set_number
                                    (JS.nullish (PlayerUpdates.number updates)
                                       (Player.number p))
                               |> Player.set_onCourt
                                    (JS.nullish (PlayerUpdates.onCourt updates)
                                       (Player.onCourt p))
                        else p) (players_of team payload))).
Proof.
  intros now payload team playerId. split; [| split; [| split; [| split; [| split]]]].
  - intros amount. cbn [reducer]. unfold reduce_INC_PLAYER_STAT. cbn [is_fls negb].
    set (p1 := recalcTeamFouls _ team).
    assert (H1 : foulsConsistent team p1) by apply recalcTeamFouls_consistent.
    set (p2 := match find_player playerId (players_of team p1) with
               | Some _ => p1 | None => p1 end).
    assert (H2 : p2 = p1) by (subst p2; destruct (find_player _ _); reflexivity).
    rewrite H2. clear p2 H2.
    set (p3 := if JS.truthy _ then withActionLog p1 _ else p1).
    assert (H3 : sameGame p1 p3)
      by (subst p3; destruct (JS.truthy _);
          auto with frame).
    eapply foulsConsistent_sameGame;
      [eapply sameGame_trans; [exact H3 | apply autoHighlights_frame] | exact H1].
  - cbn [reducer]. apply recalcTeamFouls_consistent.
  - intros updates. cbn [reducer]. unfold reduce_UPDATE_PLAYER.
    destruct (find_player playerId (players_of team payload)); [| left; reflexivity].
    destruct (_ && _); [left; reflexivity | right].
    apply recalcTeamFouls_consistent.
  - intros stat amount Hstat. cbn [reducer]. unfold reduce_INC_PLAYER_STAT.
    assert (Hfls : is_fls stat = false) by (destruct stat; try contradiction; reflexivity).
    rewrite Hfls. cbn [negb].
    set (p1 := set_players_of team _ payload).
    set (p2 := match find_player playerId (players_of team p1) with
               | Some player => withActionLog p1 _ | None => p1 end).
    assert (H2 : sameGame p1 p2)
      by (subst p2; destruct (find_player _ _);
          auto with frame).
    set (p3 := if JS.truthy _ then withActionLog p2 _ else p2).
    assert (H3 : sameGame p2 p3)
      by (subst p3; destruct (JS.truthy _);
          auto with frame).
    assert (H : sameGame p1 (maybeAutoTeamComparison (maybeAutoPlayerHighlight p3 team playerId)))
      by (eapply sameGame_trans; [exact H2 |];
          eapply sameGame_trans; [exact H3 | apply autoHighlights_frame]).
    cbv zeta.
    rewrite (sameGame_team_of team _ _ H), (sameGame_players_of team _ _ H).
    subst p1. rewrite players_of_set_players_of. split.
    + destruct team; reflexivity.
    + apply sumFls_map. intros p. apply incPlayerStat_other_stat_fls. exact Hstat.
  - cbn [reducer]. cbn [Payload.state Payload.set_state Payload.players].
    rewrite team_of_set_team_of. split; reflexivity.
  - intros updates. cbv zeta. cbn [reducer]. unfold reduce_UPDATE_PLAYER.
    destruct (find_player playerId (players_of team payload)) as [target |] eqn:Hfind.
    2:{ split; [reflexivity |]. intros Hnot. contradiction Hnot. left. reflexivity. }
    destruct (match PlayerUpdates.onCourt updates with
              | Some true => negb (Player.onCourt target)
              | _ => false
              end && (onCourtCount (players_of team payload) >=? 5)) eqn:Hguard.
    + split; [reflexivity |]. intros Hnot. contradiction Hnot. right.
      apply andb_true_iff in Hguard. destruct Hguard as [Hwants Hfive].
      exists target. split; [reflexivity |].
      destruct (PlayerUpdates.onCourt updates) as [[|] |]; try discriminate Hwants.
      destruct (Player.onCourt target); [discriminate Hwants |].
      repeat split. lia.
    + split.
      * intros [Hunknown | (target' & Htarget & Hasks & Hoff & Hfive)];
          [discriminate Hunknown |].
        injection Htarget as <-. rewrite Hasks, Hoff in Hguard. cbn [negb andb] in Hguard.
        lia.
      * intros _.
        pose proof (recalcTeamFouls_consistent
                      (set_players_of team
                         (map (fun p =>
                                 if String.eqb (Player.id p) playerId
                                 then p |> Player.set_name
                                             (JS.nullish (PlayerUpdates.name updates)
                                                (Player.name p))
                                        |> Player.set_number
                                             (JS.nullish (PlayerUpdates.number updates)
                                                (Player.number p))
                                        |> Player.set_onCourt
                                             (JS.nullish (PlayerUpdates.onCourt updates)
                                                (Player.onCourt p))
                                 else p) (players_of team payload)) payload) team)
          as Hsum.
        assert (Hplayers :
          forall l, players_of team (recalcTeamFouls (set_players_of team l payload) team)
                    = l)
          by (intros l; destruct team; reflexivity).
        split; [exact Hsum |]. split; [| apply Hplayers].
        unfold foulsConsistent in Hsum. rewrite Hsum, Hplayers.
        apply sumFls_map. intros p.
        destruct (String.eqb (Player.id p) playerId); reflexivity.
Qed.

Lemma C2_team_fouls_recomputed_witness :
  foulsConsistent A (reducer 0 afterTeamFoul (INC_PLAYER_STAT A "A-0-0" Stat.fls None))
  /\ Team.fouls (team_of A (Payload.state reboundAfterTeamFoul)) = 1.
Proof.
  destruct (C2_team_fouls_recomputed 0 afterTeamFoul A "A-0-0")
    as (Hfls & _ & _ & Hother & _).
  split; [apply Hfls |].
  destruct (Hother Stat.reb None ltac:(discriminate)) as [H _]. exact H.
Defined.

(** C2, as stated, fails: after the referee's team foul the counter of team A
    is 1 and no player has a foul; a rebound (INC_PLAYER_STAT on [reb]) does
    not recompute it. *)
Lemma C2_counter_not_recomputed :
  Team.fouls (State.teamA (Payload.state reboundAfterTeamFoul)) = 1
  /\ sumFls (players_of A reboundAfterTeamFoul) = 0
  /\ ~ foulsConsistent A reboundAfterTeamFoul.
Proof.
  split; [reflexivity |]. split; [reflexivity |].
  unfold foulsConsistent. cbn. discriminate.
Qed.

(** ** C3: fouled-out players *)

(** The guard the sibling branches have: INC_PLAYER_STAT returns a fouled-out
    player as it is, and SET_PLAYER_ON_COURT returns the snapshot as it is
    when its target is fouled out. *)
Lemma fouledOut_guarded :
  forall (now : Z) (payload : PersistedPayload) (team : TeamId) (playerId : string)
         (target : Player.t),
    Player.fouledOut target = true ->
    (forall foulLimit stat amount,
        incPlayerStat foulLimit playerId stat amount target = target)
    /\ (find_player playerId (players_of team payload) = Some target ->
        forall onCourt,
          reducer now payload (SET_PLAYER_ON_COURT team playerId onCourt) = payload).
Proof.
  intros now payload team playerId target Hout. split.
  - intros foulLimit stat amount. unfold incPlayerStat. rewrite Hout.
    rewrite orb_true_r. reflexivity.
  - intros Hfind onCourt. cbn [reducer]. unfold reduce_SET_PLAYER_ON_COURT.
    rewrite Hfind, Hout. reflexivity.
Qed.

Lemma givenId_Some :
  forall id, id <> "" -> givenId (Some id) = Some id.
Proof.
  intros id Hid. unfold givenId, JS.truthy.
  destruct (String.eqb_spec id ""); [contradiction | reflexivity].
Qed.

Lemma creditPoints_id :
  forall id points p, Player.id (creditPoints id points p) = Player.id p.
Proof.
  intros id points p. unfold creditPoints.
  destruct (String.eqb (Player.id p) id); reflexivity.
Qed.

(** The players of the scoring team after an ADD_POINTS that names a player. *)
Lemma ADD_POINTS_credits :
  forall payload team points playerId id,
    State.gameFinal (Payload.state payload) = false ->
    points <> 0 ->
    givenId playerId = Some id ->
    players_of team (reduce_ADD_POINTS payload team points playerId)
    = map (creditPoints id points) (players_of team payload).
Proof.
  intros payload team points playerId id Hfinal Hpoints Hid. unfold reduce_ADD_POINTS.
  rewrite Hfinal. assert (Hnz : (points =? 0) = false) by (apply Z.eqb_neq; exact Hpoints).
  rewrite Hnz, Hid.
  rewrite (sameGame_players_of team _ _ (proj1 (autoHighlights_frame _ team id))).
  set (p1 := Payload.set_state _ payload).
  set (scored := set_players_of team _ p1).
  assert (Hscored : players_of team scored
                    = map (creditPoints id points) (players_of team payload))
    by (subst scored; rewrite players_of_set_players_of; reflexivity).
  rewrite <- Hscored. unfold players_of. f_equal.
  destruct (points >? 0); [| reflexivity].
  destruct (State.timingMode _); [destruct (State.gameClockRunning _) |]; reflexivity.
Qed.

(** C3: a fouled-out player is still changed by two branches of the reducer,
    which miss the guard their siblings have.  On a game that is not final,
    ADD_POINTS with the player's id adds the points to the player's [pts];
    and with fewer than five players on the court UPDATE_PLAYER with
    [onCourt: true] puts the player on the court, still fouled out. *)
Theorem C3_fouled_out_player_still_changes :
  forall (now : Z) (payload : PersistedPayload) (team : TeamId) (id : string)
         (target : Player.t),
    find_player id (players_of team payload) = Some target ->
    Player.fouledOut target = true ->
    (forall points,
        State.gameFinal (Payload.state payload) = false ->
        points <> 0 ->
        id <> "" ->
        exists target',
          find_player id
            (players_of team (reducer now payload (ADD_POINTS team points (Some id))))
          = Some target'
          /\ Player.pts target' = Player.pts target + points
          /\ Player.fouledOut target' = true)
    /\ (onCourtCount (players_of team payload) < 5 ->
        exists target',
          find_player id
            (players_of team
               (reducer now payload
                  (UPDATE_PLAYER team id (PlayerUpdates.mk None None (Some true)))))
          = Some target'
          /\ Player.onCourt target' = true
          /\ Player.fouledOut target' = true).
Proof.
  intros now payload team id target Hfind Hout.
  pose proof (find_player_id _ _ _ Hfind) as Hid. split.
  - intros points Hfinal Hpoints Hne. cbn [reducer].
    rewrite (ADD_POINTS_credits payload team points (Some id) id Hfinal Hpoints
               (givenId_Some id Hne)).
    rewrite find_player_map by apply creditPoints_id. rewrite Hfind. cbn [option_map].
    eexists. split; [reflexivity |].
    unfold creditPoints. rewrite Hid, String.eqb_refl. split; [reflexivity | exact Hout].
  - intros Hcount. cbn [reducer]. unfold reduce_UPDATE_PLAYER. rewrite Hfind.
    cbn [PlayerUpdates.onCourt PlayerUpdates.name PlayerUpdates.number JS.nullish].
    assert (Hguard : (onCourtCount (players_of team payload) >=? 5) = false)
      by (rewrite Z.geb_leb; apply Z.leb_gt; exact Hcount).
    rewrite Hguard, andb_false_r.
    unfold players_of at 1. rewrite recalcTeamFouls_players.
    fold (players_of team (set_players_of team
      (map (fun p => if String.eqb (Player.id p) id
                     then Player.set_onCourt true
                            (Player.set_number (Player.number p)
                               (Player.set_name (Player.name p) p))
                     else p) (players_of team payload)) payload)).
    rewrite players_of_set_players_of.
    rewrite find_player_map
      by (intros p; destruct (String.eqb (Player.id p) id); reflexivity).
    rewrite Hfind. cbn [option_map]. rewrite Hid, String.eqb_refl.
    eexists. split; [reflexivity |]. split; [reflexivity | exact Hout].
Qed.

(** The failing input: the first player of team A, fouled out after five
    fouls and on the bench, then scores two points, and is put back on the
    court. *)
Lemma C3_fouled_out_player_still_changes_witness :
  let target payload := find_player "A-0-0" (players_of A payload) in
  let scored := reducer 0 fiveFouls (ADD_POINTS A 2 (Some "A-0-0")) in
  let returned :=
    reducer 0 fiveFouls
      (UPDATE_PLAYER A "A-0-0" (PlayerUpdates.mk None None (Some true))) in
  target fiveFouls = Some fouledOutPlayer
  /\ Player.fouledOut fouledOutPlayer = true
  /\ Player.onCourt fouledOutPlayer = false
  /\ Player.pts fouledOutPlayer = 0
  /\ option_map Player.pts (target scored) = Some 2
  /\ option_map Player.onCourt (target returned) = Some true
  /\ option_map Player.fouledOut (target returned) = Some true.
Proof.
  assert (Hfind : find_player "A-0-0" (players_of A fiveFouls) = Some fouledOutPlayer)
    by (vm_compute; reflexivity).
  assert (Hout : Player.fouledOut fouledOutPlayer = true) by (vm_compute; reflexivity).
  assert (Hlive : State.gameFinal (Payload.state fiveFouls) = false)
    by (vm_compute; reflexivity).
  destruct (C3_fouled_out_player_still_changes 0 fiveFouls A "A-0-0" fouledOutPlayer
              Hfind Hout) as [Hadd Hupd].
  destruct (Hadd 2 Hlive ltac:(discriminate) ltac:(discriminate))
    as (scorer & Hs & Hpts & _).
  destruct (Hupd ltac:(vm_compute; reflexivity)) as (back & Hb & Hon & Hfo).
  cbv beta zeta. rewrite Hs, Hb. cbn [option_map]. rewrite Hpts, Hon, Hfo.
  split; [exact Hfind |]. split; [exact Hout |].
  split; [vm_compute; reflexivity |]. split; [vm_compute; reflexivity |].
  split; [vm_compute; reflexivity |]. split; reflexivity.
Defined.

(** ** C4: scoring *)

(** C4 (amended): Scenario A holds as stated.  In general ADD_POINTS returns
    the snapshot as it is when the game is final or the points are zero.
    Otherwise the team's score becomes the old score plus the points, and at
    least zero; every player of the team with the given id gets the points,
    and one more three-pointer made when the points are 3; the other team and
    its players are untouched.  Only when the points are positive is the
    scoring entry logged (possibly below one highlight entry), the possession
    given to the other team, the shot clock reset to its default and the
    violation cleared; with negative points the possession, the shot clock
    and the violation stay as they are, and so does the log, but for one
    entry of a highlight detector that may be put first: the scoring entry is
    not logged, and while a highlight is shown or the cooldown runs the log is
    the old one. *)
Theorem C4_add_points :
  (let q := reducer 0 (defaultPayload 0) (ADD_POINTS A 3 (Some "A-0-0")) in
   Team.score (State.teamA (Payload.state q)) = 3
   /\ option_map Player.pts (find_player "A-0-0" (players_of A q)) = Some 3
   /\ option_map Player.tpm (find_player "A-0-0" (players_of A q)) = Some 1
   /\ State.possession (Payload.state q) = B
   /\ State.shotClockSeconds (Payload.state q) = 24
   /\ Payload.actionLog q = ["[Q1 - 10:00] Player A1 #1 hits 3 for Home (3 pts)"])
  /\ forall (now : Z) (payload : PersistedPayload) (team : TeamId) (points : Z)
            (playerId : option string),
       let st := Payload.state payload in
       let q := reducer now payload (ADD_POINTS team points playerId) in
       let nextScore := Z.max 0 (Team.score (team_of team st) + points) in
       let credited :=
         match givenId playerId with
         | Some id => map (creditPoints id points) (players_of team payload)
         | None => players_of team payload
         end in
       let scored :=
         let rescored :=
           payload |> Payload.set_state
             (st |> set_team_of team (team_of team st |> Team.set_score nextScore)) in
         match givenId playerId with
         | Some _ => rescored |> set_players_of team credited
         | None => rescored
         end in
       (State.gameFinal st = true \/ points = 0 -> q = payload)
       /\ (State.gameFinal st = false -> points <> 0 ->
           Team.score (team_of team (Payload.state q)) = nextScore
           /\ team_of (other team) (Payload.state q) = team_of (other team) st
           /\ players_of team q = credited
           /\ players_of (other team) q = players_of (other team) payload
           /\ (0 < points ->
               State.possession (Payload.state q) = other team
               /\ State.shotClockSeconds (Payload.state q) = State.shotClockDefault st
               /\ State.shotViolation (Payload.state q) = false
               /\ let scoredLog :=
                    JS.slice0 250
                      (logEntry payload (scoringText scored team points playerId)
                         :: Payload.actionLog payload) in
                  Payload.actionLog q = scoredLog
                  \/ exists entry, Payload.actionLog q = JS.slice0 250 (entry :: scoredLog))
           /\ (points < 0 ->
               State.possession (Payload.state q) = State.possession st
               /\ State.shotClockSeconds (Payload.state q) = State.shotClockSeconds st
               /\ State.shotViolation (Payload.state q) = State.shotViolation st
               /\ highlightLogged payload q
               /\ (canAutoHighlight payload = false ->
                   Payload.actionLog q = Payload.actionLog payload))).
Proof.
  split; [vm_compute; repeat split |].
  intros now payload team points playerId st q nextScore credited scored.
  subst q. cbn [reducer]. unfold reduce_ADD_POINTS. fold st. split.
  - intros [Hfinal | ->].
    + rewrite Hfinal. reflexivity.
    + destruct (State.gameFinal st); reflexivity.
  - intros Hfinal Hpoints. rewrite Hfinal.
    assert (Hnz : (points =? 0) = false) by (apply Z.eqb_neq; exact Hpoints).
    rewrite Hnz. fold nextScore.
    set (p1 := Payload.set_state _ payload).
    assert (Hscored :
      match givenId playerId with
      | Some id => set_players_of team (map (creditPoints id points) (players_of team p1)) p1
      | None => p1
      end = scored).
    { unfold scored, credited, p1. destruct (givenId playerId); reflexivity. }
    rewrite Hscored. clear Hscored.
    assert (Hscore : Team.score (team_of team (Payload.state scored)) = nextScore)
      by (unfold scored; destruct (givenId playerId); destruct team; reflexivity).
    assert (Hother : team_of (other team) (Payload.state scored) = team_of (other team) st)
      by (unfold scored; destruct (givenId playerId); destruct team; reflexivity).
    assert (Hquarter : State.quarter (Payload.state scored) = State.quarter st)
      by (unfold scored; destruct (givenId playerId); destruct team; reflexivity).
    assert (Hclock : State.gameClockSeconds (Payload.state scored) = State.gameClockSeconds st)
      by (unfold scored; destruct (givenId playerId); destruct team; reflexivity).
    assert (Hlog0 : Payload.actionLog scored = Payload.actionLog payload)
      by (unfold scored; destruct (givenId playerId); reflexivity).
    assert (Hplayers : players_of team scored = credited)
      by (unfold scored, credited; destruct (givenId playerId);
          [apply players_of_set_players_of | reflexivity]).
    assert (Hplayers' : players_of (other team) scored = players_of (other team) payload)
      by (unfold scored; destruct (givenId playerId); destruct team; reflexivity).
    match goal with
    | |- context [if points >? 0 then ?x else scored] =>
        set (p3 := if points >? 0 then x else scored)
    end.
    destruct (sameGame_ADD_POINTS_tail p3 team playerId) as [Hsame Hlog].
    pose proof (highlightLogged_ADD_POINTS_tail p3 team playerId) as Hauto.
    pose proof (closed_ADD_POINTS_tail p3 team playerId) as Hquiet.
    cbv zeta in Hsame, Hlog.
    set (q := maybeAutoTeamComparison _) in *.
    rewrite (sameGame_team_of team _ _ Hsame), (sameGame_team_of (other team) _ _ Hsame),
      (sameGame_players_of team _ _ Hsame), (sameGame_players_of (other team) _ _ Hsame),
      (sameGame_field _ State.possession (fun _ => eq_refl) _ _ Hsame),
      (sameGame_field _ State.shotClockSeconds (fun _ => eq_refl) _ _ Hsame),
      (sameGame_field _ State.shotViolation (fun _ => eq_refl) _ _ Hsame).
    assert (Hp3 :
      team_of team (Payload.state p3) = team_of team (Payload.state scored)
      /\ team_of (other team) (Payload.state p3) = team_of (other team) (Payload.state scored)
      /\ Payload.players p3 = Payload.players scored).
    { subst p3. destruct (points >? 0); [| repeat split].
      destruct (State.timingMode _); [destruct (State.gameClockRunning _) |];
        destruct team; repeat split. }
    destruct Hp3 as (Ht & Ht' & Hpl).
    rewrite Ht, Ht', Hscore, Hother. unfold players_of at 1 2. rewrite Hpl.
    fold (players_of team scored). fold (players_of (other team) scored).
    rewrite Hplayers, Hplayers'.
    split; [reflexivity |]. split; [reflexivity |].
    split; [reflexivity |]. split; [reflexivity |]. split.
    + intros Hpos.
      assert (Hgt : (points >? 0) = true) by (apply Z.gtb_lt; lia).
      subst p3. rewrite Hgt in *.
      assert (Hlogscored :
        forall r, Payload.actionLog r
                  = Payload.actionLog
                      (withActionLog scored (scoringText scored team points playerId)) ->
        Payload.actionLog r
        = JS.slice0 250
            (logEntry payload (scoringText scored team points playerId)
               :: Payload.actionLog payload)).
      { intros r ->. unfold withActionLog, logEntry.
        cbn [Payload.actionLog Payload.set_actionLog].
        rewrite Hquarter, Hclock, Hlog0. reflexivity. }
      set (p3 := match State.timingMode _ with NBA => _ | FIBA => _ end) in *.
      assert (Hfacts :
        State.possession (Payload.state p3) = other team
        /\ State.shotClockSeconds (Payload.state p3) = State.shotClockDefault st
        /\ State.shotViolation (Payload.state p3) = false
        /\ Payload.actionLog p3
           = Payload.actionLog
               (withActionLog scored (scoringText scored team points playerId))).
      { subst p3.
        assert (Hd : State.shotClockDefault (Payload.state scored) = State.shotClockDefault st)
          by (unfold scored; destruct (givenId playerId); destruct team; reflexivity).
        rewrite <- Hd.
        destruct (State.timingMode _); [destruct (State.gameClockRunning _) |];
          repeat split. }
      destruct Hfacts as (H1 & H2 & H3 & H4).
      split; [exact H1 |]. split; [exact H2 |]. split; [exact H3 |].
      cbv zeta. destruct Hlog as [Hlog | [entry Hlog]].
      * left. rewrite Hlog. apply Hlogscored. exact H4.
      * right. exists entry. rewrite Hlog. f_equal. f_equal. apply Hlogscored. exact H4.
    + intros Hneg.
      assert (Hgt : (points >? 0) = false) by (rewrite Z.gtb_ltb; apply Z.ltb_ge; lia).
      assert (Hp3 : p3 = scored) by (subst p3; rewrite Hgt; reflexivity).
      rewrite Hp3 in Hauto, Hquiet |- *.
      split; [| split; [| split; [| split]]];
        try (unfold scored; destruct (givenId playerId); destruct team; reflexivity).
      * destruct Hauto as [Hsame_log | [text Hentry]].
        -- left. rewrite Hsame_log. exact Hlog0.
        -- right. exists text. rewrite Hentry. unfold logEntry.
           rewrite Hquarter, Hclock, Hlog0. reflexivity.
      * intros Hclosed. rewrite Hquiet; [exact Hlog0 |].
        rewrite <- Hclosed. unfold scored.
        destruct (givenId playerId); destruct team; reflexivity.
Qed.

Lemma C4_add_points_witness :
  let q := reducer 0 (defaultPayload 0) (ADD_POINTS A 3 (Some "A-0-0")) in
  State.possession (Payload.state q) = B
  /\ State.shotClockSeconds (Payload.state q) = 24.
Proof.
  destruct C4_add_points as [_ Hgen].
  destruct (Hgen 0 (defaultPayload 0) A 3 (Some "A-0-0")) as [_ H].
  destruct (H eq_refl ltac:(discriminate)) as (_ & _ & _ & _ & Hpos & _).
  destruct (Hpos ltac:(lia)) as (H1 & H2 & _).
  split; assumption.
Defined.

(** C4, as stated, fails: with negative points the score is kept at zero but
    no entry is logged and the possession is not flipped (and the player's
    points go below zero); on a final game nothing happens at all. *)
Lemma C4_no_flip_without_a_basket :
  let q := reducer 0 (defaultPayload 0) (ADD_POINTS A (-2) (Some "A-0-0")) in
  let final := reducer 0 (defaultPayload 0) FINISH_GAME in
  Team.score (State.teamA (Payload.state q)) = 0
  /\ option_map Player.pts (find_player "A-0-0" (players_of A q)) = Some (-2)
  /\ Payload.actionLog q = []
  /\ State.possession (Payload.state q) = A
  /\ State.possession (Payload.state (defaultPayload 0)) = A
  /\ reducer 0 final (ADD_POINTS A 3 (Some "A-0-0")) = final.
Proof. vm_compute. repeat split. Qed.

(** ** C5: the end of a quarter *)

(** C5: with no overlay active, a TICK that brings the running game clock to
    zero (at most one second was left) advances the quarter when it is not
    the last one: both clocks are set to their configured full values, the
    shot-clock violation is cleared and both clocks are stopped.  In the last
    quarter the quarter stays, the game clock shows zero, both clocks are
    stopped and [gameFinal] is set.  Scenario C is the instance on the default
    snapshot with the clock running at one second. *)
Theorem C5_tick_quarter_end :
  forall (now : Z) (payload : PersistedPayload),
    let st := Payload.state payload in
    let st' := Payload.state (reducer now payload TICK) in
    State.overlayMode st = None ->
    State.gameClockRunning st = true ->
    State.gameClockSeconds st <= 1 ->
    (State.quarter st < State.totalQuarters st ->
       State.quarter st' = State.quarter st + 1
       /\ State.gameClockSeconds st' = State.quarterLengthMinutes st * 60
       /\ State.shotClockSeconds st' = State.shotClockDefault st
       /\ State.shotViolation st' = false
       /\ State.gameClockRunning st' = false
       /\ State.shotClockRunning st' = false
       /\ State.gameFinal st' = State.gameFinal st)
    /\ (State.totalQuarters st <= State.quarter st ->
       State.gameFinal st' = true
       /\ State.quarter st' = State.quarter st
       /\ State.gameClockSeconds st' = 0
       /\ State.gameClockRunning st' = false
       /\ State.shotClockRunning st' = false).
Proof.
  intros now payload st st' Hov Hrun Hsec.
  subst st'. cbn [reducer]. unfold reduce_TICK. fold st.
  rewrite Hov, Hrun.
  assert (Hz : Z.max 0 (State.gameClockSeconds st - 1) = 0) by lia.
  rewrite Hz. cbn [andb Z.eqb Z.gtb Z.compare].
  split; intros Hq.
  - assert (Hlt : (State.quarter st <? State.totalQuarters st) = true)
      by (apply Z.ltb_lt; exact Hq).
    rewrite Hlt. cbn. repeat split; reflexivity.
  - assert (Hlt : (State.quarter st <? State.totalQuarters st) = false)
      by (apply Z.ltb_ge; exact Hq).
    assert (Hge : (State.quarter st >=? State.totalQuarters st) = true)
      by (apply Z.geb_le; exact Hq).
    rewrite Hlt, Hge. cbn. repeat split; reflexivity.
Qed.

Lemma C5_tick_quarter_end_witness :
  let st' := Payload.state (reducer 0 scenarioC TICK) in
  State.quarter st' = 2
  /\ State.gameClockSeconds st' = 600
  /\ State.shotClockSeconds st' = 24
  /\ State.gameClockRunning st' = false
  /\ State.shotClockRunning st' = false.
Proof.
  destruct (C5_tick_quarter_end 0 scenarioC eq_refl eq_refl ltac:(cbn; lia))
    as [Hadv _].
  destruct (Hadv ltac:(cbn; lia)) as (Hq & Hg & Hs & _ & Hgr & Hsr & _).
  repeat split; assumption.
Defined.

(** ** C6: overlays *)

(** A TICK that finds at most one second left on an active overlay ends it:
    the snapshot is [endOverlay] of the ticked one. *)
Lemma tick_ends_overlay :
  forall (payload : PersistedPayload) (mode : OverlayMode),
    State.overlayMode (Payload.state payload) = Some mode ->
    State.overlayRemainingSeconds (Payload.state payload) <= 1 ->
    exists ticked,
      reduce_TICK payload = endOverlay ticked
      /\ State.overlayMode (Payload.state ticked) = Some mode
      /\ State.overlayResumeGame (Payload.state ticked)
         = State.overlayResumeGame (Payload.state payload)
      /\ State.gameClockRunning (Payload.state ticked)
         = State.gameClockRunning (Payload.state payload)
      /\ State.shotClockRunning (Payload.state ticked)
         = State.shotClockRunning (Payload.state payload)
      /\ State.quarter (Payload.state ticked) = State.quarter (Payload.state payload)
      /\ State.totalQuarters (Payload.state ticked)
         = State.totalQuarters (Payload.state payload).
Proof.
  intros payload mode Hmode Hrem. unfold reduce_TICK. rewrite Hmode.
  assert (Hz : Z.max 0 (State.overlayRemainingSeconds (Payload.state payload) - 1) = 0)
    by lia.
  rewrite Hz. cbn [Z.leb Z.compare].
  eexists. split; [reflexivity |]. cbn. repeat split; assumption || reflexivity.
Qed.

(** What [endOverlay] does to the running flags and to the quarter. *)
Lemma endOverlay_timeout :
  forall payload : PersistedPayload,
    State.overlayMode (Payload.state payload) = Some timeout ->
    let st := Payload.state payload in
    let st' := Payload.state (endOverlay payload) in
    State.overlayMode st' = None
    /\ State.gameClockRunning st' = State.overlayResumeGame st
    /\ State.shotClockRunning st' = State.overlayResumeGame st
    /\ State.quarter st' = State.quarter st.
Proof.
  intros payload Hmode. unfold endOverlay. rewrite Hmode. cbn. repeat split.
Qed.

Lemma endOverlay_halftime :
  forall payload : PersistedPayload,
    State.overlayMode (Payload.state payload) = Some halftime ->
    let st := Payload.state payload in
    let st' := Payload.state (endOverlay payload) in
    State.overlayMode st' = None
    /\ State.gameClockRunning st' = State.gameClockRunning st
    /\ State.shotClockRunning st' = State.shotClockRunning st
    /\ State.quarter st'
       = if (State.quarter st =? 2) && (State.totalQuarters st >=? 3)
         then 3 else State.quarter st.
Proof.
  intros payload Hmode. unfold endOverlay. rewrite Hmode. cbn.
  destruct ((State.quarter (Payload.state payload) =? 2)
            && (State.totalQuarters (Payload.state payload) >=? 3));
    cbn; repeat split.
Qed.

(** C6 (amended): opening a timeout stops both clocks and records, in
    [overlayResumeGame], whether the game clock was running.  When a timeout
    overlay ends, by dismissal or by its countdown, both running flags are set
    to that one recorded flag: the game clock returns to its state from before
    the overlay and the shot clock follows the game clock, whatever its own
    state was.  When a halftime overlay ends the running flags stay as they
    are and the quarter goes from 2 to 3 when [totalQuarters] is at least 3. *)
Theorem C6_overlay_end :
  forall (now : Z) (payload : PersistedPayload),
    let st := Payload.state payload in
    (forall team seconds,
        let o := Payload.state (reducer now payload (OPEN_TIMEOUT team seconds)) in
        State.overlayMode o = Some timeout
        /\ State.overlayResumeGame o = State.gameClockRunning st
        /\ State.gameClockRunning o = false
        /\ State.shotClockRunning o = false)
    /\ (forall action,
        overlayEnds payload action ->
        let st' := Payload.state (reducer now payload action) in
        (State.overlayMode st = Some timeout ->
           State.overlayMode st' = None
           /\ State.gameClockRunning st' = State.overlayResumeGame st
           /\ State.shotClockRunning st' = State.overlayResumeGame st
           /\ State.quarter st' = State.quarter st)
        /\ (State.overlayMode st = Some halftime ->
           State.overlayMode st' = None
           /\ State.gameClockRunning st' = State.gameClockRunning st
           /\ State.shotClockRunning st' = State.shotClockRunning st
           /\ State.quarter st'
              = if (State.quarter st =? 2) && (State.totalQuarters st >=? 3)
                then 3 else State.quarter st)).
Proof.
  intros now payload st. split.
  - intros team seconds. destruct team; cbn; repeat split.
  - intros action [[manual ->] | [-> Hrem]]; cbn [reducer].
    + split; intros Hmode.
      * apply endOverlay_timeout; exact Hmode.
      * apply endOverlay_halftime; exact Hmode.
    + split; intros Hmode.
      * destruct (tick_ends_overlay payload timeout Hmode Hrem)
          as (ticked & -> & Hm & Hr & _ & _ & Hq & _).
        destruct (endOverlay_timeout ticked Hm) as (H1 & H2 & H3 & H4).
        fold st in Hr, Hq. rewrite <- Hr, <- Hq. repeat split; assumption.
      * destruct (tick_ends_overlay payload halftime Hmode Hrem)
          as (ticked & -> & Hm & _ & Hg & Hs & Hq & Ht).
        destruct (endOverlay_halftime ticked Hm) as (H1 & H2 & H3 & H4).
        fold st in Hg, Hs, Hq, Ht. rewrite <- Hg, <- Hs, <- Hq, <- Ht.
        repeat split; assumption.
Qed.

Lemma C6_overlay_end_witness :
  State.overlayMode (Payload.state duringTimeout) = Some timeout
  /\ State.overlayResumeGame (Payload.state duringTimeout) = true
  /\ State.gameClockRunning
       (Payload.state (reducer 0 duringTimeout (END_OVERLAY None))) = true
  /\ State.shotClockRunning
       (Payload.state (reducer 0 duringTimeout (END_OVERLAY None))) = true.
Proof.
  destruct (C6_overlay_end 0 duringTimeout) as [_ Hend].
  destruct (Hend (END_OVERLAY None) (or_introl (ex_intro _ None eq_refl)))
    as [Htimeout _].
  destruct (Htimeout eq_refl) as (_ & Hg & Hs & _).
  repeat split; assumption.
Defined.

(** C6, as stated, fails for the shot clock: before the timeout the game clock
    runs and the shot clock is stopped; after the timeout the shot clock
    runs. *)
Lemma C6_shot_clock_not_restored :
  State.gameClockRunning (Payload.state beforeTimeout) = true
  /\ State.shotClockRunning (Payload.state beforeTimeout) = false
  /\ State.overlayMode (Payload.state duringTimeout) = Some timeout
  /\ State.shotClockRunning
       (Payload.state (reducer 0 duringTimeout (END_OVERLAY None)))
     <> State.shotClockRunning (Payload.state beforeTimeout).
Proof.
  repeat split; try reflexivity. cbn. discriminate.
Qed.

(** ** C7: the player-milestone highlight *)

Lemma maxStat_from_ge :
  forall k l acc,
    acc <= fold_left (fun max p => Z.max max (Tracked.value k p)) l acc
    /\ forall o, In o l ->
         Tracked.value k o <= fold_left (fun max p => Z.max max (Tracked.value k p)) l acc.
Proof.
  intros k. induction l as [| x l IH]; intros acc; cbn [fold_left].
  - split; [lia | intros o []].
  - destruct (IH (Z.max acc (Tracked.value k x))) as [Hacc Hall]. split; [lia |].
    intros o [<- | Hin]; [lia | apply Hall; exact Hin].
Qed.

(** [maxStat] bounds the stat of every player. *)
Lemma maxStat_ge :
  forall k l o, In o l -> Tracked.value k o <= maxStat k l.
Proof. intros k l o Hin. apply (maxStat_from_ge k l 0). exact Hin. Qed.

(** A block of [maybeAutoPlayerHighlight] either passes to the blocks after
    it or fires for its stat. *)
Lemma milestoneBlock_inv :
  forall p team playerId player k rest,
    milestoneBlock p team playerId player k rest = rest
    \/ exists next,
         milestoneBlock p team playerId player k rest = next
         /\ showAutoPlayerHighlight p team playerId (Tracked.reason k player)
              (milestoneKey team player k
                 (highestMilestone (Tracked.value k player) (Tracked.milestones k)))
            = Some next
         /\ 0 < highestMilestone (Tracked.value k player) (Tracked.milestones k)
         /\ Tracked.value k player = maxStat k (allPlayers p).
Proof.
  intros p team playerId player k rest. unfold milestoneBlock.
  destruct (highestMilestone (Tracked.value k player) (Tracked.milestones k) >? 0) eqn:Hm;
    [| left; reflexivity].
  destruct (Tracked.value k player =? maxStat k (allPlayers p)) eqn:Hmax;
    [| left; reflexivity].
  cbn [andb].
  destruct (showAutoPlayerHighlight _ _ _ _ _) as [next |] eqn:Hshow; [| left; reflexivity].
  right. exists next. repeat split.
  - apply Z.gtb_lt in Hm. lia.
  - apply Z.eqb_eq. exact Hmax.
Qed.

(** C7 (amended): when the player-milestone highlight fires, (a) no
    star-player or team-comparison highlight was showing, (b) the cooldown was
    at zero (or below), (c) the player's value of the stat that fired has
    reached a milestone and equals the maximum of that stat over all the
    players of the game, so no player has more - a tie for the maximum does
    not suppress the highlight - and (d) the key of team, player, stat and
    milestone was not among the seen keys.  The snapshot after it has the key
    first among the seen keys, the cooldown at 22 seconds and the highlight
    showing for 10 seconds. *)
Theorem C7_player_highlight_fires_only_if :
  forall (payload : PersistedPayload) (team : TeamId) (playerId : string),
    let q := maybeAutoPlayerHighlight payload team playerId in
    q <> payload ->
    State.tvStarPlayer (Payload.state payload) = None
    /\ State.tvTeamComparison (Payload.state payload) = None
    /\ State.tvAutoCooldownSeconds (Payload.state payload) <= 0
    /\ exists (player : Player.t) (k : Tracked.t),
         let milestone := highestMilestone (Tracked.value k player) (Tracked.milestones k) in
         let key := milestoneKey team player k milestone in
         find_player playerId (players_of team payload) = Some player
         /\ 0 < milestone
         /\ Tracked.value k player = maxStat k (allPlayers payload)
         /\ (forall o, In o (allPlayers payload) -> Tracked.value k o <= Tracked.value k player)
         /\ ~ In key (State.tvAutoSeen (Payload.state payload))
         /\ State.tvAutoSeen (Payload.state q)
            = JS.slice0 400
                (key :: filter (fun item => negb (String.eqb item key))
                               (State.tvAutoSeen (Payload.state payload)))
         /\ State.tvAutoCooldownSeconds (Payload.state q) = HIGHLIGHT_COOLDOWN_SECONDS
         /\ State.tvStarPlayer (Payload.state q)
            = Some (StarPlayer.mk team playerId PLAYER_HIGHLIGHT_SECONDS
                      (Some (Tracked.reason k player)) (Some true)).
Proof.
  intros payload team playerId q Hq. subst q. revert Hq.
  unfold maybeAutoPlayerHighlight.
  destruct (find_player playerId (players_of team payload)) as [player |] eqn:Hfind;
    [| intros Hq; contradiction Hq; reflexivity].
  assert (Hfired :
    forall k next,
      showAutoPlayerHighlight payload team playerId (Tracked.reason k player)
        (milestoneKey team player k
           (highestMilestone (Tracked.value k player) (Tracked.milestones k)))
      = Some next ->
      0 < highestMilestone (Tracked.value k player) (Tracked.milestones k) ->
      Tracked.value k player = maxStat k (allPlayers payload) ->
      State.tvStarPlayer (Payload.state payload) = None
      /\ State.tvTeamComparison (Payload.state payload) = None
      /\ State.tvAutoCooldownSeconds (Payload.state payload) <= 0
      /\ exists (player0 : Player.t) (k0 : Tracked.t),
           let milestone :=
             highestMilestone (Tracked.value k0 player0) (Tracked.milestones k0) in
           let key := milestoneKey team player0 k0 milestone in
           Some player = Some player0
           /\ 0 < milestone
           /\ Tracked.value k0 player0 = maxStat k0 (allPlayers payload)
           /\ (forall o, In o (allPlayers payload) ->
                 Tracked.value k0 o <= Tracked.value k0 player0)
           /\ ~ In key (State.tvAutoSeen (Payload.state payload))
           /\ State.tvAutoSeen (Payload.state next)
              = JS.slice0 400
                  (key :: filter (fun item => negb (String.eqb item key))
                                 (State.tvAutoSeen (Payload.state payload)))
           /\ State.tvAutoCooldownSeconds (Payload.state next) = HIGHLIGHT_COOLDOWN_SECONDS
           /\ State.tvStarPlayer (Payload.state next)
              = Some (StarPlayer.mk team playerId PLAYER_HIGHLIGHT_SECONDS
                        (Some (Tracked.reason k0 player0)) (Some true))).
  { intros k next Hshow Hm Hmax.
    destruct (showAutoPlayerHighlight_fires _ _ _ _ _ _ Hshow)
      as (Hgate & Hnew & _ & Hseen & Hcool & Hstar & _ & _).
    unfold canAutoHighlight in Hgate.
    destruct (State.tvStarPlayer (Payload.state payload)); [discriminate |].
    destruct (State.tvTeamComparison (Payload.state payload)); [discriminate |].
    split; [reflexivity |]. split; [reflexivity |].
    split; [apply Z.leb_le; exact Hgate |].
    exists player, k. cbv zeta. repeat split; try assumption.
    - intros o Hin. rewrite Hmax. apply maxStat_ge. exact Hin.
    - intros Hin. apply includes_In in Hin. congruence. }
  destruct (milestoneBlock_inv payload team playerId player Tracked.pts
              (milestoneBlock payload team playerId player Tracked.reb
              (milestoneBlock payload team playerId player Tracked.stl
              (milestoneBlock payload team playerId player Tracked.blk
              (milestoneBlock payload team playerId player Tracked.tpm payload)))))
    as [-> | (next & -> & Hshow & Hm & Hmax)];
    [| intros _; exact (Hfired _ _ Hshow Hm Hmax)].
  destruct (milestoneBlock_inv payload team playerId player Tracked.reb
              (milestoneBlock payload team playerId player Tracked.stl
              (milestoneBlock payload team playerId player Tracked.blk
              (milestoneBlock payload team playerId player Tracked.tpm payload))))
    as [-> | (next & -> & Hshow & Hm & Hmax)];
    [| intros _; exact (Hfired _ _ Hshow Hm Hmax)].
  destruct (milestoneBlock_inv payload team playerId player Tracked.stl
              (milestoneBlock payload team playerId player Tracked.blk
              (milestoneBlock payload team playerId player Tracked.tpm payload)))
    as [-> | (next & -> & Hshow & Hm & Hmax)];
    [| intros _; exact (Hfired _ _ Hshow Hm Hmax)].
  destruct (milestoneBlock_inv payload team playerId player Tracked.blk
              (milestoneBlock payload team playerId player Tracked.tpm payload))
    as [-> | (next & -> & Hshow & Hm & Hmax)];
    [| intros _; exact (Hfired _ _ Hshow Hm Hmax)].
  destruct (milestoneBlock_inv payload team playerId player Tracked.tpm payload)
    as [-> | (next & -> & Hshow & Hm & Hmax)];
    [| intros _; exact (Hfired _ _ Hshow Hm Hmax)].
  intros Hq. contradiction Hq. reflexivity.
Qed.

Lemma C7_player_highlight_fires_only_if_witness :
  maybeAutoPlayerHighlight soleLeaderAtTen A "A-0-0" <> soleLeaderAtTen
  /\ State.tvStarPlayer (Payload.state soleLeaderAtTen) = None
  /\ State.tvAutoCooldownSeconds (Payload.state soleLeaderAtTen) <= 0.
Proof.
  assert (Hfires : maybeAutoPlayerHighlight soleLeaderAtTen A "A-0-0" <> soleLeaderAtTen).
  { intros H.
    apply (f_equal (fun p => State.tvAutoCooldownSeconds (Payload.state p))) in H.
    vm_compute in H. discriminate. }
  destruct (C7_player_highlight_fires_only_if soleLeaderAtTen A "A-0-0" Hfires)
    as (Hstar & _ & Hcool & _).
  split; [exact Hfires |]. split; [exact Hstar | exact Hcool].
Defined.

(** C7, as stated, fails on a tie: the first two players of team A both have
    ten points, the most in the game, no highlight shows and the cooldown is
    over; the detector fires for the second player, and so does the reducer
    on that player's next stat. *)
Lemma C7_fires_on_a_tie :
  option_map Player.pts (find_player "A-0-0" (players_of A tiedAtTen)) = Some 10
  /\ option_map Player.pts (find_player "A-1-0" (players_of A tiedAtTen)) = Some 10
  /\ maxStat Tracked.pts (allPlayers tiedAtTen) = 10
  /\ canAutoHighlight tiedAtTen = true
  /\ State.tvStarPlayer
       (Payload.state (maybeAutoPlayerHighlight tiedAtTen A "A-1-0"))
     = Some (StarPlayer.mk A "A-1-0" 10 (Some "High Scorer 10 PTS") (Some true))
  /\ State.tvStarPlayer
       (Payload.state (reducer 0 tiedAtTen (INC_PLAYER_STAT A "A-1-0" Stat.ast None)))
     = Some (StarPlayer.mk A "A-1-0" 10 (Some "High Scorer 10 PTS") (Some true))
  /\ State.tvAutoSeen (Payload.state (maybeAutoPlayerHighlight tiedAtTen A "A-1-0"))
     = ["player:A:A-1-0:pts:10"; "player:A:A-0-0:pts:10"].
Proof. vm_compute. repeat split. Qed.

(** ** C8: the codec *)

Lemma mergeTeam_toJSON : forall base t, mergeTeam base (Team_toJSON t) = t.
Proof. intros base []. reflexivity. Qed.

Lemma mergeState_toJSON :
  forall base st,
    mergeState base (State_toJSON st) (State.teamA st) (State.teamB st) = st.
Proof. intros base []. reflexivity. Qed.

Lemma mergePlayer_toJSON :
  forall base p,
    Player.imageUrl base = None -> mergePlayer base (Player_toJSON p) = p.
Proof.
  intros base [] Hbase. unfold mergePlayer. cbn.
  destruct imageUrl; [reflexivity | rewrite Hbase; reflexivity].
Qed.

(** The default rosters carry no image. *)
Lemma createPlayerState_imageUrl :
  forall now players teamKey,
    Forall (fun p => Player.imageUrl p = None) (createPlayerState now players teamKey).
Proof.
  intros now players teamKey. unfold createPlayerState, JS.mapi.
  apply mapi_from_Forall. reflexivity.
Qed.

Lemma fallback_imageUrl :
  forall fallback idx,
    Forall (fun p => Player.imageUrl p = None) fallback ->
    Player.imageUrl (JS.nullish (nth_error fallback idx) (hd blankPlayer fallback)) = None.
Proof.
  intros fallback idx Hall.
  destruct (nth_error fallback idx) as [b |] eqn:Hnth; cbn [JS.nullish].
  - rewrite Forall_forall in Hall. apply Hall. eapply nth_error_In. exact Hnth.
  - destruct Hall; [reflexivity | assumption].
Qed.

Lemma normalizePlayers_toJSON :
  forall fallback l,
    Forall (fun p => Player.imageUrl p = None) fallback ->
    normalizePlayers (Some (map (fun p => Some (Player_toJSON p)) l)) fallback = Some l.
Proof.
  intros fallback l Hall. unfold normalizePlayers. generalize 0%nat.
  induction l as [| x l IH]; intros idx; cbn [map normalizePlayers_from].
  - reflexivity.
  - rewrite IH, mergePlayer_toJSON by (apply fallback_imageUrl; exact Hall).
    reflexivity.
Qed.

(** Reading back what [JSON.stringify] wrote gives the snapshot written. *)
Lemma parsePayload_stringify :
  forall now payload, parsePayload now (JSON_stringify payload) = Some payload.
Proof.
  intros now [st [pa pb] log at_]. unfold JSON_stringify, parsePayload.
  cbn [Payload_toJSON Wire.Payload.state Wire.Payload.players Wire.Payload.actionLog
       Wire.Payload.updatedAt Payload.state Payload.players Payload.actionLog
       Payload.updatedAt Players.A Players.B Wire.Players.A Wire.Players.B].
  assert (His : isState (Some (State_toJSON st)) = true) by reflexivity.
  rewrite His. cbn [negb].
  rewrite !normalizePlayers_toJSON by apply createPlayerState_imageUrl.
  cbn [State_toJSON Wire.State.teamA Wire.State.teamB JS.nullish].
  rewrite !mergeTeam_toJSON.
  change (Wire.State.mk _ _ _ _ _ _ _ _ _ _ _ _ _ _ _ _ _ _ _ _ _ _ _)
    with (State_toJSON st).
  rewrite mergeState_toJSON. reflexivity.
Qed.

(** C8 (amended): [savePayload] is total and writes, under both keys, the
    snapshot stamped with the time of the save; decoding what it wrote gives
    the snapshot back with [updatedAt] replaced by that time, and so the
    snapshot itself exactly when it already carried that time.  [parsePayload]
    is total and gives the absent result on a missing, empty or unparsable
    text, on a text for a falsy value and on a value that [isState]
    rejects. *)
Theorem C8_roundtrip_restamped :
  forall (savedAt readAt : Z) (payload : PersistedPayload) (localStorage : Storage),
    let stored := savePayload savedAt payload localStorage in
    parsePayload readAt (stored STORAGE_KEY_V5)
    = Some (payload |> Payload.set_updatedAt savedAt)
    /\ parsePayload readAt (stored STORAGE_KEY_V3)
       = Some (payload |> Payload.set_updatedAt savedAt)
    /\ loadLatestPayload readAt stored = (payload |> Payload.set_updatedAt savedAt)
    /\ (parsePayload readAt (stored STORAGE_KEY_V5) = Some payload
        <-> Payload.updatedAt payload = savedAt)
    /\ parsePayload readAt RawNull = None
    /\ parsePayload readAt RawEmpty = None
    /\ parsePayload readAt RawInvalid = None
    /\ parsePayload readAt RawFalsy = None
    /\ (forall parsed,
        isState (Wire.Payload.state parsed) = false ->
        parsePayload readAt (RawValue parsed) = None).
Proof.
  intros savedAt readAt payload localStorage stored.
  assert (H5 : stored STORAGE_KEY_V5 = JSON_stringify (Payload.set_updatedAt savedAt payload))
    by reflexivity.
  assert (H3 : stored STORAGE_KEY_V3 = JSON_stringify (Payload.set_updatedAt savedAt payload))
    by reflexivity.
  assert (P5 := parsePayload_stringify readAt (Payload.set_updatedAt savedAt payload)).
  split; [rewrite H5; exact P5 |].
  split; [rewrite H3; exact P5 |].
  split.
  { unfold loadLatestPayload. rewrite H5, H3, P5.
    destruct (_ >=? _); reflexivity. }
  split.
  { rewrite H5, P5. split.
    - intros H. injection H as H. rewrite <- H. reflexivity.
    - intros H. rewrite <- H. destruct payload; reflexivity. }
  do 4 (split; [reflexivity |]).
  intros parsed Hstate. unfold parsePayload. rewrite Hstate. reflexivity.
Qed.

Lemma C8_roundtrip_restamped_witness :
  parsePayload 0 (savePayload 100 (heldAt 100) emptyStorage STORAGE_KEY_V5)
  = Some (heldAt 100).
Proof.
  destruct (C8_roundtrip_restamped 100 0 (heldAt 100) emptyStorage)
    as (_ & _ & _ & [_ Hback] & _).
  apply Hback. reflexivity.
Defined.

(** C8, as stated, fails: a snapshot that carries time 100 and is saved at
    time 150 is read back carrying time 150. *)
Lemma C8_roundtrip_changes_updatedAt :
  let stored := savePayload 150 (heldAt 100) emptyStorage in
  parsePayload 0 (stored STORAGE_KEY_V5) = Some (heldAt 150)
  /\ parsePayload 0 (stored STORAGE_KEY_V5) <> Some (heldAt 100).
Proof.
  split; [reflexivity |].
  intros H. apply (f_equal (option_map Payload.updatedAt)) in H.
  vm_compute in H. discriminate.
Qed.

(** ** C9: hydration from the store *)

(** C9: on a notification for one of the two compatibility keys the handler
    dispatches HYDRATE with the decoded snapshot exactly when the new value
    decodes and its [updatedAt] is greater than the local one; the local
    snapshot then becomes the decoded one, whole.  In every other case nothing
    is dispatched and the local snapshot stays. *)
Theorem C9_hydrate_iff_fresher :
  forall (now : Z) (payload : PersistedPayload) (event : StorageEvent.t),
    StorageEvent.key event = Some STORAGE_KEY_V3
    \/ StorageEvent.key event = Some STORAGE_KEY_V5 ->
    let decoded := parsePayload now (StorageEvent.newValue event) in
    (forall ext,
        onStorage now payload event = Some (HYDRATE ext)
        <-> decoded = Some ext /\ Payload.updatedAt payload < Payload.updatedAt ext)
    /\ (forall ext,
        decoded = Some ext ->
        Payload.updatedAt payload < Payload.updatedAt ext ->
        afterStorageEvent now payload event = ext)
    /\ (forall ext,
        decoded = Some ext ->
        Payload.updatedAt ext <= Payload.updatedAt payload ->
        onStorage now payload event = None
        /\ afterStorageEvent now payload event = payload)
    /\ (decoded = None ->
        onStorage now payload event = None
        /\ afterStorageEvent now payload event = payload).
Proof.
  intros now payload event Hkey decoded.
  assert (Hon : onStorage now payload event
                = match decoded with
                  | Some ext =>
                      if Payload.updatedAt ext <=? Payload.updatedAt payload
                      then None else Some (HYDRATE ext)
                  | None => None
                  end).
  { subst decoded. unfold onStorage.
    destruct Hkey as [-> | ->]; cbn;
      destruct (StorageEvent.newValue event); reflexivity. }
  unfold afterStorageEvent. rewrite Hon. clear Hon.
  destruct decoded as [ext0 |].
  - destruct (Z.leb_spec (Payload.updatedAt ext0) (Payload.updatedAt payload))
      as [Hle | Hgt].
    + split; [| split; [| split]].
      * intros ext. split; [discriminate |].
        intros [Heq Hlt]. injection Heq as ->. lia.
      * intros ext Heq Hlt. injection Heq as ->. lia.
      * intros ext _ _. split; reflexivity.
      * discriminate.
    + split; [| split; [| split]].
      * intros ext. split.
        -- intros Heq. injection Heq as ->. split; [reflexivity | exact Hgt].
        -- intros [Heq _]. injection Heq as ->. reflexivity.
      * intros ext Heq _. injection Heq as ->. reflexivity.
      * intros ext Heq Hle. injection Heq as ->. lia.
      * discriminate.
  - split; [| split; [| split]].
    + intros ext. split; [discriminate | intros [Heq _]; discriminate].
    + discriminate.
    + discriminate.
    + intros _. split; reflexivity.
Qed.

(** Scenario D: the write of time 150 replaces the snapshot of an instance
    that holds time 100, and the later-arriving write of time 120 is rejected
    by an instance that holds time 150. *)
Lemma C9_hydrate_iff_fresher_witness :
  afterStorageEvent 0 (heldAt 100) (writeEvent 150 (heldAt 100)) = heldAt 150
  /\ onStorage 0 (heldAt 150) (writeEvent 120 (heldAt 100)) = None
  /\ afterStorageEvent 0 (heldAt 150) (writeEvent 120 (heldAt 100)) = heldAt 150.
Proof.
  split.
  - destruct (C9_hydrate_iff_fresher 0 (heldAt 100) (writeEvent 150 (heldAt 100))
                (or_intror eq_refl)) as (_ & Hnew & _).
    apply (Hnew (heldAt 150)); [reflexivity | cbn; lia].
  - destruct (C9_hydrate_iff_fresher 0 (heldAt 150) (writeEvent 120 (heldAt 100))
                (or_intror eq_refl)) as (_ & _ & Hold & _).
    apply (Hold (heldAt 120)); [reflexivity | cbn; lia].
Defined.

(** ** C10: reopening a finished game *)

(** C10: from a snapshot whose [gameFinal] flag is set, START_GAME (with no
    overlay active), RESET_QUARTER, PREV_QUARTER and NEXT_QUARTER each give a
    snapshot whose flag is cleared; START_GAME also sets both clocks
    running. *)
Theorem C10_final_flag_cleared :
  forall (now : Z) (payload : PersistedPayload),
    State.gameFinal (Payload.state payload) = true ->
    (State.overlayMode (Payload.state payload) = None ->
       let st' := Payload.state (reducer now payload START_GAME) in
       State.gameFinal st' = false
       /\ State.gameClockRunning st' = true
       /\ State.shotClockRunning st' = true)
    /\ State.gameFinal (Payload.state (reducer now payload RESET_QUARTER)) = false
    /\ State.gameFinal (Payload.state (reducer now payload PREV_QUARTER)) = false
    /\ State.gameFinal (Payload.state (reducer now payload NEXT_QUARTER)) = false.
Proof.
  intros now payload _. split; [| repeat split; reflexivity].
  intros Hov. cbn. rewrite Hov. cbn. repeat split.
Qed.

Lemma C10_final_flag_cleared_witness :
  let payload := reducer 0 (defaultPayload 0) FINISH_GAME in
  State.gameFinal (Payload.state payload) = true
  /\ State.gameFinal (Payload.state (reducer 0 payload START_GAME)) = false
  /\ State.gameFinal (Payload.state (reducer 0 payload NEXT_QUARTER)) = false.
Proof.
  pose proof (C10_final_flag_cleared 0 (reducer 0 (defaultPayload 0) FINISH_GAME)
                eq_refl) as [Hstart [_ [_ Hnext]]].
  split; [reflexivity |].
  split; [exact (proj1 (Hstart eq_refl)) | exact Hnext].
Defined.

(** * More properties *)

(** ** The tick owner *)

Lemma heartbeat_cases :
  forall tabId now store,
    (exists owner,
        readTickOwner store = Some owner
        /\ TickOwnerRecord.id owner <> tabId
        /\ now - TickOwnerRecord.ts owner <= TICK_OWNER_STALE_MS
        /\ heartbeat tabId now store = (store, None))
    \/ heartbeat tabId now store
       = (writeTickOwner (TickOwnerRecord.mk tabId now) store, Some TICK).
Proof.
  intros tabId now store. unfold heartbeat.
  destruct (readTickOwner store) as [owner |] eqn:Hread; [| right; reflexivity].
  destruct (Z.gtb_spec (now - TickOwnerRecord.ts owner) TICK_OWNER_STALE_MS) as [Hgt | Hle];
    [right; reflexivity |].
  destruct (String.eqb_spec (TickOwnerRecord.id owner) tabId) as [Heq | Hne];
    [right; reflexivity |].
  left. exists owner. repeat split; assumption.
Qed.

Lemma heartbeat_fresh_other :
  forall tabId now store owner,
    readTickOwner store = Some owner ->
    TickOwnerRecord.id owner <> tabId ->
    now - TickOwnerRecord.ts owner <= TICK_OWNER_STALE_MS ->
    heartbeat tabId now store = (store, None).
Proof.
  intros tabId now store owner Hread Hne Hfresh. unfold heartbeat. rewrite Hread.
  assert (H1 : (now - TickOwnerRecord.ts owner >? TICK_OWNER_STALE_MS) = false)
    by (rewrite Z.gtb_ltb; apply Z.ltb_ge; exact Hfresh).
  assert (H2 : String.eqb (TickOwnerRecord.id owner) tabId = false)
    by (apply String.eqb_neq; exact Hne).
  rewrite H1, H2. reflexivity.
Qed.

(** X1: a heartbeat dispatches TICK and writes the instance's own record,
    stamped with the time, exactly when the store holds no readable record,
    or a record older than 2200 ms, or the instance's own record; otherwise,
    a fresh record of another instance being there, it dispatches nothing and
    leaves the store as it is. *)
Theorem heartbeat_ticks_iff :
  forall (tabId : string) (now : Z) (store : Shared.t),
    let fresh_other :=
      exists owner,
        readTickOwner store = Some owner
        /\ TickOwnerRecord.id owner <> tabId
        /\ now - TickOwnerRecord.ts owner <= TICK_OWNER_STALE_MS in
    (fresh_other -> heartbeat tabId now store = (store, None))
    /\ (~ fresh_other ->
        snd (heartbeat tabId now store) = Some TICK
        /\ readTickOwner (fst (heartbeat tabId now store))
           = Some (TickOwnerRecord.mk tabId now)
        /\ Shared.command (fst (heartbeat tabId now store)) = Shared.command store).
Proof.
  intros tabId now store fresh_other. split.
  - intros (owner & Hread & Hne & Hfresh).
    apply (heartbeat_fresh_other tabId now store owner); assumption.
  - intros Hnot. destruct (heartbeat_cases tabId now store)
      as [(owner & Hread & Hne & Hfresh & _) | ->].
    + contradiction Hnot. exists owner. repeat split; assumption.
    + repeat split.
Qed.

Lemma heartbeat_ticks_iff_witness :
  heartbeat "tab-2" 3000 (ownedBy "tab-1" 1000 None) = (ownedBy "tab-1" 1000 None, None)
  /\ snd (heartbeat "tab-2" 3201 (ownedBy "tab-1" 1000 None)) = Some TICK.
Proof.
  split.
  - apply (proj1 (heartbeat_ticks_iff "tab-2" 3000 (ownedBy "tab-1" 1000 None))).
    eexists. split; [reflexivity |]. split; [discriminate | vm_compute; discriminate].
  - apply (proj2 (heartbeat_ticks_iff "tab-2" 3201 (ownedBy "tab-1" 1000 None))).
    intros (owner & Hread & _ & Hfresh). injection Hread as <-.
    vm_compute in Hfresh. apply Hfresh. reflexivity.
Defined.

Lemma heartbeat_leader :
  forall leader last now store,
    readTickOwner store = Some (TickOwnerRecord.mk leader last) ->
    heartbeat leader now store
    = (writeTickOwner (TickOwnerRecord.mk leader now) store, Some TICK).
Proof.
  intros leader last now store Hread. unfold heartbeat. rewrite Hread.
  cbn [TickOwnerRecord.id]. rewrite String.eqb_refl, orb_true_r. reflexivity.
Qed.

(** X2: while the owner keeps ahead - every heartbeat of another instance
    runs at most 2200 ms after the owner's latest one - the heartbeats that
    dispatch TICK are exactly the owner's, one TICK each, and the owner still
    holds the record at the end. *)
Theorem leader_alone_ticks :
  forall (leader : string) (last : Z) (schedule : list (string * Z)) (store : Shared.t),
    ledBy leader last schedule ->
    readTickOwner store = Some (TickOwnerRecord.mk leader last) ->
    snd (runHeartbeats schedule store)
    = map fst (filter (fun e => String.eqb (fst e) leader) schedule)
    /\ exists last',
         readTickOwner (fst (runHeartbeats schedule store))
         = Some (TickOwnerRecord.mk leader last').
Proof.
  intros leader last schedule store Hled. revert store.
  induction Hled as [last | last now rest Hled IH | last tabId now rest Hne Hfresh Hled IH];
    intros store Hread.
  - split; [reflexivity | exists last; exact Hread].
  - cbn [runHeartbeats]. rewrite (heartbeat_leader leader last now store Hread).
    destruct (IH (writeTickOwner (TickOwnerRecord.mk leader now) store) eq_refl)
      as [Hticks Hown].
    destruct (runHeartbeats rest _) as [final ticked].
    cbn [fst snd filter map] in *. rewrite String.eqb_refl. cbn [map fst].
    split; [f_equal; exact Hticks | exact Hown].
  - cbn [runHeartbeats].
    assert (Hquiet : heartbeat tabId now store = (store, None)).
    { apply (heartbeat_fresh_other tabId now store (TickOwnerRecord.mk leader last));
        [exact Hread | | exact Hfresh].
      intros Heq. apply Hne. symmetry. exact Heq. }
    rewrite Hquiet. destruct (IH store Hread) as [Hticks Hown].
    destruct (runHeartbeats rest store) as [final ticked].
    cbn [fst snd filter map] in *.
    assert (Hno : String.eqb tabId leader = false) by (apply String.eqb_neq; exact Hne).
    rewrite Hno. split; [exact Hticks | exact Hown].
Qed.

Lemma leader_alone_ticks_witness :
  snd (runHeartbeats quietSchedule (ownedBy "tab-1" 0 None)) = ["tab-1"; "tab-1"].
Proof.
  refine (proj1 (leader_alone_ticks "tab-1" 0 quietSchedule (ownedBy "tab-1" 0 None) _ eq_refl)).
  unfold quietSchedule.
  apply ledBy_leader.
  apply ledBy_other; [discriminate | vm_compute; discriminate |].
  apply ledBy_leader.
  apply ledBy_other; [discriminate | vm_compute; discriminate |].
  apply ledBy_nil.
Defined.

(** X3: when the owner shuts down it removes its record, and the next
    heartbeat of any instance, at any time, takes the ownership and dispatches
    TICK; the shutdown of an instance that does not own the record leaves the
    store as it is. *)
Theorem release_then_immediate_takeover :
  forall (owner : string) (last : Z) (command : option string)
         (tabId : string) (now : Z),
    let store := ownedBy owner last command in
    readTickOwner (releaseTickOwner owner store) = None
    /\ heartbeat tabId now (releaseTickOwner owner store)
       = (ownedBy tabId now command, Some TICK)
    /\ (tabId <> owner -> releaseTickOwner tabId store = store).
Proof.
  intros owner last command tabId now store. subst store.
  unfold releaseTickOwner, ownedBy. cbn [readTickOwner Shared.tickOwner TickOwnerRecord.id].
  rewrite String.eqb_refl. split; [reflexivity |]. split; [reflexivity |].
  intros Hne. assert (H : String.eqb owner tabId = false)
    by (apply String.eqb_neq; intros Heq; apply Hne; symmetry; exact Heq).
  rewrite H. reflexivity.
Qed.

Lemma release_then_immediate_takeover_witness :
  releaseTickOwner "tab-2" (ownedBy "tab-1" 1000 None) = ownedBy "tab-1" 1000 None.
Proof.
  apply (release_then_immediate_takeover "tab-1" 1000 None "tab-2" 0).
  discriminate.
Defined.

(** ** Remote commands *)

Lemma pollCommand_no_command :
  forall tabId now store,
    Shared.command store = None -> pollCommand tabId now store = (store, None).
Proof.
  intros tabId now store Hnone. unfold pollCommand.
  destruct (readTickOwner store); [| reflexivity].
  destruct (_ >? _); [reflexivity |]. destruct (negb _); [reflexivity |].
  rewrite Hnone. reflexivity.
Qed.

(** X4: a pending command is taken by the owner of a fresh tick-owner record
    and by nobody else.  When a poll dispatches an action, the polling
    instance owns the record, the record is at most 2200 ms old, the action is
    the one the command stands for, and the command is gone from the store, so
    that no later poll of any instance dispatches it again.  Such an owner
    takes a non-empty command out of the store even when it is not one of the
    known commands, and then dispatches nothing. *)
Theorem command_consumed_once :
  forall (tabId : string) (now : Z) (store : Shared.t),
    (forall action,
        snd (pollCommand tabId now store) = Some action ->
        exists owner command,
          readTickOwner store = Some owner
          /\ TickOwnerRecord.id owner = tabId
          /\ now - TickOwnerRecord.ts owner <= TICK_OWNER_STALE_MS
          /\ Shared.command store = Some command
          /\ applyCommand command = Some action
          /\ Shared.command (fst (pollCommand tabId now store)) = None
          /\ forall tabId' now',
               pollCommand tabId' now' (fst (pollCommand tabId now store))
               = (fst (pollCommand tabId now store), None))
    /\ (forall owner command,
        readTickOwner store = Some owner ->
        TickOwnerRecord.id owner = tabId ->
        now - TickOwnerRecord.ts owner <= TICK_OWNER_STALE_MS ->
        Shared.command store = Some command ->
        command <> "" ->
        pollCommand tabId now store
        = (Shared.mk (Shared.tickOwner store) None, applyCommand command))
    /\ (forall owner,
        readTickOwner store = Some owner ->
        TickOwnerRecord.id owner <> tabId
        \/ TICK_OWNER_STALE_MS < now - TickOwnerRecord.ts owner ->
        pollCommand tabId now store = (store, None)).
Proof.
  intros tabId now store. split; [| split].
  - intros action. unfold pollCommand.
    destruct (readTickOwner store) as [owner |] eqn:Hread; [| discriminate].
    destruct (Z.gtb_spec (now - TickOwnerRecord.ts owner) TICK_OWNER_STALE_MS)
      as [Hgt | Hle]; [discriminate |].
    destruct (String.eqb_spec (TickOwnerRecord.id owner) tabId) as [Heq | Hne];
      cbn [negb]; [| discriminate].
    destruct (Shared.command store) as [command |] eqn:Hcmd; [| discriminate].
    destruct (JS.truthy command); cbn [negb]; [| discriminate].
    cbn [fst snd]. intros Happly. exists owner, command.
    repeat split; try assumption.
    intros tabId' now'. apply pollCommand_no_command. reflexivity.
  - intros owner command Hread Hid Hfresh Hcmd Hne. unfold pollCommand.
    rewrite Hread, Hcmd, Hid, String.eqb_refl.
    assert (H1 : (now - TickOwnerRecord.ts owner >? TICK_OWNER_STALE_MS) = false)
      by (rewrite Z.gtb_ltb; apply Z.ltb_ge; exact Hfresh).
    rewrite H1. unfold JS.truthy.
    destruct (String.eqb_spec command ""); [contradiction | reflexivity].
  - intros owner Hread Hwho. unfold pollCommand. rewrite Hread.
    destruct (Z.gtb_spec (now - TickOwnerRecord.ts owner) TICK_OWNER_STALE_MS)
      as [Hgt | Hle]; [reflexivity |].
    destruct Hwho as [Hne | Hstale]; [| lia].
    apply String.eqb_neq in Hne. rewrite Hne. reflexivity.
Qed.

Lemma command_consumed_once_witness :
  pollCommand "tab-1" 1100 (ownedBy "tab-1" 1000 (Some "timeoutA"))
  = (ownedBy "tab-1" 1000 None, Some (OPEN_TIMEOUT A 60))
  /\ pollCommand "tab-2" 1100 (ownedBy "tab-1" 1000 (Some "timeoutA"))
     = (ownedBy "tab-1" 1000 (Some "timeoutA"), None).
Proof.
  destruct (command_consumed_once "tab-1" 1100 (ownedBy "tab-1" 1000 (Some "timeoutA")))
    as (_ & Htake & _).
  destruct (command_consumed_once "tab-2" 1100 (ownedBy "tab-1" 1000 (Some "timeoutA")))
    as (_ & _ & Hleave).
  split.
  - apply (Htake (TickOwnerRecord.mk "tab-1" 1000) "timeoutA");
      try reflexivity; [vm_compute; discriminate | discriminate].
  - apply (Hleave (TickOwnerRecord.mk "tab-1" 1000)); [reflexivity |].
    left. discriminate.
Defined.

(** X5: whatever the command, the action it stands for leaves both rosters,
    both scores and [updatedAt] as they are: a remote command drives the
    clocks, the quarter, the possession, the team fouls and the timeouts, and
    never the statistics. *)
Theorem remote_command_keeps_stats :
  forall (now : Z) (payload : PersistedPayload) (command : string)
         (action : ScoreboardAction),
    applyCommand command = Some action ->
    let q := reducer now payload action in
    Payload.players q = Payload.players payload
    /\ Team.score (State.teamA (Payload.state q))
       = Team.score (State.teamA (Payload.state payload))
    /\ Team.score (State.teamB (Payload.state q))
       = Team.score (State.teamB (Payload.state payload))
    /\ Payload.updatedAt q = Payload.updatedAt payload.
Proof.
  intros now payload command action. unfold applyCommand.
  repeat match goal with
         | |- context [if ?b then _ else _] => destruct b
         end;
    intros H; try discriminate H; injection H as <-; cbn [reducer];
    try (repeat split; reflexivity).
  - destruct (State.overlayMode _); repeat split.
  - destruct (State.overlayMode _); repeat split.
Qed.

Lemma remote_command_keeps_stats_witness :
  Payload.players (reducer 0 (defaultPayload 0) (INC_FOUL A))
  = Payload.players (defaultPayload 0).
Proof.
  apply (remote_command_keeps_stats 0 (defaultPayload 0) "foulA" (INC_FOUL A) eq_refl).
Defined.

(** ** Helpers of the console *)

Lemma filter_split_Permutation :
  forall (X : Type) (f : X -> bool) (l : list X),
    Permutation l (filter f l ++ filter (fun x => negb (f x)) l).
Proof.
  intros X f. induction l as [| x l IH]; [constructor |].
  cbn [filter]. destruct (f x); cbn [negb app].
  - constructor. exact IH.
  - apply Permutation_cons_app. exact IH.
Qed.

(** X6: [orderedPlayers] shows the same players, each as often as before;
    those on the court come first and those off the court after them, and
    within each group the order of the roster is kept. *)
Theorem orderedPlayers_partition :
  forall players : list Player.t,
    Permutation players (orderedPlayers players)
    /\ exists onCourt bench,
         orderedPlayers players = (onCourt ++ bench)%list
         /\ Forall (fun p => Player.onCourt p = true) onCourt
         /\ Forall (fun p => Player.onCourt p = false) bench
         /\ onCourt = filter Player.onCourt players
         /\ bench = filter (fun p => negb (Player.onCourt p)) players
         /\ Z.of_nat (List.length onCourt) = onCourtCount players.
Proof.
  intros players. split.
  - apply (filter_split_Permutation _ Player.onCourt).
  - exists (filter Player.onCourt players),
           (filter (fun p => negb (Player.onCourt p)) players).
    split; [reflexivity |]. split; [| split; [| repeat split]].
    + apply Forall_forall. intros p Hp. apply filter_In in Hp. apply Hp.
    + apply Forall_forall. intros p Hp. apply filter_In in Hp.
      destruct Hp as [_ Hp]. apply negb_true_iff. exact Hp.
Qed.

(** X7: the quarter buttons never dispatch a change that would leave the
    quarter where it is, and never dispatch without the operator's
    confirmation.  When they do dispatch, the quarter the reducer arrives at
    is the other quarter they announced, one below (not under 1) or one above
    (not over [totalQuarters]), with the game clock at the full quarter length
    and stopped. *)
Theorem changeQuarterWithConfirm_changes_quarter :
  forall (now : Z) (payload : PersistedPayload) (direction : Direction.t)
         (confirmed : bool),
    let st := Payload.state payload in
    let target :=
      match direction with
      | Direction.prev => Z.max 1 (State.quarter st - 1)
      | Direction.next => Z.min (State.totalQuarters st) (State.quarter st + 1)
      end in
    (confirmed = false \/ target = State.quarter st ->
       changeQuarterWithConfirm direction confirmed st = None)
    /\ (forall action,
        changeQuarterWithConfirm direction confirmed st = Some action ->
        let st' := Payload.state (reducer now payload action) in
        confirmed = true
        /\ State.quarter st' = target
        /\ State.quarter st' <> State.quarter st
        /\ State.gameClockSeconds st' = State.quarterLengthMinutes st * 60
        /\ State.gameClockRunning st' = false
        /\ State.shotClockRunning st' = false).
Proof.
  intros now payload direction confirmed st target. split.
  - intros [-> | Htarget]; unfold changeQuarterWithConfirm; fold st.
    + destruct direction; destruct (_ =? _); reflexivity.
    + subst target. destruct direction; rewrite Htarget, Z.eqb_refl; reflexivity.
  - intros action. unfold changeQuarterWithConfirm. fold st.
    destruct direction; cbv zeta;
      match goal with |- context [?t =? State.quarter st] =>
        destruct (Z.eqb_spec t (State.quarter st)) as [Heq | Hne] end;
      try discriminate;
      destruct confirmed; cbn [negb]; try discriminate;
      intros H; injection H as <-; subst target; cbn; repeat split; exact Hne.
Qed.

Lemma changeQuarterWithConfirm_changes_quarter_witness :
  changeQuarterWithConfirm Direction.prev true (Payload.state (defaultPayload 0)) = None
  /\ State.quarter
       (Payload.state (reducer 0 (defaultPayload 0) NEXT_QUARTER)) = 2.
Proof.
  destruct (changeQuarterWithConfirm_changes_quarter 0 (defaultPayload 0)
              Direction.prev true) as [Hnone _].
  destruct (changeQuarterWithConfirm_changes_quarter 0 (defaultPayload 0)
              Direction.next true) as [_ Hsome].
  split.
  - apply Hnone. right. reflexivity.
  - destruct (Hsome NEXT_QUARTER eq_refl) as (_ & Hq & _). exact Hq.
Defined.

(** ** Colours *)

Lemma upper_ascii_idempotent :
  forall c, JS.upper_ascii (JS.upper_ascii c) = JS.upper_ascii c.
Proof. intros [[] [] [] [] [] [] [] []]; reflexivity. Qed.

Lemma upper_ascii_hex :
  forall c, isHexDigit c = true -> isHexDigit (JS.upper_ascii c) = true.
Proof. intros [[] [] [] [] [] [] [] []]; intros H; try discriminate H; reflexivity. Qed.

Lemma toUpperCase_idempotent :
  forall s, JS.toUpperCase (JS.toUpperCase s) = JS.toUpperCase s.
Proof.
  induction s as [| c r IH]; [reflexivity |].
  cbn [JS.toUpperCase]. rewrite upper_ascii_idempotent, IH. reflexivity.
Qed.

Lemma hexDigits_toUpperCase :
  forall n s, hexDigits n s = true -> hexDigits n (JS.toUpperCase s) = true.
Proof.
  induction n as [| n IH]; intros [| c r] H; try discriminate H; [reflexivity |].
  cbn [hexDigits JS.toUpperCase] in *. apply andb_true_iff in H. destruct H as [Hc Hr].
  rewrite (upper_ascii_hex c Hc), (IH r Hr). reflexivity.
Qed.

Lemma hashHex_toUpperCase :
  forall n s, hashHex n s = true -> hashHex n (JS.toUpperCase s) = true.
Proof.
  intros n [| c r] H; [discriminate H |].
  cbn [hashHex JS.toUpperCase] in *. apply andb_true_iff in H. destruct H as [Hc Hr].
  apply Ascii.eqb_eq in Hc. subst c.
  rewrite (hexDigits_toUpperCase n r Hr). reflexivity.
Qed.

Lemma toUpperCase_canonical :
  forall s, hashHex 6 s = true -> canonicalColor (JS.toUpperCase s).
Proof.
  intros s H. split; [apply hashHex_toUpperCase; exact H | apply toUpperCase_idempotent].
Qed.

(** X8: [normalizeHexColor] returns either the fallback or a canonical
    colour, [#] and six upper-case hexadecimal digits; it returns the fallback
    exactly when the trimmed input is neither the six-digit nor the
    three-digit form.  A canonical colour that [trim] leaves alone is returned
    as it is, whatever the fallback, so normalising a normalised colour
    changes nothing. *)
Theorem normalizeHexColor_canonical :
  forall (trim : string -> string) (input fallback : string),
    let c := normalizeHexColor trim input fallback in
    (c = fallback \/ canonicalColor c)
    /\ (hashHex 6 (trim input) = false -> hashHex 3 (trim input) = false ->
        c = fallback)
    /\ (hashHex 6 (trim input) = true \/ hashHex 3 (trim input) = true ->
        canonicalColor c)
    /\ (canonicalColor input -> trim input = input -> c = input)
    /\ (canonicalColor c -> trim c = c ->
        forall fallback', normalizeHexColor trim c fallback' = c).
Proof.
  intros trim input fallback c.
  assert (Hfix : forall s fb,
             canonicalColor s -> trim s = s -> normalizeHexColor trim s fb = s).
  { intros s fb [Hhex Hup] Htrim. unfold normalizeHexColor.
    rewrite Htrim, Hhex. exact Hup. }
  assert (Hshort : forall v, hashHex 6 v = false -> hashHex 3 v = true ->
             canonicalColor
               match v with
               | String _ (String r (String g (String b EmptyString))) =>
                   JS.toUpperCase
                     (String "#" (String r (String r (String g (String g
                        (String b (String b EmptyString)))))))
               | _ => fallback
               end).
  { intros v _ H3.
    destruct v as [| h [| r [| g [| b [| x y]]]]];
      cbn [hashHex hexDigits] in H3; rewrite ?andb_false_r in H3;
      try discriminate H3.
    apply andb_true_iff in H3. destruct H3 as [_ H3].
    apply andb_true_iff in H3. destruct H3 as [Hr H3].
    apply andb_true_iff in H3. destruct H3 as [Hg H3].
    apply andb_true_iff in H3. destruct H3 as [Hb _].
    apply toUpperCase_canonical. cbn [hashHex hexDigits].
    rewrite Hr, Hg, Hb. reflexivity. }
  assert (Ec : c = normalizeHexColor trim input fallback) by reflexivity.
  clearbody c. unfold normalizeHexColor in Ec.
  assert (Hlast : canonicalColor c -> trim c = c ->
                  forall fallback', normalizeHexColor trim c fallback' = c).
  { intros Hc Htrim fallback'. apply Hfix; assumption. }
  destruct (hashHex 6 (trim input)) eqn:H6.
  - pose proof (toUpperCase_canonical _ H6) as Hcanon. rewrite <- Ec in Hcanon.
    split; [right; exact Hcanon |]. split; [discriminate |].
    split; [intros _; exact Hcanon |]. split; [| exact Hlast].
    intros [_ Hup] Htrim. rewrite Htrim in Ec. rewrite Ec. exact Hup.
  - destruct (hashHex 3 (trim input)) eqn:H3.
    + pose proof (Hshort _ H6 H3) as Hcanon. rewrite <- Ec in Hcanon.
      split; [right; exact Hcanon |]. split; [discriminate |].
      split; [intros _; exact Hcanon |]. split; [| exact Hlast].
      intros [Hhex _] Htrim. rewrite Htrim, Hhex in H6. discriminate H6.
    + split; [left; exact Ec |]. split; [intros _ _; exact Ec |].
      split; [intros [H | H]; discriminate H |]. split; [| exact Hlast].
      intros [Hhex _] Htrim. rewrite Htrim, Hhex in H6. discriminate H6.
Qed.

Lemma normalizeHexColor_canonical_witness :
  normalizeHexColor trimSpaces "  #a1b " DEFAULT_FALLBACK_COLOR = "#AA11BB"
  /\ normalizeHexColor trimSpaces "#AA11BB" "" = "#AA11BB"
  /\ normalizeHexColor trimSpaces "a1b" DEFAULT_FALLBACK_COLOR = "#6b7280".
Proof.
  split; [reflexivity |]. split.
  - destruct (normalizeHexColor_canonical trimSpaces "#AA11BB" "")
      as (_ & _ & _ & Hfix & _).
    apply Hfix; [split; reflexivity | reflexivity].
  - destruct (normalizeHexColor_canonical trimSpaces "a1b" DEFAULT_FALLBACK_COLOR)
      as (_ & Hfb & _).
    apply Hfb; reflexivity.
Defined.

(** ** What every action keeps *)

Lemma run_invariant :
  forall (ok : ScoreboardAction -> Prop) (I : PersistedPayload -> Prop) (now : Z),
    (forall p a, ok a -> I p -> I (reducer now p a)) ->
    forall actions p, Forall ok actions -> I p -> I (run now p actions).
Proof.
  intros ok I now Hstep. unfold run.
  induction actions as [| a actions IH]; intros p Hok Hp; [exact Hp |].
  inversion Hok as [| ? ? Ha Hrest]; subst. cbn [fold_left].
  apply IH; [exact Hrest | apply Hstep; assumption].
Qed.

(** A property of the state that does not look at the highlight fields holds
    of every snapshot of the same game. *)
Lemma sameGame_state_inv :
  forall (I : State.t -> Prop),
    (forall st, I (withoutHighlights st) <-> I st) ->
    forall p q, sameGame p q -> I (Payload.state p) -> I (Payload.state q).
Proof.
  intros I HI p q (H & _ & _) Hp.
  apply HI. rewrite H. apply HI. exact Hp.
Qed.

(** The two detectors at the end of "ADD_POINTS". *)
Lemma detectors_tail :
  forall (I : PersistedPayload -> Prop),
    (forall p team id, I p -> I (maybeAutoPlayerHighlight p team id)) ->
    (forall p, I p -> I (maybeAutoTeamComparison p)) ->
    forall p team playerId,
      I p ->
      I (maybeAutoTeamComparison
           match givenId playerId with
           | Some id => maybeAutoPlayerHighlight p team id
           | None => p
           end).
Proof.
  intros I Hplayer Hteam p team playerId Hp. apply Hteam.
  destruct (givenId playerId); [apply Hplayer |]; exact Hp.
Qed.

(** What a detector does to the state: nothing, or it shows one highlight
    under a key that was not among the seen keys. *)
Lemma maybeAutoPlayerHighlight_state :
  forall p team playerId,
    Payload.state (maybeAutoPlayerHighlight p team playerId) = Payload.state p
    \/ exists key star,
         JS.includes key (State.tvAutoSeen (Payload.state p)) = false
         /\ Payload.state (maybeAutoPlayerHighlight p team playerId)
            = highlightShown (Payload.state p) key (Some star) None.
Proof.
  intros p team playerId. unfold maybeAutoPlayerHighlight.
  destruct (find_player playerId (players_of team p)) as [player |];
    [| left; reflexivity].
  assert (Hblock : forall k rest,
    (Payload.state rest = Payload.state p
     \/ exists key star,
          JS.includes key (State.tvAutoSeen (Payload.state p)) = false
          /\ Payload.state rest = highlightShown (Payload.state p) key (Some star) None) ->
    (Payload.state (milestoneBlock p team playerId player k rest) = Payload.state p
     \/ exists key star,
          JS.includes key (State.tvAutoSeen (Payload.state p)) = false
          /\ Payload.state (milestoneBlock p team playerId player k rest)
             = highlightShown (Payload.state p) key (Some star) None)).
  { intros k rest Hrest. unfold milestoneBlock.
    destruct (_ && _); [| exact Hrest].
    unfold showAutoPlayerHighlight.
    destruct (negb (canAutoHighlight p)); [exact Hrest |].
    destruct (JS.includes _ _) eqn:Hnew; [exact Hrest |].
    destruct (find_player playerId (players_of team p)); [| exact Hrest].
    right. do 2 eexists. split; [exact Hnew | reflexivity]. }
  repeat apply Hblock. left. reflexivity.
Qed.

Lemma maybeAutoTeamComparison_state :
  forall p,
    Payload.state (maybeAutoTeamComparison p) = Payload.state p
    \/ exists key comparison,
         JS.includes key (State.tvAutoSeen (Payload.state p)) = false
         /\ Payload.state (maybeAutoTeamComparison p)
            = highlightShown (Payload.state p) key None (Some comparison).
Proof.
  intros p. unfold maybeAutoTeamComparison.
  assert (Hfb :
    Payload.state (fastBreakComparison p) = Payload.state p
    \/ exists key comparison,
         JS.includes key (State.tvAutoSeen (Payload.state p)) = false
         /\ Payload.state (fastBreakComparison p)
            = highlightShown (Payload.state p) key None (Some comparison)).
  { unfold fastBreakComparison.
    destruct (leader _ _); [| left; reflexivity].
    destruct (_ && _); [| left; reflexivity].
    destruct (JS.includes _ _) eqn:Hnew; [left; reflexivity |].
    right. cbn [negb]. do 2 eexists. split; [exact Hnew | reflexivity]. }
  destruct (negb (canAutoHighlight p)); [left; reflexivity |].
  destruct (leader _ _); [| exact Hfb].
  destruct (_ && _); [| exact Hfb].
  destruct (JS.includes _ _) eqn:Hnew; [exact Hfb |].
  right. cbn [negb]. do 2 eexists. split; [exact Hnew | reflexivity].
Qed.

(** A property of the state that holds after a highlight is shown holds after
    each detector. *)
Lemma detectors_state_inv :
  forall (I : State.t -> Prop),
    (forall st key star comparison,
       I st -> JS.includes key (State.tvAutoSeen st) = false ->
       star = None \/ comparison = None ->
       I (highlightShown st key star comparison)) ->
    (forall p team id, I (Payload.state p) ->
       I (Payload.state (maybeAutoPlayerHighlight p team id)))
    /\ (forall p, I (Payload.state p) -> I (Payload.state (maybeAutoTeamComparison p))).
Proof.
  intros I Hshown. split.
  - intros p team id Hp.
    destruct (maybeAutoPlayerHighlight_state p team id) as [-> | (key & star & Hnew & ->)];
      [exact Hp | apply Hshown; auto].
  - intros p Hp.
    destruct (maybeAutoTeamComparison_state p) as [-> | (key & comparison & Hnew & ->)];
      [exact Hp | apply Hshown; auto].
Qed.

Ltac teams := repeat match goal with t : TeamId |- _ => destruct t end.

(** Case analysis on the conditions of the goal, the innermost first. *)
Ltac split_ifs :=
  repeat match goal with
  | |- context [match ?x with _ => _ end] =>
      lazymatch x with
      | context [match _ with _ => _ end] => fail
      | _ => destruct x eqn:?
      end
  end.

(** Simplification of the record operations only: the texts of the log
    entries are left as they are. *)
Ltac st_cbn :=
  cbn [Payload.state Payload.players Payload.actionLog Payload.updatedAt
       Payload.set_state Payload.set_players Payload.set_actionLog
       withActionLog set_players_of recalcTeamFouls setPossession resetQuarter
       beginOverlay team_of set_team_of
       State.teamA State.teamB State.possession State.quarter State.totalQuarters
       State.quarterLengthMinutes State.foulLimit State.gameClockSeconds
       State.shotClockDefault State.shotClockSeconds State.gameClockRunning
       State.shotClockRunning State.timingMode State.shotViolation State.gameFinal
       State.overlayMode State.overlayLabel State.overlayRemainingSeconds
       State.overlayResumeGame State.tvAutoCooldownSeconds State.tvAutoSeen
       State.tvStarPlayer State.tvTeamComparison
       State.set_teamA State.set_teamB State.set_possession State.set_quarter
       State.set_gameClockSeconds State.set_shotClockSeconds
       State.set_gameClockRunning State.set_shotClockRunning State.set_shotViolation
       State.set_gameFinal State.set_overlayMode State.set_overlayLabel
       State.set_overlayRemainingSeconds State.set_overlayResumeGame
       State.set_tvAutoCooldownSeconds State.set_tvAutoSeen State.set_tvStarPlayer
       State.set_tvTeamComparison
       Team.name Team.score Team.fouls Team.timeouts Team.fastBreakPoints Team.color
       Team.logoUrl Team.set_name Team.set_score Team.set_fouls Team.set_timeouts
       Team.set_fastBreakPoints Team.set_color Team.set_logoUrl
       andb orb negb fst snd] in *.

(** The two guards of the scoring cases: a final game and zero points give
    the snapshot back. *)
Ltac refused_or_scored :=
  match goal with
  | |- context [if State.gameFinal ?st then _ else _] =>
      destruct (State.gameFinal st) eqn:?; [assumption |]
  end;
  match goal with
  | |- context [if ?points =? 0 then _ else _] =>
      destruct (points =? 0) eqn:?; [assumption |]
  end.

(** The three cases that end with the detectors: what is left is the
    snapshot the detectors are given. *)
Ltac strip_detectors Hplayer Hteam :=
  lazymatch goal with
  | |- context [reduce_ADD_POINTS _ _ _ _] =>
      unfold reduce_ADD_POINTS;
      refused_or_scored;
      apply (detectors_tail _ Hplayer Hteam)
  | |- context [reduce_ADD_FAST_BREAK_POINTS _ _ _] =>
      unfold reduce_ADD_FAST_BREAK_POINTS;
      refused_or_scored;
      apply Hteam
  | |- context [reduce_INC_PLAYER_STAT _ _ _ _ _] =>
      unfold reduce_INC_PLAYER_STAT; apply Hteam; apply Hplayer
  | |- _ => idtac
  end.

Ltac unfold_cases :=
  unfold reduce_LOAD_GAME, reduce_OPEN_TIMEOUT, reduce_START_HALFTIME,
    reduce_SHOW_TV_STAR_PLAYER, reduce_SET_PLAYER_ON_COURT, reduce_SUBSTITUTE_PLAYER,
    reduce_ADD_PLAYER, reduce_UPDATE_PLAYER, reduce_DELETE_PLAYER, reduce_TICK,
    endOverlay.

Ltac finish_overlay Hp :=
  let Hov := fresh "Hov" in
  intros Hov;
  first [ exfalso; apply Hov; reflexivity
        | exfalso; congruence
        | split; reflexivity
        | let Hg := fresh "Hg" in
          let Hs := fresh "Hs" in
          destruct Hp as [Hg Hs]; [congruence |];
          rewrite ?Hg, ?Hs; split; first [reflexivity | congruence] ].

Lemma overlayStopsClocks_step :
  forall now payload action,
    notHydrate action ->
    overlayStopsClocks (Payload.state payload) ->
    overlayStopsClocks (Payload.state (reducer now payload action)).
Proof.
  intros now payload action Hact Hp.
  assert (Hblind : forall st, overlayStopsClocks (withoutHighlights st)
                              <-> overlayStopsClocks st) by reflexivity.
  assert (Hplayer : forall p team id, overlayStopsClocks (Payload.state p) ->
            overlayStopsClocks (Payload.state (maybeAutoPlayerHighlight p team id))).
  { intros p team id. apply (sameGame_state_inv _ Hblind).
    apply maybeAutoPlayerHighlight_frame. }
  assert (Hteam : forall p, overlayStopsClocks (Payload.state p) ->
            overlayStopsClocks (Payload.state (maybeAutoTeamComparison p))).
  { intros p. apply (sameGame_state_inv _ Hblind).
    apply maybeAutoTeamComparison_frame. }
  destruct action; cbn [reducer notHydrate] in *; try contradiction;
    strip_detectors Hplayer Hteam; clear Hblind Hplayer Hteam; teams;
    unfold overlayStopsClocks in *; unfold_cases;
    st_cbn; split_ifs; st_cbn; finish_overlay Hp.
Qed.

(** X9: starting from a snapshot in which an active overlay has both clocks
    stopped, every snapshot reached by actions other than HYDRATE has both
    clocks stopped while an overlay is active: no action starts a clock under
    a timeout or a halftime. *)
Theorem overlay_stops_clocks :
  forall (now : Z) (payload : PersistedPayload) (actions : list ScoreboardAction),
    Forall notHydrate actions ->
    overlayStopsClocks (Payload.state payload) ->
    overlayStopsClocks (Payload.state (run now payload actions)).
Proof.
  intros now payload actions Hok Hp.
  apply (run_invariant notHydrate
           (fun p => overlayStopsClocks (Payload.state p)) now); try assumption.
  intros p a. apply overlayStopsClocks_step.
Qed.

Lemma overlay_stops_clocks_witness :
  let q := run 0 (defaultPayload 0)
             [START_GAME; OPEN_TIMEOUT A 30; START_GAME; START_SHOT;
              ADD_POINTS B 2 None; SET_POSSESSION A] in
  State.overlayMode (Payload.state q) = Some timeout
  /\ State.gameClockRunning (Payload.state q) = false
  /\ State.shotClockRunning (Payload.state q) = false.
Proof.
  cbv zeta.
  assert (Hmode : State.overlayMode
                    (Payload.state
                       (run 0 (defaultPayload 0)
                          [START_GAME; OPEN_TIMEOUT A 30; START_GAME; START_SHOT;
                           ADD_POINTS B 2 None; SET_POSSESSION A])) = Some timeout)
    by (vm_compute; reflexivity).
  split; [exact Hmode |].
  assert (Hinit : overlayStopsClocks (Payload.state (defaultPayload 0)))
    by (intros H; exfalso; apply H; reflexivity).
  assert (Hok : Forall notHydrate
                  [START_GAME; OPEN_TIMEOUT A 30; START_GAME; START_SHOT;
                   ADD_POINTS B 2 None; SET_POSSESSION A])
    by (repeat constructor).
  pose proof (overlay_stops_clocks 0 _ _ Hok Hinit) as Hstopped.
  apply Hstopped. rewrite Hmode. discriminate.
Defined.

Ltac blind_detectors I Hblind Hplayer Hteam :=
  assert (Hblind : forall st, I (withoutHighlights st) <-> I st) by reflexivity;
  assert (Hplayer : forall p team id, I (Payload.state p) ->
            I (Payload.state (maybeAutoPlayerHighlight p team id)))
    by (intros p team id; apply (sameGame_state_inv _ Hblind);
        apply maybeAutoPlayerHighlight_frame);
  assert (Hteam : forall p, I (Payload.state p) ->
            I (Payload.state (maybeAutoTeamComparison p)))
    by (intros p; apply (sameGame_state_inv _ Hblind);
        apply maybeAutoTeamComparison_frame).

Lemma quarterInRange_step :
  forall now payload action,
    continuesGame action ->
    quarterInRange (Payload.state payload) ->
    quarterInRange (Payload.state (reducer now payload action)).
Proof.
  intros now payload action Hact Hp.
  blind_detectors quarterInRange Hblind Hplayer Hteam.
  destruct action; cbn [reducer continuesGame] in *; try contradiction;
    strip_detectors Hplayer Hteam; clear Hblind Hplayer Hteam; teams;
    unfold quarterInRange in *; unfold_cases;
    st_cbn; split_ifs; st_cbn; lia.
Qed.

(** X10: starting from a snapshot whose quarter is between 1 and the number
    of quarters of the game, every snapshot reached by actions other than
    HYDRATE and LOAD_GAME has its quarter in that range: NEXT_QUARTER, the end
    of a quarter and the end of halftime never step past the last quarter, and
    PREV_QUARTER never steps before the first. *)
Theorem quarter_stays_in_range :
  forall (now : Z) (payload : PersistedPayload) (actions : list ScoreboardAction),
    Forall continuesGame actions ->
    quarterInRange (Payload.state payload) ->
    quarterInRange (Payload.state (run now payload actions)).
Proof.
  intros now payload actions Hok Hp.
  apply (run_invariant continuesGame
           (fun p => quarterInRange (Payload.state p)) now); try assumption.
  intros p a. apply quarterInRange_step.
Qed.

Lemma quarter_stays_in_range_witness :
  let q := run 0 (defaultPayload 0)
             [NEXT_QUARTER; NEXT_QUARTER; NEXT_QUARTER; NEXT_QUARTER; NEXT_QUARTER;
              PREV_QUARTER] in
  State.totalQuarters (Payload.state q) = 4
  /\ 1 <= State.quarter (Payload.state q) <= 4.
Proof.
  cbv zeta.
  assert (Htotal : State.totalQuarters
                     (Payload.state
                        (run 0 (defaultPayload 0)
                           [NEXT_QUARTER; NEXT_QUARTER; NEXT_QUARTER; NEXT_QUARTER;
                            NEXT_QUARTER; PREV_QUARTER])) = 4)
    by (vm_compute; reflexivity).
  split; [exact Htotal |].
  assert (Hinit : quarterInRange (Payload.state (defaultPayload 0)))
    by (vm_compute; split; discriminate).
  assert (Hok : Forall continuesGame
                  [NEXT_QUARTER; NEXT_QUARTER; NEXT_QUARTER; NEXT_QUARTER;
                   NEXT_QUARTER; PREV_QUARTER])
    by (repeat constructor).
  pose proof (quarter_stays_in_range 0 _ _ Hok Hinit) as Hrange.
  unfold quarterInRange in Hrange. rewrite Htotal in Hrange. exact Hrange.
Defined.

Lemma rules_step :
  forall now payload action,
    continuesGame action ->
    forall r, rules (Payload.state payload) = r ->
              rules (Payload.state (reducer now payload action)) = r.
Proof.
  intros now payload action Hact r Hp.
  blind_detectors (fun st => rules st = r) Hblind Hplayer Hteam.
  destruct action; cbn [reducer continuesGame] in *; try contradiction;
    strip_detectors Hplayer Hteam; clear Hblind Hplayer Hteam; teams;
    unfold rules in *; unfold_cases;
    st_cbn; split_ifs; st_cbn; exact Hp.
Qed.

(** X11: the rules of the game - the number of quarters, the length of a
    quarter, the foul limit, the shot clock and the timing mode - are the same
    in every snapshot reached by actions other than HYDRATE and LOAD_GAME. *)
Theorem rules_fixed :
  forall (now : Z) (payload : PersistedPayload) (actions : list ScoreboardAction),
    Forall continuesGame actions ->
    rules (Payload.state (run now payload actions)) = rules (Payload.state payload).
Proof.
  intros now payload actions Hok.
  apply (run_invariant continuesGame
           (fun p => rules (Payload.state p) = rules (Payload.state payload)) now);
    [| exact Hok | reflexivity].
  intros p a Ha. apply rules_step. exact Ha.
Qed.

Lemma rules_fixed_witness :
  rules (Payload.state
           (run 0 scenarioC [START_GAME; TICK; OPEN_TIMEOUT B 60; TICK; NEXT_QUARTER]))
  = rules (Payload.state scenarioC).
Proof. apply rules_fixed. repeat constructor. Defined.

Lemma countersNonneg_step :
  forall now payload action,
    continuesGame action ->
    countersNonneg (Payload.state payload) ->
    countersNonneg (Payload.state (reducer now payload action)).
Proof.
  intros now payload action Hact Hp.
  destruct (detectors_state_inv countersNonneg) as [Hplayer Hteam].
  { intros st key star comparison Hst _ _. unfold countersNonneg, highlightShown in *.
    cbn. unfold HIGHLIGHT_COOLDOWN_SECONDS. lia. }
  destruct action; cbn [reducer continuesGame] in *; try contradiction;
    strip_detectors Hplayer Hteam; clear Hplayer Hteam; teams;
    unfold countersNonneg in *; unfold_cases;
    st_cbn; split_ifs; st_cbn; lia.
Qed.

(** X12: starting from a snapshot in which the time-outs left of both teams,
    the length of a quarter, the game clock, the overlay countdown and the
    highlight cooldown are not negative, none of them is negative in any
    snapshot reached by actions other than HYDRATE and LOAD_GAME. *)
Theorem counters_never_negative :
  forall (now : Z) (payload : PersistedPayload) (actions : list ScoreboardAction),
    Forall continuesGame actions ->
    countersNonneg (Payload.state payload) ->
    countersNonneg (Payload.state (run now payload actions)).
Proof.
  intros now payload actions Hok Hp.
  apply (run_invariant continuesGame
           (fun p => countersNonneg (Payload.state p)) now); try assumption.
  intros p a. apply countersNonneg_step.
Qed.

Lemma counters_never_negative_witness :
  let q := run 0 (defaultPayload 0)
             [USE_TIMEOUT A; USE_TIMEOUT A; USE_TIMEOUT A; USE_TIMEOUT A;
              OPEN_TIMEOUT A (-5)] in
  Team.timeouts (State.teamA (Payload.state q)) = 0
  /\ State.overlayRemainingSeconds (Payload.state q) = 0
  /\ countersNonneg (Payload.state q).
Proof.
  cbv zeta. split; [vm_compute; reflexivity |]. split; [vm_compute; reflexivity |].
  apply counters_never_negative.
  - repeat constructor.
  - vm_compute. repeat split; discriminate.
Defined.

Lemma oneHighlight_step :
  forall now payload action,
    notHydrate action ->
    oneHighlight (Payload.state payload) ->
    oneHighlight (Payload.state (reducer now payload action)).
Proof.
  intros now payload action Hact Hp.
  destruct (detectors_state_inv oneHighlight) as [Hplayer Hteam].
  { intros st key star comparison _ _ Hone. exact Hone. }
  destruct action; cbn [reducer notHydrate] in *; try contradiction;
    strip_detectors Hplayer Hteam; clear Hplayer Hteam; teams;
    unfold oneHighlight in *; unfold_cases; unfold tickStarPlayer, tickTeamComparison;
    st_cbn; split_ifs; st_cbn;
    first [ left; reflexivity | right; reflexivity | exact Hp
          | destruct Hp; congruence ].
Qed.

(** X13: starting from a snapshot that shows at most one of the two
    highlights - the star player and the team comparison - every snapshot
    reached by actions other than HYDRATE shows at most one of them. *)
Theorem one_highlight_at_a_time :
  forall (now : Z) (payload : PersistedPayload) (actions : list ScoreboardAction),
    Forall notHydrate actions ->
    oneHighlight (Payload.state payload) ->
    oneHighlight (Payload.state (run now payload actions)).
Proof.
  intros now payload actions Hok Hp.
  apply (run_invariant notHydrate
           (fun p => oneHighlight (Payload.state p)) now); try assumption.
  intros p a. apply oneHighlight_step.
Qed.

Lemma one_highlight_at_a_time_witness :
  let q := run 0 (defaultPayload 0) (repeat (ADD_POINTS A 2 (Some "A-0-0")) 5) in
  State.tvStarPlayer (Payload.state q)
  = Some (StarPlayer.mk A "A-0-0" 10 (Some "High Scorer 10 PTS") (Some true))
  /\ State.tvTeamComparison (Payload.state q) = None.
Proof.
  cbv zeta.
  assert (Hstar : State.tvStarPlayer
                    (Payload.state
                       (run 0 (defaultPayload 0)
                          (repeat (ADD_POINTS A 2 (Some "A-0-0")) 5)))
                  = Some (StarPlayer.mk A "A-0-0" 10 (Some "High Scorer 10 PTS")
                            (Some true)))
    by (vm_compute; reflexivity).
  split; [exact Hstar |].
  assert (Hinit : oneHighlight (Payload.state (defaultPayload 0)))
    by (left; reflexivity).
  assert (Hok : Forall notHydrate (repeat (ADD_POINTS A 2 (Some "A-0-0")) 5))
    by (repeat constructor).
  destruct (one_highlight_at_a_time 0 _ _ Hok Hinit) as [Hnone | Hnone];
    [rewrite Hstar in Hnone; discriminate Hnone | exact Hnone].
Defined.

Lemma NoDup_firstn :
  forall (X : Type) (n : nat) (l : list X), NoDup l -> NoDup (firstn n l).
Proof.
  intros X. induction n as [| n IH]; intros [| x l] H; cbn [firstn]; try constructor.
  - inversion H as [| ? ? Hx Hl]; subst. intros Hin. apply Hx.
    rewrite <- (firstn_skipn n l). apply in_or_app. left. exact Hin.
  - inversion H; subst. apply IH. assumption.
Qed.

Lemma markSeen_tidy :
  forall st key, NoDup (State.tvAutoSeen st) -> seenKeysTidy (markSeen st key).
Proof.
  intros st key Hnd. unfold seenKeysTidy, markSeen, JS.slice0.
  cbn [State.tvAutoSeen State.set_tvAutoSeen]. split.
  - apply firstn_le_length.
  - apply NoDup_firstn. constructor.
    + rewrite filter_In. intros [_ Hne]. rewrite String.eqb_refl in Hne. discriminate Hne.
    + apply NoDup_filter. exact Hnd.
Qed.

Lemma seenKeysTidy_step :
  forall now payload action,
    notHydrate action ->
    seenKeysTidy (Payload.state payload) ->
    seenKeysTidy (Payload.state (reducer now payload action)).
Proof.
  intros now payload action Hact Hp.
  destruct (detectors_state_inv seenKeysTidy) as [Hplayer Hteam].
  { intros st key star comparison [_ Hnd] _ _. apply (markSeen_tidy st key Hnd). }
  destruct action; cbn [reducer notHydrate] in *; try contradiction;
    strip_detectors Hplayer Hteam; clear Hplayer Hteam; teams;
    unfold seenKeysTidy in *; unfold_cases;
    st_cbn; split_ifs; st_cbn;
    first [ exact Hp | split; [cbn; lia | constructor] ].
Qed.

(** X14: starting from a snapshot whose seen keys are at most 400 and without
    a repeated key, the seen keys of every snapshot reached by actions other
    than HYDRATE are at most 400 and without a repeated key. *)
Theorem seen_keys_tidy :
  forall (now : Z) (payload : PersistedPayload) (actions : list ScoreboardAction),
    Forall notHydrate actions ->
    seenKeysTidy (Payload.state payload) ->
    seenKeysTidy (Payload.state (run now payload actions)).
Proof.
  intros now payload actions Hok Hp.
  apply (run_invariant notHydrate
           (fun p => seenKeysTidy (Payload.state p)) now); try assumption.
  intros p a. apply seenKeysTidy_step.
Qed.

Lemma seen_keys_tidy_witness :
  State.tvAutoSeen (Payload.state tiedAtTen) = ["player:A:A-0-0:pts:10"]
  /\ seenKeysTidy (Payload.state tiedAtTen).
Proof.
  split; [vm_compute; reflexivity |].
  apply seen_keys_tidy.
  - unfold notHydrate. repeat (apply Forall_cons; [exact I |]). apply Forall_nil.
  - split; [cbn; lia | constructor].
Defined.

(** *** The action log *)








(** ** The rosters *)

Ltac later_fields :=
  unfold laterPlayer; cbn; repeat split; auto; try lia;
  try (intros; match goal with s : Stat.t |- _ => destruct s end; reflexivity).

Lemma laterPlayer_refl : forall p, laterPlayer p p.
Proof. intros p. unfold laterPlayer. repeat split; auto. lia. Qed.

Lemma laterPlayer_trans :
  forall p q r, laterPlayer p q -> laterPlayer q r -> laterPlayer p r.
Proof.
  intros p q r (Hid & Himg & Hsec & Hout) (Kid & Kimg & Ksec & Kout).
  unfold laterPlayer. split; [congruence |]. split; [congruence |]. split; [lia |].
  intros Hp. destruct (Hout Hp) as [Hq Hstat]. destruct (Kout Hq) as [Hr Kstat].
  split; [exact Hr |]. intros stat. rewrite Kstat. apply Hstat.
Qed.

Lemma Forall2_later_map :
  forall (f : Player.t -> Player.t) l l',
    (forall p, laterPlayer p (f p)) ->
    Forall2 laterPlayer l l' -> Forall2 laterPlayer l (map f l').
Proof.
  intros f l l' Hf H. induction H as [| x y l l' Hxy _ IH]; cbn [map]; constructor.
  - eapply laterPlayer_trans; [exact Hxy | apply Hf].
  - exact IH.
Qed.

Lemma later_creditPoints : forall id points p, laterPlayer p (creditPoints id points p).
Proof.
  intros id points p. unfold creditPoints.
  destruct (String.eqb (Player.id p) id); [| apply laterPlayer_refl].
  later_fields.
Qed.

Lemma later_incPlayerStat :
  forall foulLimit playerId stat amount p,
    laterPlayer p (incPlayerStat foulLimit playerId stat amount p).
Proof.
  intros foulLimit playerId stat amount p. unfold incPlayerStat.
  destruct (Player.fouledOut p) eqn:Hout.
  - rewrite orb_true_r. apply laterPlayer_refl.
  - destruct (negb _ || false); [apply laterPlayer_refl |].
    destruct (is_fls stat && _); destruct stat; unfold laterPlayer; cbn;
      rewrite ?Hout; repeat split; try lia; discriminate.
Qed.

Lemma later_onCourt : forall v p, laterPlayer p (Player.set_onCourt v p).
Proof.
  intros v p. later_fields.
Qed.

Lemma later_tick :
  forall p,
    laterPlayer p
      (if Player.onCourt p
       then Player.set_secondsPlayed (Player.secondsPlayed p + 1) p else p).
Proof.
  intros p. destruct (Player.onCourt p); [| apply laterPlayer_refl].
  later_fields.
Qed.

Lemma later_update :
  forall name number onCourt p,
    laterPlayer p (Player.set_onCourt onCourt (Player.set_number number
                                                 (Player.set_name name p))).
Proof.
  intros name number onCourt p. later_fields.
Qed.

Ltac later_map :=
  apply Forall2_later_map; [| assumption];
  let p := fresh "p" in
  intros p;
  repeat match goal with
  | |- laterPlayer _ (if ?b then _ else _) =>
      first [ apply later_tick | destruct b ]
  end;
  first [ apply laterPlayer_refl | apply later_creditPoints | apply later_incPlayerStat
        | apply later_onCourt | apply later_update ].

Lemma laterRoster_step :
  forall now payload action,
    keepsRoster action ->
    forall team l,
      Forall2 laterPlayer l (players_of team payload) ->
      Forall2 laterPlayer l (players_of team (reducer now payload action)).
Proof.
  intros now payload action Hact team0 l Hp.
  assert (Hplayer : forall p team id, Forall2 laterPlayer l (players_of team0 p) ->
            Forall2 laterPlayer l (players_of team0 (maybeAutoPlayerHighlight p team id))).
  { intros p team id H.
    rewrite (sameGame_players_of team0 _ _ (proj1 (maybeAutoPlayerHighlight_frame p team id))).
    exact H. }
  assert (Hteam : forall p, Forall2 laterPlayer l (players_of team0 p) ->
            Forall2 laterPlayer l (players_of team0 (maybeAutoTeamComparison p))).
  { intros p H.
    rewrite (sameGame_players_of team0 _ _ (proj1 (maybeAutoTeamComparison_frame p))).
    exact H. }
  destruct action; cbn [reducer keepsRoster] in *; try contradiction;
    strip_detectors Hplayer Hteam; clear Hplayer Hteam; teams;
    unfold players_of in *; unfold_cases; unfold tickSecondsPlayed;
    cbn [Players.get Players.set Players.A Players.B] in *;
    st_cbn; split_ifs; st_cbn;
    cbn [Players.get Players.set Players.A Players.B] in *;
    first [ exact Hp | later_map ].
Qed.

(** X16: under every action that neither replaces a roster (HYDRATE,
    LOAD_GAME) nor adds or removes a player (ADD_PLAYER, DELETE_PLAYER), each
    roster keeps its players in their places: every player keeps id and
    picture, never loses seconds played, and a fouled-out player stays fouled
    out with rebounds, assists, steals, blocks and fouls frozen - a foul of a
    fouled-out player cannot be taken back. *)
Theorem roster_kept :
  forall (now : Z) (payload : PersistedPayload) (actions : list ScoreboardAction)
         (team : TeamId),
    Forall keepsRoster actions ->
    Forall2 laterPlayer (players_of team payload)
                        (players_of team (run now payload actions)).
Proof.
  intros now payload actions team Hok.
  apply (run_invariant keepsRoster
           (fun p => Forall2 laterPlayer (players_of team payload) (players_of team p))
           now); [| exact Hok |].
  - intros p a Ha. apply laterRoster_step. exact Ha.
  - induction (players_of team payload); constructor;
      [apply laterPlayer_refl | assumption].
Qed.

Lemma roster_kept_witness :
  let later :=
    run 0 fiveFouls
      [INC_PLAYER_STAT A "A-0-0" Stat.fls (Some (-1));
       INC_PLAYER_STAT A "A-0-0" Stat.reb None;
       SET_PLAYER_ON_COURT A "A-0-0" true; START_GAME; TICK] in
  Forall2 laterPlayer (players_of A fiveFouls) (players_of A later)
  /\ option_map Player.fouledOut (find_player "A-0-0" (players_of A fiveFouls))
     = Some true
  /\ option_map Player.fls (find_player "A-0-0" (players_of A later)) = Some 5
  /\ option_map Player.reb (find_player "A-0-0" (players_of A later)) = Some 0
  /\ option_map Player.onCourt (find_player "A-0-0" (players_of A later)) = Some false.
Proof.
  cbv zeta. split; [| repeat split; vm_compute; reflexivity].
  apply roster_kept. repeat constructor.
Defined.

(** *** Distinct ids *)

Lemma to_int_not_nil :
  forall n, Z.to_int n <> Decimal.Pos Decimal.Nil /\ Z.to_int n <> Decimal.Neg Decimal.Nil.
Proof.
  intros n. split; intros H;
    assert (Hn : n = 0) by (rewrite <- (DecimalZ.of_to n), H; reflexivity);
    subst n; vm_compute in H; discriminate H.
Qed.

(** [String(n)] tells the integers apart. *)
Lemma String__inj : forall a b, JS.String_ a = JS.String_ b -> a = b.
Proof.
  intros a b H. unfold JS.String_ in H.
  apply (f_equal NilZero.int_of_string) in H.
  destruct (to_int_not_nil a) as [Ha1 Ha2]. destruct (to_int_not_nil b) as [Hb1 Hb2].
  rewrite !NilZero.isi in H by assumption.
  injection H as H. apply DecimalZ.to_int_inj. exact H.
Qed.

Lemma append_inj_l : forall s a b, (s ++ a)%string = (s ++ b)%string -> a = b.
Proof.
  induction s as [| c s IH]; intros a b H; [exact H |].
  cbn [String.append] in H. injection H as H. apply IH. exact H.
Qed.

Lemma length_append :
  forall a b, String.length (a ++ b) = (String.length a + String.length b)%nat.
Proof.
  induction a as [| c a IH]; intros b; [reflexivity |].
  cbn [String.append String.length]. rewrite IH. reflexivity.
Qed.

Lemma append_inj_r : forall w a b, (a ++ w)%string = (b ++ w)%string -> a = b.
Proof.
  intros w a b H.
  assert (Hlen : String.length a = String.length b).
  { apply (f_equal String.length) in H. rewrite !length_append in H. lia. }
  revert b H Hlen. induction a as [| c a IH]; intros [| d b] H Hlen;
    try discriminate Hlen; [reflexivity |].
  cbn [String.append] in H. injection H as -> H. f_equal.
  apply IH; [exact H | cbn [String.length] in Hlen; lia].
Qed.

(** A roster built from the index of each entry, by a function that tells
    the indices apart, has distinct ids. *)
Lemma mapi_from_ids :
  forall (X : Type) (f : X -> Z -> Player.t) (g : Z -> string),
    (forall x i, Player.id (f x i) = g i) ->
    (forall i j, g i = g j -> i = j) ->
    forall l i,
      NoDup (map Player.id (JS.mapi_from f i l))
      /\ forall s, In s (map Player.id (JS.mapi_from f i l)) -> exists j, i <= j /\ s = g j.
Proof.
  intros X f g Hid Hinj. induction l as [| x l IH]; intros i; cbn [JS.mapi_from map].
  - split; [constructor | intros s []].
  - destruct (IH (i + 1)) as [Hnd Hin]. split.
    + constructor; [| exact Hnd].
      intros H. destruct (Hin _ H) as (j & Hj & Heq).
      rewrite Hid in Heq. apply Hinj in Heq. lia.
    + intros s [<- | H].
      * exists i. split; [lia | apply Hid].
      * destruct (Hin _ H) as (j & Hj & Heq). exists j. split; [lia | exact Heq].
Qed.

Lemma createPlayerState_ids :
  forall now players teamKey, NoDup (map Player.id (createPlayerState now players teamKey)).
Proof.
  intros now players teamKey. unfold createPlayerState, JS.mapi.
  apply (mapi_from_ids _ _
           (fun idx => TeamId_str teamKey ++ "-" ++ JS.String_ idx ++ "-" ++ JS.String_ now)).
  - reflexivity.
  - intros i j H. apply append_inj_l in H. apply append_inj_l in H.
    apply append_inj_r in H. apply String__inj. exact H.
Qed.

Lemma buildLivePlayers_ids :
  forall now team players, NoDup (map Player.id (buildLivePlayers now team players)).
Proof.
  intros now team players. unfold buildLivePlayers, JS.mapi.
  apply (mapi_from_ids _ _
           (fun idx => TeamId_str team ++ "-" ++ JS.String_ now ++ "-" ++ JS.String_ idx)).
  - reflexivity.
  - intros i j H. do 4 apply append_inj_l in H. apply String__inj. exact H.
Qed.

Lemma laterPlayer_ids :
  forall l l', Forall2 laterPlayer l l' -> map Player.id l' = map Player.id l.
Proof.
  intros l l' H. induction H as [| x y l l' (Hid & _) _ IH]; [reflexivity |].
  cbn [map]. rewrite Hid, IH. reflexivity.
Qed.

Lemma Forall2_later_refl : forall l, Forall2 laterPlayer l l.
Proof. induction l; constructor; [apply laterPlayer_refl | assumption]. Qed.

Lemma NoDup_map_filter :
  forall (X Y : Type) (f : X -> Y) (g : X -> bool) (l : list X),
    NoDup (map f l) -> NoDup (map f (filter g l)).
Proof.
  intros X Y f g. induction l as [| x l IH]; intros H; [constructor |].
  cbn [map] in H. inversion H as [| ? ? Hx Hl]; subst. cbn [filter].
  destruct (g x); [| apply IH; exact Hl].
  cbn [map]. constructor; [| apply IH; exact Hl].
  intros Hin. apply Hx. apply in_map_iff in Hin. destruct Hin as (y & Hy & Hin).
  apply filter_In in Hin. apply in_map_iff. exists y. tauto.
Qed.

Lemma distinctIds_step :
  forall now payload action,
    keepsIds action -> distinctIds payload -> distinctIds (reducer now payload action).
Proof.
  intros now payload action Hact Hp team.
  destruct action; cbn [keepsIds] in Hact; try contradiction;
    try (match goal with
         | |- NoDup (map Player.id (players_of _ (reducer _ _ ?a))) =>
             rewrite (laterPlayer_ids _ _
                        (laterRoster_step now payload a I team _
                           (Forall2_later_refl (players_of team payload))))
         end; apply Hp).
  - (* LOAD_GAME *) destruct team; apply buildLivePlayers_ids.
  - (* DELETE_PLAYER *)
    cbn [reducer]. unfold reduce_DELETE_PLAYER.
    unfold players_of at 1. rewrite recalcTeamFouls_players.
    fold (players_of team (set_players_of team0
            (filter (fun p => negb (String.eqb (Player.id p) playerId))
                    (players_of team0 payload)) payload)).
    rewrite players_of_set_players_of_cases.
    destruct (TeamId_eqb team0 team); [apply NoDup_map_filter |]; apply Hp.
Qed.

(** X17: within each team no two players have the same id - the condition
    under which five on the court is kept - in the default snapshot and after
    LOAD_GAME, and this is kept by every action other than HYDRATE and
    ADD_PLAYER; ADD_PLAYER keeps it when the id it makes from the team and the
    clock is not yet in the roster. *)
Theorem distinct_ids :
  forall (now : Z) (payload : PersistedPayload),
    distinctIds (defaultPayload now)
    /\ (forall home away rules,
          distinctIds (reducer now payload (LOAD_GAME home away rules)))
    /\ (distinctIds payload ->
        (forall actions, Forall keepsIds actions -> distinctIds (run now payload actions))
        /\ (forall team name number onCourt,
              ~ In (TeamId_str team ++ "-" ++ JS.String_ now)
                   (map Player.id (players_of team payload)) ->
              distinctIds (reducer now payload (ADD_PLAYER team name number onCourt)))).
Proof.
  intros now payload. split; [| split].
  - intros [|]; apply createPlayerState_ids.
  - intros home away rules [|]; apply buildLivePlayers_ids.
  - intros Hp. split.
    + intros actions Hok.
      apply (run_invariant keepsIds distinctIds now); try assumption.
      intros p a. apply distinctIds_step.
    + intros team name number onCourt Hfresh team'. cbn [reducer].
      unfold reduce_ADD_PLAYER. rewrite players_of_set_players_of_cases.
      destruct (TeamId_eqb team team') eqn:Hteam; [| apply Hp].
      rewrite map_app. cbn [map Player.id].
      apply NoDup_app; [apply Hp | repeat constructor; intros [] |].
      intros s Hs [<- | []]. apply Hfresh. exact Hs.
Qed.

Lemma distinct_ids_witness :
  distinctIds
    (reducer 1 (run 1 (defaultPayload 0) [DELETE_PLAYER A "A-0-0"; TICK])
       (ADD_PLAYER A "First" 20 true)).
Proof.
  destruct (distinct_ids 1 (run 1 (defaultPayload 0) [DELETE_PLAYER A "A-0-0"; TICK]))
    as (_ & _ & Hkept).
  destruct (distinct_ids 0 (defaultPayload 0)) as (Hdefault & _).
  assert (Hrun : distinctIds (run 1 (defaultPayload 0) [DELETE_PLAYER A "A-0-0"; TICK])).
  { destruct (distinct_ids 1 (defaultPayload 0)) as (_ & _ & Hkept0).
    apply (Hkept0 Hdefault). repeat constructor. }
  apply (Hkept Hrun).
  vm_compute. intuition discriminate.
Defined.

(** ** The clocks *)

Lemma playedFor_zero : forall l, map (playedFor 0) l = l.
Proof.
  induction l as [| p l IH]; [reflexivity |]. cbn [map]. rewrite IH. f_equal.
  unfold playedFor. destruct (Player.onCourt p); [| reflexivity].
  destruct p. unfold Player.set_secondsPlayed. cbn. f_equal. lia.
Qed.

Lemma playedFor_succ :
  forall n l, tickSecondsPlayed (map (playedFor n) l) = map (playedFor (n + 1)) l.
Proof.
  intros n l. unfold tickSecondsPlayed. rewrite map_map. apply map_ext.
  intros p. unfold playedFor. destruct (Player.onCourt p) eqn:Hon.
  - cbn. rewrite Hon. unfold Player.set_secondsPlayed. cbn. f_equal. lia.
  - rewrite Hon. reflexivity.
Qed.

(** One second of a running game clock that does not end the quarter. *)
Lemma tick_running :
  forall payload,
    State.overlayMode (Payload.state payload) = None ->
    State.gameClockRunning (Payload.state payload) = true ->
    1 < State.gameClockSeconds (Payload.state payload) ->
    let q := reduce_TICK payload in
    State.overlayMode (Payload.state q) = None
    /\ State.gameClockRunning (Payload.state q) = true
    /\ State.gameClockSeconds (Payload.state q)
       = State.gameClockSeconds (Payload.state payload) - 1
    /\ State.quarter (Payload.state q) = State.quarter (Payload.state payload)
    /\ State.gameFinal (Payload.state q) = State.gameFinal (Payload.state payload)
    /\ team_of A (Payload.state q) = team_of A (Payload.state payload)
    /\ team_of B (Payload.state q) = team_of B (Payload.state payload)
    /\ Payload.actionLog q = Payload.actionLog payload
    /\ Payload.players q
       = Players.mk (tickSecondsPlayed (Players.A (Payload.players payload)))
                    (tickSecondsPlayed (Players.B (Payload.players payload))).
Proof.
  intros payload Hov Hrun Hsec. cbv zeta. unfold reduce_TICK.
  rewrite Hov, Hrun.
  assert (Hnext : Z.max 0 (State.gameClockSeconds (Payload.state payload) - 1)
                  = State.gameClockSeconds (Payload.state payload) - 1) by lia.
  rewrite Hnext.
  assert (Hzero : (State.gameClockSeconds (Payload.state payload) - 1 =? 0) = false)
    by lia.
  assert (Hpos : (State.gameClockSeconds (Payload.state payload) - 1 >? 0) = true)
    by lia.
  rewrite Hzero, Hpos. cbn [andb]. cbn. rewrite Hov. repeat split.
Qed.

(** X18: while no overlay is active and the game clock runs, [n] TICKs that
    do not reach the end of the quarter take [n] seconds off the game clock
    and give [n] seconds played to every player on the court and none to the
    players on the bench; the clock keeps running, and the quarter, the final
    flag, both teams' records and the action log stay as they are. *)
Theorem running_clock_ticks :
  forall (now : Z) (payload : PersistedPayload) (n : nat),
    State.overlayMode (Payload.state payload) = None ->
    State.gameClockRunning (Payload.state payload) = true ->
    Z.of_nat n < State.gameClockSeconds (Payload.state payload) ->
    let q := run now payload (repeat TICK n) in
    State.overlayMode (Payload.state q) = None
    /\ State.gameClockRunning (Payload.state q) = true
    /\ State.gameClockSeconds (Payload.state q)
       = State.gameClockSeconds (Payload.state payload) - Z.of_nat n
    /\ State.quarter (Payload.state q) = State.quarter (Payload.state payload)
    /\ State.gameFinal (Payload.state q) = State.gameFinal (Payload.state payload)
    /\ (forall team,
          team_of team (Payload.state q) = team_of team (Payload.state payload)
          /\ players_of team q = map (playedFor (Z.of_nat n)) (players_of team payload))
    /\ Payload.actionLog q = Payload.actionLog payload.
Proof.
  intros now payload n Hov Hrun. cbv zeta.
  induction n as [| n IH]; intros Hsec.
  - cbn [repeat run fold_left]. repeat split; try assumption; try lia;
      try (destruct team; reflexivity).
    symmetry. apply playedFor_zero.
  - replace (repeat TICK (S n)) with (repeat TICK n ++ [TICK])%list
      by (rewrite <- repeat_cons; reflexivity).
    unfold run in *. rewrite fold_left_app. cbn [fold_left reducer].
    destruct IH as (Kov & Krun & Ksec & Kq & Kfinal & Kteams & Klog); [lia |].
    destruct (tick_running _ Kov Krun ltac:(lia))
      as (Lov & Lrun & Lsec & Lq & Lfinal & LA & LB & Llog & Lplayers).
    repeat split; try congruence; try lia.
    + destruct team; [rewrite LA | rewrite LB]; apply Kteams.
    + unfold players_of at 1. rewrite Lplayers.
      replace (Z.of_nat (S n)) with (Z.of_nat n + 1) by lia.
      destruct team; cbn [Players.get Players.A Players.B];
        rewrite <- playedFor_succ; f_equal; [apply (Kteams A) | apply (Kteams B)].
Qed.

Lemma running_clock_ticks_witness :
  let p := reducer 0 (defaultPayload 0) START_GAME in
  let q := run 0 p (repeat TICK 90) in
  State.gameClockSeconds (Payload.state q) = 510
  /\ map Player.secondsPlayed (players_of A q) = [90; 90; 90; 90; 90; 0; 0].
Proof.
  cbv zeta.
  destruct (running_clock_ticks 0 (reducer 0 (defaultPayload 0) START_GAME) 90)
    as (_ & _ & Hsec & _ & _ & Hteams & _);
    [reflexivity | reflexivity | reflexivity |].
  split.
  - rewrite Hsec. reflexivity.
  - rewrite (proj2 (Hteams A)). reflexivity.
Defined.

(** One second of an overlay that does not end it: only the countdown and
    the highlight fields move. *)
Lemma tick_overlay :
  forall payload mode,
    State.overlayMode (Payload.state payload) = Some mode ->
    1 < State.overlayRemainingSeconds (Payload.state payload) ->
    let q := reduce_TICK payload in
    State.overlayMode (Payload.state q) = Some mode
    /\ State.overlayRemainingSeconds (Payload.state q)
       = State.overlayRemainingSeconds (Payload.state payload) - 1
    /\ State.overlayResumeGame (Payload.state q)
       = State.overlayResumeGame (Payload.state payload)
    /\ State.gameClockRunning (Payload.state q)
       = State.gameClockRunning (Payload.state payload)
    /\ State.shotClockRunning (Payload.state q)
       = State.shotClockRunning (Payload.state payload)
    /\ State.gameClockSeconds (Payload.state q)
       = State.gameClockSeconds (Payload.state payload)
    /\ State.shotClockSeconds (Payload.state q)
       = State.shotClockSeconds (Payload.state payload)
    /\ State.quarter (Payload.state q) = State.quarter (Payload.state payload)
    /\ State.teamA (Payload.state q) = State.teamA (Payload.state payload)
    /\ State.teamB (Payload.state q) = State.teamB (Payload.state payload)
    /\ Payload.players q = Payload.players payload
    /\ Payload.actionLog q = Payload.actionLog payload.
Proof.
  intros payload mode Hmode Hrem. cbv zeta. unfold reduce_TICK. rewrite Hmode.
  assert (Hnext : Z.max 0 (State.overlayRemainingSeconds (Payload.state payload) - 1)
                  = State.overlayRemainingSeconds (Payload.state payload) - 1) by lia.
  rewrite Hnext.
  assert (Hpos : (State.overlayRemainingSeconds (Payload.state payload) - 1 <=? 0) = false)
    by lia.
  rewrite Hpos. cbn. rewrite Hmode. repeat split.
Qed.

Lemma overlay_countdown :
  forall (now : Z) (n : nat) (payload : PersistedPayload) (mode : OverlayMode),
    State.overlayMode (Payload.state payload) = Some mode ->
    Z.of_nat n < State.overlayRemainingSeconds (Payload.state payload) ->
    let q := run now payload (repeat TICK n) in
    State.overlayMode (Payload.state q) = Some mode
    /\ State.overlayRemainingSeconds (Payload.state q)
       = State.overlayRemainingSeconds (Payload.state payload) - Z.of_nat n
    /\ State.overlayResumeGame (Payload.state q)
       = State.overlayResumeGame (Payload.state payload)
    /\ State.gameClockRunning (Payload.state q)
       = State.gameClockRunning (Payload.state payload)
    /\ State.shotClockRunning (Payload.state q)
       = State.shotClockRunning (Payload.state payload)
    /\ State.gameClockSeconds (Payload.state q)
       = State.gameClockSeconds (Payload.state payload)
    /\ State.shotClockSeconds (Payload.state q)
       = State.shotClockSeconds (Payload.state payload)
    /\ State.quarter (Payload.state q) = State.quarter (Payload.state payload)
    /\ State.teamA (Payload.state q) = State.teamA (Payload.state payload)
    /\ State.teamB (Payload.state q) = State.teamB (Payload.state payload)
    /\ Payload.players q = Payload.players payload
    /\ Payload.actionLog q = Payload.actionLog payload.
Proof.
  intros now n payload mode Hmode. cbv zeta.
  induction n as [| n IH]; intros Hrem.
  - cbn [repeat run fold_left]. repeat split; try assumption; lia.
  - replace (repeat TICK (S n)) with (repeat TICK n ++ [TICK])%list
      by (rewrite <- repeat_cons; reflexivity).
    unfold run in *. rewrite fold_left_app. cbn [fold_left reducer].
    destruct IH as (K1 & K2 & K3 & K4 & K5 & K6 & K7 & K8 & K9 & K10 & K11 & K12);
      [lia |].
    destruct (tick_overlay _ mode K1 ltac:(lia))
      as (L1 & L2 & L3 & L4 & L5 & L6 & L7 & L8 & L9 & L10 & L11 & L12).
    repeat split; try congruence; lia.
Qed.

(** X19: a timeout of [seconds] seconds, [seconds] at least one, runs its
    course in exactly [seconds] TICKs.  Before the last of them the overlay
    shows with its countdown, both clocks stopped; with the last one it ends
    and the game clock runs again exactly when it ran before the timeout (the
    shot clock follows the game clock).  The timeout takes no time off either
    clock, gives no player a second played, changes no score and costs the
    team one time-out, if it has one left. *)
Theorem timeout_runs_its_course :
  forall (now : Z) (payload : PersistedPayload) (team : TeamId) (seconds : Z) (n : nat),
    1 <= seconds ->
    Z.of_nat n <= seconds ->
    let q := run now payload (OPEN_TIMEOUT team seconds :: repeat TICK n) in
    (if Z.of_nat n <? seconds
     then State.overlayMode (Payload.state q) = Some timeout
          /\ State.overlayRemainingSeconds (Payload.state q) = seconds - Z.of_nat n
          /\ State.gameClockRunning (Payload.state q) = false
          /\ State.shotClockRunning (Payload.state q) = false
     else State.overlayMode (Payload.state q) = None
          /\ State.overlayRemainingSeconds (Payload.state q) = 0
          /\ State.gameClockRunning (Payload.state q)
             = State.gameClockRunning (Payload.state payload)
          /\ State.shotClockRunning (Payload.state q)
             = State.gameClockRunning (Payload.state payload))
    /\ State.gameClockSeconds (Payload.state q)
       = State.gameClockSeconds (Payload.state payload)
    /\ State.shotClockSeconds (Payload.state q)
       = State.shotClockSeconds (Payload.state payload)
    /\ State.quarter (Payload.state q) = State.quarter (Payload.state payload)
    /\ Payload.players q = Payload.players payload
    /\ (forall side,
          Team.score (team_of side (Payload.state q))
          = Team.score (team_of side (Payload.state payload)))
    /\ Team.timeouts (team_of team (Payload.state q))
       = Z.max 0 (Team.timeouts (team_of team (Payload.state payload)) - 1).
Proof.
  intros now payload team seconds n Hpos Hn. cbv zeta.
  change (run now payload (OPEN_TIMEOUT team seconds :: repeat TICK n))
    with (run now (reduce_OPEN_TIMEOUT payload team seconds) (repeat TICK n)).
  set (opened := reduce_OPEN_TIMEOUT payload team seconds).
  assert (Hopened :
    State.overlayMode (Payload.state opened) = Some timeout
    /\ State.overlayRemainingSeconds (Payload.state opened) = seconds
    /\ State.overlayResumeGame (Payload.state opened)
       = State.gameClockRunning (Payload.state payload)
    /\ State.gameClockRunning (Payload.state opened) = false
    /\ State.shotClockRunning (Payload.state opened) = false
    /\ State.gameClockSeconds (Payload.state opened)
       = State.gameClockSeconds (Payload.state payload)
    /\ State.shotClockSeconds (Payload.state opened)
       = State.shotClockSeconds (Payload.state payload)
    /\ State.quarter (Payload.state opened) = State.quarter (Payload.state payload)
    /\ Payload.players opened = Payload.players payload
    /\ (forall side,
          Team.score (team_of side (Payload.state opened))
          = Team.score (team_of side (Payload.state payload)))
    /\ Team.timeouts (team_of team (Payload.state opened))
       = Z.max 0 (Team.timeouts (team_of team (Payload.state payload)) - 1)).
  { subst opened. unfold reduce_OPEN_TIMEOUT. destruct team; cbn;
      repeat split; try lia; destruct side; reflexivity. }
  clearbody opened.
  destruct Hopened as (O1 & O2 & O3 & O4 & O5 & O6 & O7 & O8 & O9 & O10 & O11).
  destruct (Z.ltb_spec (Z.of_nat n) seconds) as [Hlt | Hge].
  - destruct (overlay_countdown now n opened timeout O1 ltac:(lia))
      as (K1 & K2 & K3 & K4 & K5 & K6 & K7 & K8 & K9 & K10 & K11 & K12).
    repeat split; try congruence; try lia.
    + intros side. rewrite <- O10. destruct side; cbn [team_of]; congruence.
    + rewrite <- O11. destruct team; cbn [team_of]; congruence.
  - destruct n as [| n]; [lia |].
    replace (repeat TICK (S n)) with (repeat TICK n ++ [TICK])%list
      by (rewrite <- repeat_cons; reflexivity).
    unfold run. rewrite fold_left_app. cbn [fold_left reducer].
    fold (run now opened (repeat TICK n)).
    destruct (overlay_countdown now n opened timeout O1 ltac:(lia))
      as (K1 & K2 & K3 & K4 & K5 & K6 & K7 & K8 & K9 & K10 & K11 & K12).
    set (last := run now opened (repeat TICK n)) in *. clearbody last.
    unfold reduce_TICK. rewrite K1.
    assert (Hz : Z.max 0 (State.overlayRemainingSeconds (Payload.state last) - 1) = 0)
      by lia.
    rewrite Hz. cbn [Z.leb Z.compare]. unfold endOverlay. cbn. rewrite K1. cbn.
    repeat split; try congruence.
    + intros side. rewrite <- O10. destruct side; cbn; congruence.
    + rewrite <- O11. destruct team; cbn; congruence.
Qed.

Lemma timeout_runs_its_course_witness :
  let before := run 0 (defaultPayload 0) [START_GAME; STOP_SHOT] in
  let during := run 0 before (OPEN_TIMEOUT A 30 :: repeat TICK 29) in
  let after := run 0 before (OPEN_TIMEOUT A 30 :: repeat TICK 30) in
  State.overlayRemainingSeconds (Payload.state during) = 1
  /\ State.gameClockRunning (Payload.state during) = false
  /\ State.overlayMode (Payload.state after) = None
  /\ State.gameClockRunning (Payload.state after) = true
  /\ State.shotClockRunning (Payload.state after) = true
  /\ State.gameClockSeconds (Payload.state after) = 600
  /\ Team.timeouts (team_of A (Payload.state after)) = 2.
Proof.
  cbv zeta.
  destruct (timeout_runs_its_course 0 (run 0 (defaultPayload 0) [START_GAME; STOP_SHOT])
              A 30 29) as ((_ & D2 & D3 & _) & _); [lia | lia |].
  destruct (timeout_runs_its_course 0 (run 0 (defaultPayload 0) [START_GAME; STOP_SHOT])
              A 30 30) as ((A1 & _ & A3 & A4) & A5 & _ & _ & _ & _ & A6); [lia | lia |].
  split; [rewrite D2; reflexivity |]. split; [exact D3 |]. split; [exact A1 |].
  split; [rewrite A3; vm_compute; reflexivity |].
  split; [rewrite A4; vm_compute; reflexivity |].
  split; [rewrite A5; vm_compute; reflexivity | rewrite A6; vm_compute; reflexivity].
Defined.

(** ** The end of the game *)

Lemma final_step :
  forall now payload action,
    keepsFinal action ->
    forall b,
      State.gameFinal (Payload.state payload) = true /\ board (Payload.state payload) = b ->
      State.gameFinal (Payload.state (reducer now payload action)) = true
      /\ board (Payload.state (reducer now payload action)) = b.
Proof.
  intros now payload action Hact b Hp.
  blind_detectors (fun st => State.gameFinal st = true /\ board st = b)
                  Hblind Hplayer Hteam.
  destruct action; cbn [reducer keepsFinal] in *; try contradiction;
    try (unfold reduce_ADD_POINTS, reduce_ADD_FAST_BREAK_POINTS;
         rewrite (proj1 Hp); exact Hp);
    strip_detectors Hplayer Hteam; clear Hblind Hplayer Hteam; teams;
    unfold board in *; unfold_cases;
    st_cbn; split_ifs; st_cbn;
    first [ exact Hp | destruct Hp; split; [reflexivity | assumption]
          | destruct Hp; congruence ].
Qed.

(** X20: once the game is final, the points on the board - both scores and
    both fast-break counts - are frozen and the game stays final under every
    action but those that reopen the game or replace it (START_GAME,
    RESET_QUARTER, PREV_QUARTER, NEXT_QUARTER, LOAD_GAME, HYDRATE): ADD_POINTS
    and ADD_FAST_BREAK_POINTS are refused. *)
Theorem final_score_frozen :
  forall (now : Z) (payload : PersistedPayload) (actions : list ScoreboardAction),
    Forall keepsFinal actions ->
    State.gameFinal (Payload.state payload) = true ->
    State.gameFinal (Payload.state (run now payload actions)) = true
    /\ board (Payload.state (run now payload actions)) = board (Payload.state payload).
Proof.
  intros now payload actions Hok Hp.
  apply (run_invariant keepsFinal
           (fun p => State.gameFinal (Payload.state p) = true
                     /\ board (Payload.state p) = board (Payload.state payload)) now);
    [| exact Hok | split; [exact Hp | reflexivity]].
  intros p a Ha. apply final_step. exact Ha.
Qed.

Lemma final_score_frozen_witness :
  let final := run 0 (defaultPayload 0) [ADD_POINTS A 2 None; FINISH_GAME] in
  let q := run 0 final [ADD_POINTS B 3 (Some "B-0-0"); ADD_FAST_BREAK_POINTS B 2;
                        USE_TIMEOUT B; TICK; END_OVERLAY (Some true)] in
  board (Payload.state final) = (2, 0, 0, 0)
  /\ State.gameFinal (Payload.state q) = true
  /\ board (Payload.state q) = board (Payload.state final).
Proof.
  cbv zeta. split; [vm_compute; reflexivity |].
  apply final_score_frozen; [repeat constructor | vm_compute; reflexivity].
Defined.

(** ** The team comparison *)

Lemma leader_spec :
  forall a b lead,
    leader a b = Some lead ->
    lead = (if a >? b then A else B)
    /\ (lead = A -> b < a) /\ (lead = B -> a < b).
Proof.
  intros a b lead. unfold leader.
  destruct (Z.eqb_spec a b) as [Heq | Hne]; [discriminate |].
  destruct (a >? b) eqn:Hgt; intros H; injection H as <-;
    (split; [reflexivity |]); split; intros H; try discriminate H; lia.
Qed.

(** X21: when the team-comparison detector fires, no highlight was showing
    and the cooldown was at zero (or below); the comparison is on rebounds,
    with a lead of at least 6 and at least 18 rebounds in all, or - when the
    rebound comparison does not fire - on fast-break points, with a lead of at
    least 4 and at least 8 points in all; the leading team has strictly more;
    and the key of metric, leader and lead (rounded down to a multiple of 3,
    or of 2) was not among the seen keys.  The snapshot after it has the key
    first among the seen keys, the cooldown at 22 seconds, no star player and
    the comparison showing for 10 seconds. *)
Theorem team_comparison_fires_only_if :
  forall payload : PersistedPayload,
    let q := maybeAutoTeamComparison payload in
    q <> payload ->
    State.tvStarPlayer (Payload.state payload) = None
    /\ State.tvTeamComparison (Payload.state payload) = None
    /\ State.tvAutoCooldownSeconds (Payload.state payload) <= 0
    /\ exists (metric : Metric) (a b : Z) (lead : TeamId),
         let step := match metric with rebounds => 3 | fastBreakPoints => 2 end in
         let key := "team:" ++ Metric_str metric ++ ":" ++ TeamId_str lead ++ ":"
                    ++ JS.String_ (Z.abs (a - b) / step * step) in
         match metric with
         | rebounds =>
             a = totalTeamRebounds payload A /\ b = totalTeamRebounds payload B
             /\ 6 <= Z.abs (a - b) /\ 18 <= a + b
         | fastBreakPoints =>
             a = Team.fastBreakPoints (State.teamA (Payload.state payload))
             /\ b = Team.fastBreakPoints (State.teamB (Payload.state payload))
             /\ 4 <= Z.abs (a - b) /\ 8 <= a + b
         end
         /\ (lead = A -> b < a) /\ (lead = B -> a < b)
         /\ ~ In key (State.tvAutoSeen (Payload.state payload))
         /\ State.tvAutoSeen (Payload.state q)
            = JS.slice0 400
                (key :: filter (fun item => negb (String.eqb item key))
                               (State.tvAutoSeen (Payload.state payload)))
         /\ State.tvAutoCooldownSeconds (Payload.state q) = HIGHLIGHT_COOLDOWN_SECONDS
         /\ State.tvStarPlayer (Payload.state q) = None
         /\ State.tvTeamComparison (Payload.state q)
            = Some (TeamComparison.mk metric a b (Some lead) TEAM_HIGHLIGHT_SECONDS).
Proof.
  intros payload q Hq. subst q. revert Hq. unfold maybeAutoTeamComparison.
  destruct (canAutoHighlight payload) eqn:Hgate;
    [| intros Hq; contradiction Hq; reflexivity].
  cbn [negb].
  assert (Hpre : State.tvStarPlayer (Payload.state payload) = None
                 /\ State.tvTeamComparison (Payload.state payload) = None
                 /\ State.tvAutoCooldownSeconds (Payload.state payload) <= 0).
  { unfold canAutoHighlight in Hgate.
    destruct (State.tvStarPlayer (Payload.state payload)); [discriminate |].
    destruct (State.tvTeamComparison (Payload.state payload)); [discriminate |].
    repeat split. apply Z.leb_le. exact Hgate. }
  destruct Hpre as (Hstar & Hcomp & Hcool).
  intros Hq. split; [exact Hstar |]. split; [exact Hcomp |]. split; [exact Hcool |].
  revert Hq.
  assert (Hfb :
    fastBreakComparison payload <> payload ->
    exists (metric : Metric) (a b : Z) (lead : TeamId),
         let step := match metric with rebounds => 3 | fastBreakPoints => 2 end in
         let key := "team:" ++ Metric_str metric ++ ":" ++ TeamId_str lead ++ ":"
                    ++ JS.String_ (Z.abs (a - b) / step * step) in
         match metric with
         | rebounds =>
             a = totalTeamRebounds payload A /\ b = totalTeamRebounds payload B
             /\ 6 <= Z.abs (a - b) /\ 18 <= a + b
         | fastBreakPoints =>
             a = Team.fastBreakPoints (State.teamA (Payload.state payload))
             /\ b = Team.fastBreakPoints (State.teamB (Payload.state payload))
             /\ 4 <= Z.abs (a - b) /\ 8 <= a + b
         end
         /\ (lead = A -> b < a) /\ (lead = B -> a < b)
         /\ ~ In key (State.tvAutoSeen (Payload.state payload))
         /\ State.tvAutoSeen (Payload.state (fastBreakComparison payload))
            = JS.slice0 400
                (key :: filter (fun item => negb (String.eqb item key))
                               (State.tvAutoSeen (Payload.state payload)))
         /\ State.tvAutoCooldownSeconds (Payload.state (fastBreakComparison payload))
            = HIGHLIGHT_COOLDOWN_SECONDS
         /\ State.tvStarPlayer (Payload.state (fastBreakComparison payload)) = None
         /\ State.tvTeamComparison (Payload.state (fastBreakComparison payload))
            = Some (TeamComparison.mk metric a b (Some lead) TEAM_HIGHLIGHT_SECONDS)).
  { unfold fastBreakComparison.
    destruct (leader _ _) as [lead |] eqn:Hlead;
      [| intros Hq; contradiction Hq; reflexivity].
    destruct (_ && _) eqn:Hedge; [| intros Hq; contradiction Hq; reflexivity].
    destruct (JS.includes _ _) eqn:Hnew; [intros Hq; contradiction Hq; reflexivity |].
    intros _. cbn [negb].
    destruct (leader_spec _ _ _ Hlead) as (_ & HA & HB).
    apply andb_true_iff in Hedge. destruct Hedge as [Hdiff Htotal].
    exists fastBreakPoints,
           (Team.fastBreakPoints (State.teamA (Payload.state payload))),
           (Team.fastBreakPoints (State.teamB (Payload.state payload))), lead.
    cbv zeta. cbn [Metric_str].
    split; [repeat split; lia |]. split; [exact HA |]. split; [exact HB |].
    split; [intros Hin; apply includes_In in Hin; cbn [String.append] in *; congruence |].
    repeat split. }
  destruct (leader (totalTeamRebounds payload A) (totalTeamRebounds payload B))
    as [lead |] eqn:Hlead; [| exact Hfb].
  destruct (_ && _) eqn:Hedge; [| exact Hfb].
  destruct (JS.includes _ _) eqn:Hnew; [exact Hfb |].
  intros _. cbn [negb].
  destruct (leader_spec _ _ _ Hlead) as (_ & HA & HB).
  apply andb_true_iff in Hedge. destruct Hedge as [Hdiff Htotal].
  exists rebounds, (totalTeamRebounds payload A), (totalTeamRebounds payload B), lead.
  cbv zeta. cbn [Metric_str].
  split; [repeat split; lia |]. split; [exact HA |]. split; [exact HB |].
  split; [intros Hin; apply includes_In in Hin; cbn [String.append] in *; congruence |].
  repeat split.
Qed.

Lemma team_comparison_fires_only_if_witness :
  State.tvTeamComparison (Payload.state (maybeAutoTeamComparison fastBreakEdge))
  = Some (TeamComparison.mk fastBreakPoints 8 0 (Some A) 10)
  /\ State.tvAutoCooldownSeconds (Payload.state fastBreakEdge) <= 0.
Proof.
  split; [vm_compute; reflexivity |].
  destruct (team_comparison_fires_only_if fastBreakEdge) as (_ & _ & Hcool & _);
    [| exact Hcool].
  intros H.
  apply (f_equal (fun p => State.tvAutoCooldownSeconds (Payload.state p))) in H.
  vm_compute in H. discriminate H.
Defined.

(** ** Milestones *)

Lemma last_cons_default :
  forall (X : Type) (l : list X) (x d : X), last (x :: l) d = last l x.
Proof.
  intros X. induction l as [| y l IH]; intros x d; [reflexivity |].
  change (last (x :: y :: l) d) with (last (y :: l) d).
  rewrite (IH y d), (IH y x). reflexivity.
Qed.

Lemma highestMilestone_from :
  forall value milestones acc,
    fold_left (fun result m => if value >=? m then m else result) milestones acc
    = last (filter (fun m => value >=? m) milestones) acc.
Proof.
  intros value. induction milestones as [| m l IH]; intros acc; [reflexivity |].
  cbn [fold_left filter]. rewrite IH.
  destruct (value >=? m); [rewrite last_cons_default |]; reflexivity.
Qed.

Lemma last_In :
  forall (X : Type) (l : list X) (d : X), l <> [] -> In (last l d) l.
Proof.
  intros X. induction l as [| x l IH]; intros d Hl; [contradiction |].
  destruct l as [| y l]; [left; reflexivity |].
  right. apply IH. discriminate.
Qed.

Lemma last_sorted_max :
  forall (l : list Z) (d m : Z),
    StronglySorted Z.lt l -> In m l -> m <= last l d.
Proof.
  induction l as [| x l IH]; intros d m Hs Hin; [contradiction |].
  inversion Hs as [| ? ? Hl Hx]; subst.
  destruct l as [| y l].
  - destruct Hin as [<- | []]. cbn. lia.
  - change (last (x :: y :: l) d) with (last (y :: l) d).
    destruct Hin as [<- | Hin]; [| apply IH; assumption].
    assert (Hy : In (last (y :: l) d) (y :: l)) by (apply last_In; discriminate).
    rewrite Forall_forall in Hx. specialize (Hx _ Hy). lia.
Qed.

Lemma StronglySorted_filter :
  forall (g : Z -> bool) (l : list Z),
    StronglySorted Z.lt l -> StronglySorted Z.lt (filter g l).
Proof.
  intros g. induction l as [| x l IH]; intros Hs; [constructor |].
  inversion Hs as [| ? ? Hl Hx]; subst. cbn [filter].
  destruct (g x); [| apply IH; exact Hl].
  constructor; [apply IH; exact Hl |].
  rewrite Forall_forall in *. intros y Hy. apply Hx. apply filter_In in Hy. tauto.
Qed.

Lemma milestones_ascending :
  forall k, StronglySorted Z.lt (Tracked.milestones k) /\ Forall (Z.lt 0) (Tracked.milestones k).
Proof.
  intros k. split; destruct k; cbn;
    repeat (constructor; try lia);
    repeat (constructor; try reflexivity).
Qed.

(** X22: [highestMilestone] returns the last milestone of the list that the
    value has reached, and 0 when it has reached none.  A result other than 0
    is a milestone of the list and at most the value.  On an ascending list
    the result is the greatest milestone reached; the five lists of the
    program are ascending and positive, so that for them the result is
    positive exactly when some milestone is reached. *)
Theorem highestMilestone_spec :
  forall (value : Z) (milestones : list Z),
    let hm := highestMilestone value milestones in
    hm = last (filter (fun m => value >=? m) milestones) 0
    /\ (hm <> 0 -> In hm milestones /\ hm <= value)
    /\ (StronglySorted Z.lt milestones ->
        forall m, In m milestones -> m <= value -> m <= hm)
    /\ forall k : Tracked.t,
         let hk := highestMilestone value (Tracked.milestones k) in
         (0 < hk <-> exists m, In m (Tracked.milestones k) /\ m <= value)
         /\ (forall m, In m (Tracked.milestones k) -> m <= value -> m <= hk).
Proof.
  intros value milestones hm.
  assert (Heq : forall l, highestMilestone value l
                          = last (filter (fun m => value >=? m) l) 0)
    by (intros l; apply highestMilestone_from).
  assert (Hin : forall l, highestMilestone value l <> 0 ->
                          In (highestMilestone value l) l /\ highestMilestone value l <= value).
  { intros l Hnz. rewrite Heq in *.
    destruct (filter (fun m => value >=? m) l) as [| x f] eqn:Hf;
      [contradiction Hnz; reflexivity |].
    assert (H : In (last (x :: f) 0) (filter (fun m => value >=? m) l))
      by (rewrite Hf; apply last_In; discriminate).
    apply filter_In in H. destruct H as [H1 H2]. split; [exact H1 | lia]. }
  assert (Hmax : forall l, StronglySorted Z.lt l ->
                   forall m, In m l -> m <= value -> m <= highestMilestone value l).
  { intros l Hs m Hm Hle. rewrite Heq.
    apply last_sorted_max; [apply StronglySorted_filter; exact Hs |].
    apply filter_In. split; [exact Hm | lia]. }
  subst hm. split; [apply Heq |]. split; [apply Hin |]. split; [apply Hmax |].
  intros k hk. subst hk. destruct (milestones_ascending k) as [Hs Hpos].
  split; [| apply Hmax; exact Hs]. split.
  - intros H. exists (highestMilestone value (Tracked.milestones k)).
    apply Hin. lia.
  - intros (m & Hm & Hle). rewrite Forall_forall in Hpos.
    specialize (Hpos _ Hm). specialize (Hmax _ Hs _ Hm Hle). lia.
Qed.

(** ** Fouling out *)

Lemma INC_PLAYER_STAT_players :
  forall payload team playerId stat amount,
    Payload.players (reduce_INC_PLAYER_STAT payload team playerId stat amount)
    = Payload.players
        (set_players_of team
           (map (incPlayerStat (State.foulLimit (Payload.state payload)) playerId stat
                   (JS.nullish amount 1))
                (players_of team payload)) payload).
Proof.
  intros payload team playerId stat amount. unfold reduce_INC_PLAYER_STAT.
  match goal with
  | |- Payload.players (maybeAutoTeamComparison (maybeAutoPlayerHighlight ?x _ _)) = _ =>
      destruct (autoHighlights_frame x team playerId) as [(_ & Hplayers & _) _]
  end.
  cbv zeta in Hplayers. rewrite Hplayers.
  destruct (JS.truthy _); destruct (is_fls stat); cbn [negb];
    destruct (find_player _ _); reflexivity.
Qed.

(** X23: the foul that reaches the limit.  When a player who is not fouled
    out gets, by INC_PLAYER_STAT on [fls], to the foul limit of the game or
    beyond, the player is marked as fouled out and taken off the court, with
    the fouls counted; with distinct ids in the team the number of players on
    the court falls by one when the player was on the court and stays
    otherwise, and the other team's roster is as it was.  Below the limit the
    player only gets the fouls. *)
Theorem foul_out :
  forall (now : Z) (payload : PersistedPayload) (team : TeamId) (id : string)
         (target : Player.t) (amount : option Z),
    find_player id (players_of team payload) = Some target ->
    Player.fouledOut target = false ->
    NoDup (map Player.id (players_of team payload)) ->
    let q := reducer now payload (INC_PLAYER_STAT team id Stat.fls amount) in
    let fouls := Z.max 0 (Player.fls target + JS.nullish amount 1) in
    let out := fouls >=? State.foulLimit (Payload.state payload) in
    find_player id (players_of team q)
    = Some (if out
            then target |> Player.set_fls fouls |> Player.set_fouledOut true
                        |> Player.set_onCourt false
            else target |> Player.set_fls fouls)
    /\ onCourtCount (players_of team q)
       = onCourtCount (players_of team payload)
         - (if out then b2z (Player.onCourt target) else 0)
    /\ players_of (other team) q = players_of (other team) payload.
Proof.
  intros now payload team id target amount Hfind Hin Hnd q fouls out.
  assert (Hplayers : players_of team q
                     = map (incPlayerStat (State.foulLimit (Payload.state payload)) id
                              Stat.fls (JS.nullish amount 1))
                           (players_of team payload)).
  { subst q. cbn [reducer]. unfold players_of at 1.
    rewrite INC_PLAYER_STAT_players.
    apply players_of_set_players_of. }
  assert (Hother : players_of (other team) q = players_of (other team) payload).
  { subst q. cbn [reducer]. unfold players_of at 1.
    rewrite INC_PLAYER_STAT_players.
    destruct team; reflexivity. }
  pose proof (find_player_id _ _ _ Hfind) as Hid.
  assert (Htarget : incPlayerStat (State.foulLimit (Payload.state payload)) id Stat.fls
                      (JS.nullish amount 1) target
                    = if out
                      then target |> Player.set_fls fouls |> Player.set_fouledOut true
                                  |> Player.set_onCourt false
                      else target |> Player.set_fls fouls).
  { unfold incPlayerStat. rewrite Hid, String.eqb_refl, Hin. cbn [negb orb].
    cbn [is_fls andb set_stat get_stat]. cbn [Player.fls Player.set_fls].
    subst out fouls. destruct (_ >=? _); reflexivity. }
  split; [| split; [| exact Hother]].
  - rewrite Hplayers.
    rewrite find_player_map
      by (intros p; unfold incPlayerStat;
          destruct (negb _ || _); [reflexivity |];
          destruct (is_fls Stat.fls && _); reflexivity).
    rewrite Hfind. cbn [option_map]. rewrite Htarget. reflexivity.
  - rewrite Hplayers.
    rewrite (onCourtCount_change_one id _ _ target); [| | exact Hnd | exact Hfind].
    + rewrite Htarget. destruct out; cbn; destruct (Player.onCourt target); cbn; lia.
    + intros p Hp. unfold incPlayerStat.
      destruct (String.eqb_spec (Player.id p) id) as [Heq | _]; [contradiction |].
      reflexivity.
Qed.

Lemma foul_out_witness :
  let q := reducer 0 (defaultPayload 0) (INC_PLAYER_STAT A "A-0-0" Stat.fls (Some 5)) in
  onCourtCount (players_of A (defaultPayload 0)) = 5
  /\ onCourtCount (players_of A q) = 4
  /\ option_map Player.fouledOut (find_player "A-0-0" (players_of A q)) = Some true.
Proof.
  cbv zeta. split; [vm_compute; reflexivity |].
  destruct (foul_out 0 (defaultPayload 0) A "A-0-0"
              (Player.mk "A-0-0" 1 "Player A1" None 0 0 0 0 0 0 0 0 true false) (Some 5))
    as (Hq & Hc & _).
  - vm_compute. reflexivity.
  - reflexivity.
  - apply createPlayerState_ids.
  - split; [rewrite Hc | rewrite Hq]; vm_compute; reflexivity.
Defined.

(** ** Substitutions and roster changes *)

(** X24: SUBSTITUTE_PLAYER changes the snapshot only when both players are
    in the team's roster, the player going out is on the court and the player
    coming in is neither on the court nor fouled out.  Then, with distinct ids
    in the team, exactly these two players change: the first leaves the court
    and the second enters it, so that the number of players on the court is
    the same as before; the state and the other team's roster stay as they
    are. *)
Theorem substitution_swaps :
  forall (now : Z) (payload : PersistedPayload) (team : TeamId)
         (playerOutId playerInId : string),
    NoDup (map Player.id (players_of team payload)) ->
    let q := reducer now payload (SUBSTITUTE_PLAYER team playerOutId playerInId) in
    let admitted playerOut playerIn :=
      find_player playerOutId (players_of team payload) = Some playerOut
      /\ find_player playerInId (players_of team payload) = Some playerIn
      /\ Player.onCourt playerOut = true
      /\ Player.onCourt playerIn = false
      /\ Player.fouledOut playerIn = false in
    (q <> payload -> exists playerOut playerIn, admitted playerOut playerIn)
    /\ (forall playerOut playerIn,
          admitted playerOut playerIn ->
          find_player playerOutId (players_of team q)
          = Some (playerOut |> Player.set_onCourt false)
          /\ find_player playerInId (players_of team q)
             = Some (playerIn |> Player.set_onCourt true)
          /\ (forall p, In p (players_of team payload) ->
                Player.id p <> playerOutId -> Player.id p <> playerInId ->
                In p (players_of team q))
          /\ map Player.id (players_of team q) = map Player.id (players_of team payload)
          /\ onCourtCount (players_of team q) = onCourtCount (players_of team payload)
          /\ players_of (other team) q = players_of (other team) payload
          /\ Payload.state q = Payload.state payload).
Proof.
  intros now payload team playerOutId playerInId Hnd q admitted. subst q admitted.
  cbv beta. cbn [reducer]. unfold reduce_SUBSTITUTE_PLAYER. split.
  - destruct (find_player playerOutId (players_of team payload)) as [playerOut |];
      [| intros H; contradiction H; reflexivity].
    destruct (find_player playerInId (players_of team payload)) as [playerIn |];
      [| intros H; contradiction H; reflexivity].
    destruct (Player.onCourt playerOut) eqn:HoutOn; cbn [negb orb];
      [| intros H; contradiction H; reflexivity].
    destruct (Player.onCourt playerIn) eqn:HinOn; cbn [orb];
      [intros H; contradiction H; reflexivity |].
    destruct (Player.fouledOut playerIn) eqn:HinOk;
      [intros H; contradiction H; reflexivity |].
    intros _. exists playerOut, playerIn. repeat split; assumption.
  - intros playerOut playerIn (Hout & Hin & HoutOn & HinOn & HinOk).
    rewrite Hout, Hin, HoutOn, HinOn, HinOk. cbn [negb orb].
    assert (Hne : playerOutId <> playerInId) by (intros ->; congruence).
    pose proof (find_player_id _ _ _ Hout) as HoutId.
    pose proof (find_player_id _ _ _ Hin) as HinId.
    set (swap := fun p : Player.t =>
                   if String.eqb (Player.id p) playerOutId
                   then Player.set_onCourt false p
                   else if String.eqb (Player.id p) playerInId
                        then Player.set_onCourt true p else p).
    set (off := fun p : Player.t =>
                  if String.eqb (Player.id p) playerOutId
                  then Player.set_onCourt false p else p).
    set (on := fun p : Player.t =>
                 if String.eqb (Player.id p) playerInId
                 then Player.set_onCourt true p else p).
    assert (Hswap_id : forall p, Player.id (swap p) = Player.id p).
    { intros p. subst swap. cbv beta.
      destruct (String.eqb _ _); [reflexivity |].
      destruct (String.eqb _ _); reflexivity. }
    assert (Hoff_id : forall p, Player.id (off p) = Player.id p)
      by (intros p; subst off; cbv beta; destruct (String.eqb _ _); reflexivity).
    assert (Hsplit : forall p, swap p = on (off p)).
    { intros p. subst swap on off. cbv beta.
      destruct (String.eqb_spec (Player.id p) playerOutId) as [Heq | Hneq].
      - cbn [Player.id Player.set_onCourt]. rewrite Heq.
        destruct (String.eqb_spec playerOutId playerInId); [contradiction | reflexivity].
      - reflexivity. }
    assert (Hplayers :
      players_of team
        (withActionLog (set_players_of team (map swap (players_of team payload)) payload)
           (Player.name playerOut ++ " #" ++ JS.String_ (Player.number playerOut)
              ++ " subbed out for " ++ Player.name playerIn ++ " #"
              ++ JS.String_ (Player.number playerIn) ++ "."))
      = map swap (players_of team payload))
      by (destruct team; reflexivity).
    rewrite Hplayers. repeat split.
    + rewrite find_player_map by exact Hswap_id. rewrite Hout. cbn [option_map].
      subst swap. cbv beta. rewrite HoutId, String.eqb_refl. reflexivity.
    + rewrite find_player_map by exact Hswap_id. rewrite Hin. cbn [option_map].
      subst swap. cbv beta. rewrite HinId, String.eqb_refl.
      destruct (String.eqb_spec playerInId playerOutId) as [Heq | _];
        [symmetry in Heq; contradiction | reflexivity].
    + intros p Hp Ho Hi. apply in_map_iff. exists p. split; [| exact Hp].
      subst swap. cbv beta.
      apply String.eqb_neq in Ho, Hi. rewrite Ho, Hi. reflexivity.
    + apply map_id_map. exact Hswap_id.
    + rewrite (map_ext _ _ Hsplit), <- map_map.
      rewrite (onCourtCount_change_one playerInId on _ (off playerIn)).
      * rewrite (onCourtCount_change_one playerOutId off _ playerOut);
          [| | exact Hnd | exact Hout].
        -- subst on off. cbv beta. rewrite HoutId, HinId, String.eqb_refl.
           destruct (String.eqb_spec playerInId playerOutId) as [Heq | _];
             [symmetry in Heq; contradiction |].
           rewrite HinId, String.eqb_refl. cbn [Player.onCourt Player.set_onCourt].
           rewrite HoutOn, HinOn. cbn [b2z]. lia.
        -- intros p Hp'. subst off. cbv beta. apply String.eqb_neq in Hp'.
           rewrite Hp'. reflexivity.
      * intros p Hp'. subst on. cbv beta. apply String.eqb_neq in Hp'.
        rewrite Hp'. reflexivity.
      * rewrite map_id_map by exact Hoff_id. exact Hnd.
      * rewrite find_player_map by exact Hoff_id. rewrite Hin. reflexivity.
    + destruct team; reflexivity.
Qed.

Lemma substitution_swaps_witness :
  let q := reducer 0 (defaultPayload 0) (SUBSTITUTE_PLAYER A "A-0-0" "A-5-0") in
  map Player.onCourt (players_of A (defaultPayload 0))
  = [true; true; true; true; true; false; false]
  /\ map Player.onCourt (players_of A q) = [false; true; true; true; true; true; false]
  /\ onCourtCount (players_of A q) = onCourtCount (players_of A (defaultPayload 0)).
Proof.
  cbv zeta. split; [vm_compute; reflexivity |]. split; [vm_compute; reflexivity |].
  destruct (substitution_swaps 0 (defaultPayload 0) A "A-0-0" "A-5-0"
              (createPlayerState_ids 0 DEFAULT_PLAYERS_A A)) as [_ Hswap].
  destruct (Hswap (Player.mk "A-0-0" 1 "Player A1" None 0 0 0 0 0 0 0 0 true false)
                  (Player.mk "A-5-0" 11 "Player A6" None 0 0 0 0 0 0 0 0 false false))
    as (_ & _ & _ & _ & Hcount & _).
  - repeat split; vm_compute; reflexivity.
  - exact Hcount.
Defined.

Lemma filter_other_ids :
  forall (x : string) (l : list Player.t),
    ~ In x (map Player.id l) ->
    filter (fun p => negb (String.eqb (Player.id p) x)) l = l.
Proof.
  intros x. induction l as [| p l IH]; intros Hx; [reflexivity |].
  cbn [filter map In] in *.
  destruct (String.eqb_spec (Player.id p) x) as [Heq | _]; [tauto |].
  cbn [negb]. f_equal. apply IH. tauto.
Qed.

(** X25: ADD_PLAYER puts the new player last in the team's roster, with the
    id made of the team and the clock reading, and DELETE_PLAYER of that id
    then leaves the players of the old roster that have another id.  When the
    id is new to the roster the roster is back to what it was, and the whole
    snapshot is, if the team's foul counter agreed with its players' fouls;
    when a player of the old roster has the same id (one added at the same
    reading of the clock), that player is deleted too. *)
Theorem add_then_delete :
  forall (now now' : Z) (payload : PersistedPayload) (team : TeamId) (name : string)
         (number : Z) (onCourt : bool),
    let newId := TeamId_str team ++ "-" ++ JS.String_ now in
    let added := reducer now payload (ADD_PLAYER team name number onCourt) in
    let q := reducer now' added (DELETE_PLAYER team newId) in
    (exists player,
        players_of team added = (players_of team payload ++ [player])%list
        /\ Player.id player = newId
        /\ Player.onCourt player
           = onCourt && (onCourtCount (players_of team payload) <? 5))
    /\ players_of team q
       = filter (fun p => negb (String.eqb (Player.id p) newId)) (players_of team payload)
    /\ players_of (other team) q = players_of (other team) payload
    /\ (~ In newId (map Player.id (players_of team payload)) ->
        Payload.players q = Payload.players payload
        /\ (foulsConsistent team payload -> q = payload))
    /\ (In newId (map Player.id (players_of team payload)) ->
        (List.length (players_of team q) < List.length (players_of team payload))%nat).
Proof.
  intros now now' payload team name number onCourt newId added q.
  assert (Hq : players_of team q
               = filter (fun p => negb (String.eqb (Player.id p) newId))
                        (players_of team payload)).
  { subst q added. cbn [reducer]. unfold reduce_DELETE_PLAYER, reduce_ADD_PLAYER.
    unfold players_of at 1. rewrite recalcTeamFouls_players.
    rewrite !players_of_set_players_of.
    assert (H : forall l, Players.get team (Payload.players
                            (set_players_of team l
                               (set_players_of team
                                  (players_of team payload ++
                                   [Player.mk newId number name None 0 0 0 0 0 0 0 0
                                      (onCourt && (onCourtCount (players_of team payload) <? 5))
                                      false])%list payload))) = l)
      by (intros l; destruct team; reflexivity).
    rewrite H. rewrite filter_app. cbn [filter Player.id].
    subst newId. rewrite String.eqb_refl. cbn [negb]. apply app_nil_r. }
  assert (Hother : players_of (other team) q = players_of (other team) payload)
    by (subst q added; destruct team; reflexivity).
  split; [| split; [exact Hq |]; split; [exact Hother |]; split].
  - eexists. subst added. cbn [reducer]. unfold reduce_ADD_PLAYER.
    rewrite players_of_set_players_of. split; [reflexivity |]. split; reflexivity.
  - intros Hfresh.
    assert (Hplayers : Payload.players q = Payload.players payload).
    { rewrite (filter_other_ids _ _ Hfresh) in Hq.
      unfold players_of in Hq, Hother.
      destruct (Payload.players q) as [qa qb], (Payload.players payload) as [pa pb].
      destruct team; cbn [Players.get Players.A Players.B other] in Hq, Hother; congruence. }
    split; [exact Hplayers |].
    intros Hfouls. unfold foulsConsistent in Hfouls.
    assert (Hstate : Payload.state q = Payload.state payload).
    { subst q added. cbn [reducer]. unfold reduce_DELETE_PLAYER, reduce_ADD_PLAYER.
      unfold recalcTeamFouls. cbn [Payload.state Payload.set_state set_players_of
                                   Payload.set_players].
      fold (players_of team (set_players_of team
              (filter (fun p => negb (String.eqb (Player.id p) newId))
                 (players_of team
                    (set_players_of team
                       (players_of team payload ++
                        [Player.mk newId number name None 0 0 0 0 0 0 0 0
                           (onCourt && (onCourtCount (players_of team payload) <? 5))
                           false])%list payload)))
              (set_players_of team
                 (players_of team payload ++
                  [Player.mk newId number name None 0 0 0 0 0 0 0 0
                     (onCourt && (onCourtCount (players_of team payload) <? 5))
                     false])%list payload))).
      rewrite !players_of_set_players_of.
      rewrite filter_app. cbn [filter Player.id]. rewrite String.eqb_refl. cbn [negb].
      rewrite app_nil_r, (filter_other_ids _ _ Hfresh), <- Hfouls.
      destruct (Payload.state payload) as [[] []]; destruct team; reflexivity. }
    assert (Hlog : Payload.actionLog q = Payload.actionLog payload) by reflexivity.
    assert (Hat : Payload.updatedAt q = Payload.updatedAt payload) by reflexivity.
    destruct q, payload. cbn in *. congruence.
  - intros Hin. rewrite Hq.
    apply in_map_iff in Hin. destruct Hin as (p & Hid & Hp).
    clear - Hid Hp. induction (players_of team payload) as [| x l IH]; [contradiction |].
    cbn [filter List.length].
    destruct Hp as [-> | Hp].
    + rewrite Hid, String.eqb_refl. cbn [negb].
      pose proof (filter_length_le (fun p => negb (String.eqb (Player.id p) newId)) l).
      lia.
    + specialize (IH Hp). destruct (negb _); cbn [List.length]; lia.
Qed.

(** ** Decoding *)

Lemma normalizePlayers_from_spec :
  forall (fallback : list Player.t) (l : list (option Wire.Player.t)) (idx : nat),
    (In None l -> normalizePlayers_from idx l fallback = None)
    /\ (~ In None l ->
        exists r,
          normalizePlayers_from idx l fallback = Some r
          /\ List.length r = List.length l
          /\ forall i e,
               nth_error l i = Some (Some e) ->
               nth_error r i
               = Some (mergePlayer
                         (JS.nullish (nth_error fallback (idx + i))
                                     (hd blankPlayer fallback)) e)).
Proof.
  intros fallback. induction l as [| p l IH]; intros idx.
  - split; [intros [] |]. intros _. exists []. split; [reflexivity |].
    split; [reflexivity |]. intros [|] e H; discriminate H.
  - destruct (IH (S idx)) as [IHnone IHsome]. cbn [normalizePlayers_from]. split.
    + intros [-> | Hin]; [reflexivity |].
      rewrite (IHnone Hin). destruct p; reflexivity.
    + intros Hnot. destruct p as [p |]; [| contradiction Hnot; left; reflexivity].
      destruct IHsome as (r & Hr & Hlen & Hnth);
        [intros Hin; apply Hnot; right; exact Hin |].
      rewrite Hr. eexists. split; [reflexivity |]. split; [cbn; lia |].
      intros [| i] e He; cbn [nth_error] in *.
      * injection He as ->. rewrite Nat.add_0_r. reflexivity.
      * rewrite (Hnth i e He). rewrite <- plus_n_Sm. reflexivity.
Qed.

Lemma In_None_dec :
  forall (X : Type) (l : list (option X)), In None l \/ ~ In None l.
Proof.
  intros X. induction l as [| [x |] l IH].
  - right. intros [].
  - destruct IH as [H | H]; [left; right; exact H |].
    right. intros [E | Hin]; [discriminate E | contradiction].
  - left. left. reflexivity.
Qed.

(** X26: decoding a stored object fails exactly when [isState] rejects its
    state or one of its two rosters is an array with a [null] in it.  When it
    succeeds, a missing log is the empty log, a missing [updatedAt] is the
    time of the decoding, a roster that is not an array is the default roster,
    and a roster that is an array keeps its length, each stored player being
    laid over the default player with the same index - over the first default
    player when the index is beyond the default roster. *)
Theorem parsePayload_decodes :
  forall (now : Z) (parsed : Wire.Payload.t),
    (parsePayload now (RawValue parsed) = None
     <-> isState (Wire.Payload.state parsed) = false
         \/ brokenRoster A parsed \/ brokenRoster B parsed)
    /\ forall p,
         parsePayload now (RawValue parsed) = Some p ->
         Payload.actionLog p = JS.nullish (Wire.Payload.actionLog parsed) []
         /\ Payload.updatedAt p = JS.nullish (Wire.Payload.updatedAt parsed) now
         /\ forall team,
              match storedRoster team parsed with
              | None => players_of team p = players_of team (defaultPayload now)
              | Some l =>
                  List.length (players_of team p) = List.length l
                  /\ forall i e,
                       nth_error l i = Some (Some e) ->
                       nth_error (players_of team p) i
                       = Some (mergePlayer
                                 (JS.nullish
                                    (nth_error (players_of team (defaultPayload now)) i)
                                    (hd blankPlayer (players_of team (defaultPayload now))))
                                 e)
              end.
Proof.
  intros now parsed.
  assert (Hroster : forall team,
    (brokenRoster team parsed
     /\ normalizePlayers (storedRoster team parsed) (players_of team (defaultPayload now))
        = None)
    \/ (~ brokenRoster team parsed
        /\ exists r,
          normalizePlayers (storedRoster team parsed) (players_of team (defaultPayload now))
          = Some r
          /\ match storedRoster team parsed with
             | None => r = players_of team (defaultPayload now)
             | Some l =>
                 List.length r = List.length l
                 /\ forall i e,
                      nth_error l i = Some (Some e) ->
                      nth_error r i
                      = Some (mergePlayer
                                (JS.nullish
                                   (nth_error (players_of team (defaultPayload now)) i)
                                   (hd blankPlayer (players_of team (defaultPayload now))))
                                e)
             end)).
  { intros team. unfold brokenRoster, normalizePlayers.
    destruct (storedRoster team parsed) as [l |].
    - destruct (normalizePlayers_from_spec (players_of team (defaultPayload now)) l 0)
        as [Hnone Hsome].
      destruct (In_None_dec _ l) as [Hin | Hnot].
      + left. split; [exists l; split; [reflexivity | exact Hin] | apply Hnone; exact Hin].
      + right. split; [intros (l' & Hl & Hin); injection Hl as <-; contradiction |].
        destruct (Hsome Hnot) as (r & Hr & Hlen & Hnth).
        exists r. split; [exact Hr |]. split; [exact Hlen | exact Hnth].
    - right. split; [intros (l' & Hl & _); discriminate Hl |].
      eexists. split; reflexivity. }
  assert (Hform :
    parsePayload now (RawValue parsed)
    = if isState (Wire.Payload.state parsed)
      then match normalizePlayers (storedRoster A parsed) (players_of A (defaultPayload now)),
                 normalizePlayers (storedRoster B parsed) (players_of B (defaultPayload now))
           with
           | Some playersA, Some playersB =>
               option_map
                 (fun st => Payload.mk st (Players.mk playersA playersB)
                              (JS.nullish (Wire.Payload.actionLog parsed) [])
                              (JS.nullish (Wire.Payload.updatedAt parsed) now))
                 (match Wire.Payload.state parsed with
                  | Some pstate =>
                      Some (mergeState (Payload.state (defaultPayload now)) pstate
                              (mergeTeam (State.teamA (Payload.state (defaultPayload now)))
                                 (JS.nullish (Wire.State.teamA pstate)
                                    (Wire.Team.mk None None None None None None None)))
                              (mergeTeam (State.teamB (Payload.state (defaultPayload now)))
                                 (JS.nullish (Wire.State.teamB pstate)
                                    (Wire.Team.mk None None None None None None None))))
                  | None => None
                  end)
           | _, _ => None
           end
      else None).
  { unfold parsePayload, storedRoster.
    destruct (isState (Wire.Payload.state parsed)) eqn:Hst; cbn [negb]; [| reflexivity].
    destruct (Wire.Payload.state parsed) as [pstate |]; [| discriminate Hst].
    cbn [option_map].
    destruct (normalizePlayers _ _); [| reflexivity].
    destruct (normalizePlayers _ _); reflexivity. }
  rewrite Hform. clear Hform.
  destruct (isState (Wire.Payload.state parsed)) eqn:Hst.
  2:{ split; [split; [intros _; left; reflexivity | reflexivity] | intros p H; discriminate H]. }
  destruct (Wire.Payload.state parsed) as [pstate |]; [| discriminate Hst].
  cbn [option_map].
  destruct (Hroster A) as [[HbA HnA] | [HokA (ra & HrA & HspecA)]].
  { rewrite HnA. split; [split; [intros _; right; left; exact HbA | reflexivity] |].
    intros p H; discriminate H. }
  destruct (Hroster B) as [[HbB HnB] | [HokB (rb & HrB & HspecB)]].
  { rewrite HrA, HnB. split; [split; [intros _; right; right; exact HbB | reflexivity] |].
    intros p H; discriminate H. }
  rewrite HrA, HrB. split.
  - split; [intros H; discriminate H |].
    intros [H | [H | H]]; [discriminate H | contradiction | contradiction].
  - intros p H. injection H as <-. split; [reflexivity |]. split; [reflexivity |].
    intros [|]; cbn [players_of Payload.players Players.get Players.A Players.B];
      [exact HspecA | exact HspecB].
Qed.

(** ** Instances that answer each other *)

Lemma receive_fresher :
  forall (t : Z) (sender receiver : PersistedPayload),
    Payload.updatedAt receiver < t ->
    receive t receiver (saveEvents t sender)
    = (sender |> Payload.set_updatedAt t, true).
Proof.
  intros t sender receiver Hlt. unfold receive, saveEvents.
  cbn [fold_left]. unfold handle at 2. cbn [fst].
  unfold onStorage. cbn [StorageEvent.key StorageEvent.newValue].
  assert (Hkey5 : JS.truthy STORAGE_KEY_V5 = true) by reflexivity.
  rewrite Hkey5. cbn [negb]. unfold JSON_stringify at 1.
  assert (Hk5 : (negb (String.eqb STORAGE_KEY_V5 "basketball_scoreboard_state_v3")
                 && negb (String.eqb STORAGE_KEY_V5 "basketball_scoreboard_state_v5b"))
                = false) by reflexivity.
  rewrite Hk5.
  change (RawValue (Payload_toJSON (Payload.set_updatedAt t sender)))
    with (JSON_stringify (Payload.set_updatedAt t sender)).
  rewrite parsePayload_stringify.
  assert (Hfresh : (Payload.updatedAt (Payload.set_updatedAt t sender)
                    <=? Payload.updatedAt receiver) = false)
    by (cbn [Payload.updatedAt Payload.set_updatedAt]; lia).
  rewrite Hfresh. cbn [reducer].
  unfold handle. cbn [fst]. unfold onStorage.
  cbn [StorageEvent.key StorageEvent.newValue].
  assert (Hkey3 : JS.truthy STORAGE_KEY_V3 = true) by reflexivity.
  rewrite Hkey3. cbn [negb]. unfold JSON_stringify at 1.
  assert (Hk3 : (negb (String.eqb STORAGE_KEY_V3 "basketball_scoreboard_state_v3")
                 && negb (String.eqb STORAGE_KEY_V3 "basketball_scoreboard_state_v5b"))
                = false) by reflexivity.
  rewrite Hk3.
  change (RawValue (Payload_toJSON (Payload.set_updatedAt t sender)))
    with (JSON_stringify (Payload.set_updatedAt t sender)).
  rewrite parsePayload_stringify.
  assert (Hsame : (Payload.updatedAt (Payload.set_updatedAt t sender)
                   <=? Payload.updatedAt (Payload.set_updatedAt t sender)) = true)
    by lia.
  rewrite Hsame. reflexivity.
Qed.

(** X27: two instances answer each other for as long as the clock advances.
    When an instance saves a change at a time later than the [updatedAt] of
    the other instance, the other instance installs the saved snapshot, which
    is a change of its own snapshot, so that its save effect runs in turn; the
    reducer never stamps the local snapshot, so the first instance again holds
    an older [updatedAt] and installs what comes back.  With saves at strictly
    increasing times, all later than both instances' [updatedAt], every save
    is answered: the snapshots installed are the first sender's, one for each
    save, differing in [updatedAt] only. *)
Theorem echo_while_clock_advances :
  forall (times : list Z) (sender receiver : PersistedPayload),
    StronglySorted Z.lt times ->
    Forall (fun t => Payload.updatedAt sender < t /\ Payload.updatedAt receiver < t) times ->
    echo times sender receiver
    = map (fun t => sender |> Payload.set_updatedAt t) times.
Proof.
  induction times as [| t rest IH]; intros sender receiver Hsorted Hlater;
    [reflexivity |].
  inversion Hsorted as [| ? ? Hrest Ht]; subst.
  inversion Hlater as [| ? ? [Hs Hr] Hlater']; subst.
  cbn [echo map]. rewrite (receive_fresher t sender receiver Hr). f_equal.
  rewrite (IH (sender |> Payload.set_updatedAt t) sender Hrest).
  - apply map_ext. intros t'. reflexivity.
  - rewrite Forall_forall in *. intros t' Hin.
    cbn [Payload.updatedAt Payload.set_updatedAt].
    split; [apply Ht; exact Hin | apply (Hlater' _ Hin)].
Qed.

Lemma echo_while_clock_advances_witness :
  let changed := reducer 0 (defaultPayload 0) (ADD_POINTS A 2 None) in
  map Payload.updatedAt (echo [10; 20; 30; 40] changed (defaultPayload 0))
  = [10; 20; 30; 40]
  /\ map (fun p => Team.score (State.teamA (Payload.state p)))
         (echo [10; 20; 30; 40] changed (defaultPayload 0))
     = [2; 2; 2; 2].
Proof.
  cbv zeta.
  rewrite (echo_while_clock_advances [10; 20; 30; 40]
             (reducer 0 (defaultPayload 0) (ADD_POINTS A 2 None)) (defaultPayload 0)).
  - split; reflexivity.
  - repeat (constructor; [repeat constructor |]). constructor.
  - repeat (constructor; [split; reflexivity |]). constructor.
Defined.

(** ** Starting up *)

(** X28: at start-up the instance takes, of the snapshots decoded from the
    two keys, one whose [updatedAt] is the greatest - the one of the fifth
    version when the two are equally fresh - and the default snapshot when
    neither key decodes. *)
Theorem loadLatestPayload_freshest :
  forall (now : Z) (localStorage : Storage),
    let fromV5 := parsePayload now (localStorage STORAGE_KEY_V5) in
    let fromV3 := parsePayload now (localStorage STORAGE_KEY_V3) in
    let loaded := loadLatestPayload now localStorage in
    (fromV5 = Some loaded \/ fromV3 = Some loaded
     \/ (fromV5 = None /\ fromV3 = None /\ loaded = defaultPayload now))
    /\ (forall p, fromV5 = Some p \/ fromV3 = Some p ->
          Payload.updatedAt p <= Payload.updatedAt loaded)
    /\ (forall p5 p3, fromV5 = Some p5 -> fromV3 = Some p3 ->
          Payload.updatedAt p3 <= Payload.updatedAt p5 -> loaded = p5).
Proof.
  intros now localStorage fromV5 fromV3 loaded. subst loaded. unfold loadLatestPayload.
  fold fromV5 fromV3.
  destruct fromV5 as [p5 |], fromV3 as [p3 |].
  - destruct (Z.geb_spec (Payload.updatedAt p5) (Payload.updatedAt p3)) as [Hge | Hlt].
    + split; [left; reflexivity |]. split.
      * intros p [H | H]; injection H as <-; lia.
      * intros q5 q3 H5 H3 _. injection H5 as <-. reflexivity.
    + split; [right; left; reflexivity |]. split.
      * intros p [H | H]; injection H as <-; lia.
      * intros q5 q3 H5 H3 Hle. injection H5 as <-. injection H3 as <-. lia.
  - split; [left; reflexivity |]. split.
    + intros p [H | H]; [injection H as <-; lia | discriminate H].
    + intros q5 q3 _ H3. discriminate H3.
  - split; [right; left; reflexivity |]. split.
    + intros p [H | H]; [discriminate H | injection H as <-; lia].
    + intros q5 q3 H5. discriminate H5.
  - split; [right; right; repeat split |]. split.
    + intros p [H | H]; discriminate H.
    + intros q5 q3 H5. discriminate H5.
Qed.

(** ** Halftime *)

Lemma rules_step_run :
  forall (now : Z) (payload : PersistedPayload) (n : nat),
    rules (Payload.state (run now payload (repeat TICK n)))
    = rules (Payload.state payload).
Proof.
  intros now payload n.
  apply (run_invariant continuesGame
           (fun p => rules (Payload.state p) = rules (Payload.state payload)) now);
    [| | reflexivity].
  - intros p a Ha. apply rules_step. exact Ha.
  - apply Forall_forall. intros a Ha. apply repeat_spec in Ha. subst a. exact I.
Qed.

(** X29: a halftime of [minutes] minutes (one minute at least) runs its
    course in sixty TICKs a minute.  Before the last of them the overlay shows
    with its countdown; with the last one it ends, and both clocks stay
    stopped: the game does not resume by itself.  When the halftime was
    started in the second quarter of a game of three quarters or more, the
    game is then in the third quarter with both clocks at their full values,
    the possession with team A and no shot-clock violation; otherwise quarter
    and clocks are as they were.  Rosters and scores do not change. *)
Theorem halftime_runs_its_course :
  forall (now : Z) (payload : PersistedPayload) (minutes : Z) (n : nat),
    let st := Payload.state payload in
    let seconds := Z.max 1 minutes * 60 in
    Z.of_nat n <= seconds ->
    let q := Payload.state (run now payload (START_HALFTIME minutes :: repeat TICK n)) in
    State.gameClockRunning q = false
    /\ State.shotClockRunning q = false
    /\ (if Z.of_nat n <? seconds
        then State.overlayMode q = Some halftime
             /\ State.overlayRemainingSeconds q = seconds - Z.of_nat n
             /\ State.quarter q = State.quarter st
             /\ State.gameClockSeconds q = State.gameClockSeconds st
             /\ State.shotClockSeconds q = State.shotClockSeconds st
        else State.overlayMode q = None
             /\ State.overlayRemainingSeconds q = 0
             /\ if (State.quarter st =? 2) && (State.totalQuarters st >=? 3)
                then State.quarter q = 3
                     /\ State.gameClockSeconds q = State.quarterLengthMinutes st * 60
                     /\ State.shotClockSeconds q = State.shotClockDefault st
                     /\ State.possession q = A
                     /\ State.shotViolation q = false
                else State.quarter q = State.quarter st
                     /\ State.gameClockSeconds q = State.gameClockSeconds st
                     /\ State.shotClockSeconds q = State.shotClockSeconds st)
    /\ Payload.players (run now payload (START_HALFTIME minutes :: repeat TICK n))
       = Payload.players payload
    /\ State.teamA q = State.teamA st
    /\ State.teamB q = State.teamB st.
Proof.
  intros now payload minutes n st seconds Hn q. subst q st.
  change (run now payload (START_HALFTIME minutes :: repeat TICK n))
    with (run now (reduce_START_HALFTIME payload minutes) (repeat TICK n)).
  set (opened := reduce_START_HALFTIME payload minutes).
  assert (Hopened :
    State.overlayMode (Payload.state opened) = Some halftime
    /\ State.overlayRemainingSeconds (Payload.state opened) = seconds
    /\ State.gameClockRunning (Payload.state opened) = false
    /\ State.shotClockRunning (Payload.state opened) = false
    /\ State.gameClockSeconds (Payload.state opened)
       = State.gameClockSeconds (Payload.state payload)
    /\ State.shotClockSeconds (Payload.state opened)
       = State.shotClockSeconds (Payload.state payload)
    /\ State.quarter (Payload.state opened) = State.quarter (Payload.state payload)
    /\ State.totalQuarters (Payload.state opened)
       = State.totalQuarters (Payload.state payload)
    /\ State.quarterLengthMinutes (Payload.state opened)
       = State.quarterLengthMinutes (Payload.state payload)
    /\ State.shotClockDefault (Payload.state opened)
       = State.shotClockDefault (Payload.state payload)
    /\ Payload.players opened = Payload.players payload
    /\ State.teamA (Payload.state opened) = State.teamA (Payload.state payload)
    /\ State.teamB (Payload.state opened) = State.teamB (Payload.state payload)).
  { subst opened seconds. unfold reduce_START_HALFTIME. cbn. repeat split. lia. }
  clearbody opened.
  destruct Hopened
    as (O1 & O2 & O3 & O4 & O5 & O6 & O7 & O8 & O9 & O10 & O11 & O12 & O13).
  assert (Hpos : 1 <= seconds) by (subst seconds; lia).
  destruct (Z.ltb_spec (Z.of_nat n) seconds) as [Hlt | Hge].
  - destruct (overlay_countdown now n opened halftime O1 ltac:(lia))
      as (K1 & K2 & K3 & K4 & K5 & K6 & K7 & K8 & K9 & K10 & K11 & K12).
    repeat split; try congruence; lia.
  - destruct n as [| n]; [lia |].
    replace (repeat TICK (S n)) with (repeat TICK n ++ [TICK])%list
      by (rewrite <- repeat_cons; reflexivity).
    unfold run. rewrite fold_left_app. cbn [fold_left reducer].
    fold (run now opened (repeat TICK n)).
    destruct (overlay_countdown now n opened halftime O1 ltac:(lia))
      as (K1 & K2 & K3 & K4 & K5 & K6 & K7 & K8 & K9 & K10 & K11 & K12).
    assert (Ktotal : State.totalQuarters (Payload.state (run now opened (repeat TICK n)))
                     = State.totalQuarters (Payload.state opened)).
    { pose proof (rules_step_run now opened n) as H.
      apply (f_equal (fun r => fst (fst (fst (fst r))))) in H. exact H. }
    assert (Kqlm : State.quarterLengthMinutes
                     (Payload.state (run now opened (repeat TICK n)))
                   = State.quarterLengthMinutes (Payload.state opened)).
    { pose proof (rules_step_run now opened n) as H.
      apply (f_equal (fun r => snd (fst (fst (fst r))))) in H. exact H. }
    assert (Kscd : State.shotClockDefault (Payload.state (run now opened (repeat TICK n)))
                   = State.shotClockDefault (Payload.state opened)).
    { pose proof (rules_step_run now opened n) as H.
      apply (f_equal (fun r => snd (fst r))) in H. exact H. }
    set (last := run now opened (repeat TICK n)) in *. clearbody last.
    unfold reduce_TICK. rewrite K1.
    assert (Hz : Z.max 0 (State.overlayRemainingSeconds (Payload.state last) - 1) = 0)
      by lia.
    rewrite Hz. cbn [Z.leb Z.compare]. unfold endOverlay. cbn. rewrite K1. cbn.
    rewrite K8, O7, Ktotal, O8.
    destruct ((State.quarter (Payload.state payload) =? 2)
              && (State.totalQuarters (Payload.state payload) >=? 3));
      cbn; repeat split; congruence.
Qed.

Lemma halftime_runs_its_course_witness :
  let second := reducer 0 (defaultPayload 0) NEXT_QUARTER in
  let q := Payload.state (run 0 second (START_HALFTIME 1 :: repeat TICK 60)) in
  State.quarter (Payload.state second) = 2
  /\ State.overlayMode q = None
  /\ State.quarter q = 3
  /\ State.gameClockSeconds q = 600
  /\ State.gameClockRunning q = false.
Proof.
  cbv zeta. split; [reflexivity |].
  destruct (halftime_runs_its_course 0 (reducer 0 (defaultPayload 0) NEXT_QUARTER) 1 60)
    as (Hrun & _ & Hend & _); [vm_compute; discriminate |].
  change (Z.of_nat 60 <? Z.max 1 1 * 60) with false in Hend.
  change ((State.quarter (Payload.state (reducer 0 (defaultPayload 0) NEXT_QUARTER)) =? 2)
          && (State.totalQuarters
                (Payload.state (reducer 0 (defaultPayload 0) NEXT_QUARTER)) >=? 3))
    with true in Hend.
  destruct Hend as (Hmode & _ & Hq & Hclock & _).
  split; [exact Hmode |]. split; [exact Hq |]. split; [| exact Hrun].
  rewrite Hclock. reflexivity.
Defined.

(** ** The life of a highlight *)



